(** * Heuristic media-authenticity scoring engine

    A shallow embedding of the scoring engine of the deepfake dashboard:
    [ImageProcessor] (frame sampling) and the three tunings of
    [DeepfakeDetector] that the repository carries,

    - [Aggressive]   : [src/utils/deepfakeDetector.ts],
    - [Realistic]    : the detector text that follows [ModelLoader] in
                       [src/utils/modelLoader.ts],
    - [Conservative] : the third detector text (unnamed part 001).

    JavaScript numbers are modelled by [Js.num]: an exact rational, the two
    infinities, or NaN.  Rounding of binary64 arithmetic is not modelled and
    the two zeros are identified; every comparison, [Math.min]/[Math.max] and
    division follows the IEEE rules for NaN and for a zero divisor.  Square
    roots and arc tangents only occur under comparisons, which are read over
    the exact reals.

    [Math.random()] is an explicit stream of draws.  The scorers
    ([analyzeImage], [analyzeVideo]) take the values returned by their
    extractor calls as part of the decoded image; the extractors are
    embedded on canvas pixel data, a missing 2d context being the [None]
    case.  [performFrequencyAnalysis] is left out: it takes the floor of a
    gray value, which depends on the rounding of the sum.

    Around the engine, [ModelLoader] (the life cycle of the two models), the
    upload handler of [App], the file filter of [UploadZone] and the
    statistics of [Dashboard] are embedded as far as their logic goes;
    identifiers drawn at random and wall-clock times are left out. *)

From Stdlib Require Import QArith Qround Qminmax Qabs ZArith List Sorted String Ascii Bool Lia Lqa.
Import ListNotations.
Local Open Scope Q_scope.

(* ------------------------------------------------------------------ *)
(** ** JavaScript values used by the engine *)

Module Js.

Inductive num : Type :=
| Fin (q : Q)
| PosInf
| NegInf
| NaN.

Definition of_nat (n : nat) : num := Fin (inject_Z (Z.of_nat n)).

Definition Qltb (x y : Q) : bool := negb (Qle_bool y x).

Definition neg (a : num) : num :=
  match a with
  | Fin x => Fin (- x)
  | PosInf => NegInf
  | NegInf => PosInf
  | NaN => NaN
  end.

Definition add (a b : num) : num :=
  match a, b with
  | NaN, _ | _, NaN => NaN
  | Fin x, Fin y => Fin (x + y)
  | PosInf, NegInf | NegInf, PosInf => NaN
  | PosInf, _ | _, PosInf => PosInf
  | NegInf, _ | _, NegInf => NegInf
  end.

Definition sub (a b : num) : num := add a (neg b).

(** Sign of a number: [Some true] positive, [Some false] negative,
    [None] zero or NaN. *)
Definition sign (a : num) : option bool :=
  match a with
  | Fin x => if Qltb 0 x then Some true else if Qltb x 0 then Some false else None
  | PosInf => Some true
  | NegInf => Some false
  | NaN => None
  end.

Definition signed_inf (s t : bool) : num := if Bool.eqb s t then PosInf else NegInf.

Definition mul (a b : num) : num :=
  match a, b with
  | NaN, _ | _, NaN => NaN
  | Fin x, Fin y => Fin (x * y)
  | _, _ =>
      match sign a, sign b with
      | Some s, Some t => signed_inf s t
      | _, _ => NaN                      (* 0 * Infinity *)
      end
  end.

Definition div (a b : num) : num :=
  match a, b with
  | NaN, _ | _, NaN => NaN
  | Fin x, Fin y =>
      if Qeq_bool y 0 then
        match sign a with
        | Some s => signed_inf s true    (* x / 0 *)
        | None => NaN                    (* 0 / 0 *)
        end
      else Fin (x / y)
  | Fin _, _ => Fin 0                    (* x / Infinity *)
  | _, Fin y =>
      match sign a with
      | Some s => signed_inf s (negb (Qltb y 0))
      | None => NaN
      end
  | _, _ => NaN                          (* Infinity / Infinity *)
  end.

(** [a < b]; false as soon as one side is NaN. *)
Definition lt (a b : num) : bool :=
  match a, b with
  | NaN, _ | _, NaN => false
  | Fin x, Fin y => Qltb x y
  | NegInf, NegInf => false
  | NegInf, _ => true
  | _, PosInf => match a with PosInf => false | _ => true end
  | _, _ => false
  end.

Definition gt (a b : num) : bool := lt b a.

(** [a <= b]; false as soon as one side is NaN. *)
Definition le (a b : num) : bool :=
  match a, b with
  | NaN, _ | _, NaN => false
  | Fin x, Fin y => Qle_bool x y
  | NegInf, _ => true
  | _, PosInf => true
  | _, _ => false
  end.

Definition ge (a b : num) : bool := le b a.

(** [Math.min] and [Math.max]: NaN when an argument is NaN. *)
Definition min (a b : num) : num :=
  match a, b with
  | NaN, _ | _, NaN => NaN
  | _, _ => if lt b a then b else a
  end.

Definition max (a b : num) : num :=
  match a, b with
  | NaN, _ | _, NaN => NaN
  | _, _ => if lt a b then b else a
  end.

Definition abs (a : num) : num :=
  match a with
  | Fin x => Fin (Qabs x)
  | PosInf | NegInf => PosInf
  | NaN => NaN
  end.

(** [a === b] on numbers: NaN differs from everything. *)
Definition eqb (a b : num) : bool :=
  match a, b with
  | Fin x, Fin y => Qeq_bool x y
  | PosInf, PosInf | NegInf, NegInf => true
  | _, _ => false
  end.

(** Rounding toward zero, and the remainder [a % b] (sign of the dividend). *)
Definition Qtrunc (x : Q) : Z := if Qle_bool 0 x then Qfloor x else Qceiling x.

Definition rem (a b : num) : num :=
  match a, b with
  | Fin x, Fin y =>
      if Qeq_bool y 0 then NaN else Fin (x - y * inject_Z (Qtrunc (x / y)))
  | Fin x, (PosInf | NegInf) => Fin x
  | _, _ => NaN
  end.

(** [Math.sqrt(a) > t] and [Math.sqrt(a) < t] for a rational [t >= 0], read
    over the exact reals: the square root itself is never materialised. *)
Definition sqrt_gt (a : num) (t : Q) : bool := gt a (Fin (t * t)) && le (Fin 0) a.
Definition sqrt_lt (a : num) (t : Q) : bool := lt a (Fin (t * t)) && le (Fin 0) a.

(** [Math.abs(Math.atan2(sy, sx))] is below [PI / 4] or above [3 * PI / 4]:
    over the exact reals, the direction is within 45 degrees of the x axis
    ([atan2] of two zeros is 0 or PI). *)
Definition near_x_axis (sy sx : num) : bool :=
  lt (abs sy) (abs sx) || (eqb sy (Fin 0) && eqb sx (Fin 0)).

(** [d = Math.abs(Math.atan2(sy, sx) - Math.atan2(ny, nx))] is below
    [PI / 4] or above [7 * PI / 4]: over the exact reals and for two
    gradients of non-zero length (the extractor compares no others), the two
    directions are less than 45 degrees apart. *)
Definition directions_agree (sy sx ny nx : num) : bool :=
  let dot := add (mul sx nx) (mul sy ny) in
  let cross := sub (mul sx ny) (mul sy nx) in
  lt (Fin 0) dot && lt (abs cross) dot.

(** Equality of numbers up to the representation of the rational. *)
Definition eqn (a b : num) : Prop :=
  match a, b with
  | Fin x, Fin y => x == y
  | PosInf, PosInf | NegInf, NegInf | NaN, NaN => True
  | _, _ => False
  end.

(** [a] is a finite number inside the closed interval [[lo, hi]]. *)
Definition within (lo hi : Q) (a : num) : Prop :=
  match a with
  | Fin x => lo <= x /\ x <= hi
  | _ => False
  end.

(** *** Strings: [toLowerCase], [includes], [startsWith] on ASCII text *)

Definition lower_ascii (c : ascii) : ascii :=
  let n := nat_of_ascii c in
  if (65 <=? n)%nat && (n <=? 90)%nat then ascii_of_nat (n + 32) else c.

Fixpoint toLowerCase (s : string) : string :=
  match s with
  | EmptyString => EmptyString
  | String c s' => String (lower_ascii c) (toLowerCase s')
  end.

Definition startsWith (s p : string) : bool := String.prefix p s.

Fixpoint includes (s t : string) : bool :=
  String.prefix t s ||
  match s with
  | EmptyString => false
  | String _ s' => includes s' t
  end.

End Js.

Abbreviation num := Js.num.
Abbreviation Fin := Js.Fin.
Abbreviation NaN := Js.NaN.
Coercion Js.Fin : Q >-> Js.num.

Declare Scope js_scope.
Delimit Scope js_scope with js.
Infix ">?" := Js.gt (at level 70, no associativity) : js_scope.
Infix "<?" := Js.lt (at level 70, no associativity) : js_scope.
Infix ">=?" := Js.ge (at level 70, no associativity) : js_scope.
Infix "<=?" := Js.le (at level 70, no associativity) : js_scope.
Infix "===" := Js.eqb (at level 70, no associativity) : js_scope.

Declare Scope num_scope.
Delimit Scope num_scope with n.
Bind Scope num_scope with Js.num.
Infix "+" := Js.add : num_scope.
Infix "-" := Js.sub : num_scope.
Infix "*" := Js.mul : num_scope.
Infix "/" := Js.div : num_scope.
Notation "- a" := (Js.neg a) : num_scope.
Local Open Scope string_scope.
Local Open Scope js_scope.

(* ------------------------------------------------------------------ *)
(** ** Data model *)

Inductive ThreatLevel : Type := low | medium | high | critical.

(** Position of a level in the order low < medium < high < critical. *)
Definition severity (t : ThreatLevel) : nat :=
  match t with low => 0 | medium => 1 | high => 2 | critical => 3 end.

Record DetectionAnalysis : Type := mkAnalysis {
  faceDetection : num;
  temporalConsistency : num;
  artifactDetection : num;
  imageQuality : num;
  neuralNetworkConfidence : num
}.

(** [processingTime] is a wall-clock difference and is left out. *)
Record DeepfakeDetectionResult : Type := mkResult {
  isDeepfake : bool;
  confidence : num;
  threatLevel : ThreatLevel;
  analysis : DetectionAnalysis
}.

(** What the extractor calls of a detector return on one decoded image or
    video frame.  The aggressive tuning never calls the last two. *)
Record Signals : Type := mkSignals {
  faceDetectionScore : num;
  artifactScore : num;
  qualityScore : num;
  compressionArtifacts : num;
  edgeConsistency : num;
  colorConsistency : num;
  frequencyAnalysis : num
}.

(** A decoded [HTMLImageElement] as the scorer sees it: its size, and in
    [signals] the values that [performFaceAnalysis], [detectArtifacts],
    [ImageProcessor.calculateImageQuality], [detectCompressionArtifacts],
    [analyzeEdgeConsistency], [analyzeColorConsistency] and
    [performFrequencyAnalysis] return on it. *)
Record Image : Type := mkImage {
  width : N;
  height : N;
  signals : Signals
}.

(** A decodable video: its duration in seconds and the frame drawn after a
    seek to a given time. *)
Record Video : Type := mkVideo {
  duration : Q;
  frameAt : Q -> Image
}.

Inductive Media : Type :=
| IsImage (img : Image)
| IsVideo (v : Video)
| Broken.

(** A browser [File]: name, declared MIME type, byte size, and what its bytes
    decode to. *)
Record File : Type := mkFile {
  name : string;
  type : string;
  size : N;
  media : Media
}.

Inductive Error : Type :=
| ModelsNotInitialized        (* Error('Models not initialized') *)
| UnsupportedFileType         (* Error('Unsupported file type') *)
| LoadError                   (* rejection by img.onerror / video.onerror *)
| Unsettled.                  (* the promise is never settled *)

Definition Result (A : Type) : Type := (Error + A)%type.

(** The successive results of [Math.random()], in call order. *)
Definition Rng : Type := nat -> Q.

(** [Math.max(0, Math.min(100, x))] *)
Definition clamp (x : num) : num := Js.max (Fin 0) (Js.min (Fin 100) x).

Definition fileSizeMB (f : File) : Q := inject_Z (Z.of_N (size f)) / (1024 * 1024).

(** [frameAnalyses.reduce((sum, a) => sum + field(a), 0) / frameAnalyses.length] *)
Definition average (field : DetectionAnalysis -> num) (l : list DetectionAnalysis) : num :=
  Js.div (fold_left (fun sum a => Js.add sum (field a)) l (Fin 0)) (Js.of_nat (List.length l)).

(* ------------------------------------------------------------------ *)
(** ** Statements on the running suspicion score *)

Module Score.

(** A statement updates the mutable [suspicionScore] / [totalSuspicion]. *)
Definition stmt : Type := Q -> Q.

Definition incr (k : Q) : stmt := fun s => s + k.          (* score += k *)
Definition decr (k : Q) : stmt := fun s => s - k.          (* score -= k *)
Definition skip : stmt := fun s => s.
Definition seq (a b : stmt) : stmt := fun s => b (a s).
Definition cond (c : bool) (a b : stmt) : stmt := fun s => if c then a s else b s.

End Score.

Declare Scope score_scope.
Delimit Scope score_scope with score.
Notation "a ;; b" := (Score.seq a b) (at level 61, right associativity) : score_scope.
Notation "'If' c 'Then' a 'Else' b" := (Score.cond c a b) (at level 60, c at level 200, right associativity) : score_scope.
Notation "'When' c 'Do' a" := (Score.cond c a Score.skip) (at level 60, c at level 200) : score_scope.
Notation "+= k" := (Score.incr k) (at level 59) : score_scope.
Notation "-= k" := (Score.decr k) (at level 59) : score_scope.

(* ------------------------------------------------------------------ *)
(** ** ImageProcessor *)

Module ImageProcessor.

(** Default of the [maxFrames] parameter. *)
Definition defaultMaxFrames : nat := 10.

(** The seek / draw / capture cycle driven by [onseeked]: every round
    captures the frame at [currentTime], then either seeks [interval]
    further or resolves.  The list holds the captured times, oldest first.
    The canvas is taken to have a 2d context. *)
Fixpoint seekLoop (fuel : nat) (currentTime interval : Q) (frameCount maxFrames : nat)
         (frames : list Q) : option (list Q) :=
  match fuel with
  | O => None
  | S fuel' =>
      let frames := (frames ++ [currentTime])%list in
      let frameCount := S frameCount in
      if (frameCount <? maxFrames)%nat
      then seekLoop fuel' (currentTime + interval) interval frameCount maxFrames frames
      else Some frames
  end.

(** Times at which frames are captured.  [interval] is only read when
    [maxFrames > 1], so the quotient is never taken by zero. *)
Definition captureTimes (fuel : nat) (duration : Q) (maxFrames : nat) : option (list Q) :=
  let interval := duration / inject_Z (Z.of_nat maxFrames) in
  seekLoop fuel 0 interval 0 maxFrames [].

Definition extractFramesFromVideo (videoFile : File) (maxFrames : nat) : Result (list Image) :=
  match media videoFile with
  | IsVideo v =>
      match captureTimes (S maxFrames) (duration v) maxFrames with
      | Some times => inr (map (frameAt v) times)
      | None => inl Unsettled
      end
  | _ => inl LoadError
  end.

End ImageProcessor.

(** [loadImage]: resolves with the decoded image, rejects through [onerror]. *)
Definition loadImage (file : File) : Result Image :=
  match media file with
  | IsImage img => inr img
  | _ => inl LoadError
  end.

(** [getVideoDuration]: the duration, or 30 when the video fails to load. *)
Definition getVideoDuration (file : File) : Q :=
  match media file with
  | IsVideo v => duration v
  | _ => 30
  end.

(* ------------------------------------------------------------------ *)
(** ** Canvas pixel data *)

(** What [ctx.getImageData(0, 0, canvas.width, canvas.height)] hands to an
    extractor: the canvas size and the flat RGBA samples. *)
Record ImageData : Type := mkImageData {
  canvasWidth : Z;
  canvasHeight : Z;
  data : list Z
}.

(** [data[i]]; reading outside the array gives [undefined], which every
    arithmetic use turns into NaN. *)
Definition sample (d : list Z) (i : Z) : num :=
  if (i <? 0)%Z then NaN
  else match nth_error d (Z.to_nat i) with
       | Some v => Fin (inject_Z v)
       | None => NaN
       end.

Definition ofZ (z : Z) : num := Fin (inject_Z z).

(** The integers [lo], [lo + 1], ... below [hi]. *)
Definition zrange (lo hi : Z) : list Z :=
  map (fun k => (lo + Z.of_nat k)%Z) (seq 0 (Z.to_nat (hi - lo))).

(** [for (let i = lo; i < hi; i++) acc = body(i, acc)] *)
Definition forZ {A : Type} (lo hi : Z) (body : Z -> A -> A) (acc : A) : A :=
  fold_left (fun a i => body i a) (zrange lo hi) acc.

(** [for (let i = start; i < bound; i++)] from a start that need not be an
    integer: the body runs at [start], [start + 1], ... *)
Fixpoint forSteps {A : Type} (n : nat) (i : Q) (body : Q -> A -> A) (acc : A) : A :=
  match n with
  | O => acc
  | S n' => forSteps n' (i + 1) body (body i acc)
  end.

Definition tripCount (start bound : Q) : nat := Z.to_nat (Qceiling (bound - start)).

Definition forQ {A : Type} (start bound : Q) (body : Q -> A -> A) (acc : A) : A :=
  forSteps (tripCount start bound) start body acc.

(** The 3x3 neighbourhood of pixel [(x, y)], rows first, through [read]. *)
Definition neighbourhood (read : Z -> Z -> num) (x y : Z) : list num :=
  forZ (-1) 2 (fun dy pixels =>
    forZ (-1) 2 (fun dx pixels => (pixels ++ [read (y + dy) (x + dx)])%list) pixels)%Z [].

(** [pixels[k]] *)
Definition item (pixels : list num) (k : nat) : num := nth k pixels NaN.

Definition sobelX (pixels : list num) : num :=
  ((-1 * item pixels 0) + (1 * item pixels 2) +
   (-2 * item pixels 3) + (2 * item pixels 5) +
   (-1 * item pixels 6) + (1 * item pixels 8))%n.

Definition sobelY (pixels : list num) : num :=
  ((-1 * item pixels 0) + (-2 * item pixels 1) + (-1 * item pixels 2) +
   (1 * item pixels 6) + (2 * item pixels 7) + (1 * item pixels 8))%n.

(** [Math.sqrt(sobelX * sobelX + sobelY * sobelY) > threshold] *)
Definition magnitudeAbove (threshold : Q) (pixels : list num) : bool :=
  Js.sqrt_gt (sobelX pixels * sobelX pixels + sobelY pixels * sobelY pixels)%n threshold.

(** [0.299 * data[i] + 0.587 * data[i + 1] + 0.114 * data[i + 2]] *)
Definition grayAt (d : list Z) (i : Z) : num :=
  (0.299 * sample d i + 0.587 * sample d (i + 1) + 0.114 * sample d (i + 2))%n.

(** Mean colour of one quadrant of [analyzeColorConsistency]; a region is
    [(x, y, w, h)] and may start and end between two pixels. *)
Definition regionMean (img : ImageData) (region : Q * Q * Q * Q) : num * num * num :=
  let '(rx, ry, rw, rh) := region in
  let '(rSum, gSum, bSum, count) :=
    forQ ry (ry + rh) (fun y st =>
      forQ rx (rx + rw) (fun x st =>
        let '(rSum, gSum, bSum, count) := st in
        let idx := ((Qfloor y * canvasWidth img + Qfloor x) * 4)%Z in
        ((rSum + sample (data img) idx)%n,
         (gSum + sample (data img) (idx + 1))%n,
         (bSum + sample (data img) (idx + 2))%n,
         (count + 1)%Z)) st)
      (Fin 0, Fin 0, Fin 0, 0%Z) in
  ((rSum / ofZ count)%n, (gSum / ofZ count)%n, (bSum / ofZ count)%n).

Definition quadrants (img : ImageData) : list (Q * Q * Q * Q) :=
  let w := inject_Z (canvasWidth img) in
  let h := inject_Z (canvasHeight img) in
  [ (0, 0, w / 2, h / 2);
    (w / 2, 0, w / 2, h / 2);
    (0, h / 2, w / 2, h / 2);
    (w / 2, h / 2, w / 2, h / 2) ].

Definition colourDiff (a b : num * num * num) : num :=
  let '(ar, ag, ab) := a in
  let '(br, bg, bb) := b in
  (Js.abs (ar - br) + Js.abs (ag - bg) + Js.abs (ab - bb))%n.

(** The double loop over [i < j] summing the differences of the region means. *)
Definition totalDifference (regionStats : list (num * num * num)) : num :=
  let len := Z.of_nat (List.length regionStats) in
  let stat k := nth (Z.to_nat k) regionStats (NaN, NaN, NaN) in
  forZ 0 len (fun i total =>
    forZ (i + 1) len (fun j total => (total + colourDiff (stat i) (stat j))%n) total)
    (Fin 0).

(** The three skin-tone tests of [isSkinTone] on one RGB sample. *)

(** Algorithm 1: RGB-based. *)
Definition rgbSkin (r g b : num) : bool :=
  (r >? 95) && (g >? 40) && (b >? 20) &&
  ((Js.max (Js.max r g) b - Js.min (Js.min r g) b)%n >? 15) &&
  (Js.abs (r - g)%n >? 15) && (r >? g) && (r >? b).

(** Algorithm 2: YCbCr-based. *)
Definition ycbcrSkin (r g b : num) : bool :=
  let cb := (-0.169 * r - 0.331 * g + 0.5 * b + 128)%n in
  let cr := (0.5 * r - 0.419 * g - 0.081 * b + 128)%n in
  (cb >=? 77) && (cb <=? 127) && (cr >=? 133) && (cr <=? 173).

(** Algorithm 3: HSV-based. *)
Definition hsvSkin (r g b : num) : bool :=
  let max := Js.max (Js.max r g) b in
  let min := Js.min (Js.min r g) b in
  let delta := (max - min)%n in
  let v := (max / 255)%n in
  let s := if max === 0 then Fin 0 else (delta / max)%n in
  let h :=
    if negb (delta === 0) then
      if max === r then Js.rem ((g - b) / delta)%n 6
      else if max === g then ((b - r) / delta + 2)%n
      else ((r - g) / delta + 4)%n
    else Fin 0 in
  let h := (h * 60)%n in
  let h := if h <? 0 then (h + 360)%n else h in
  ((h >=? 0) && (h <=? 50)) && (s >=? 0.23) && (s <=? 0.68) &&
  (v >=? 0.35) && (v <=? 0.95).

(** [distFromCenter < faceRegionRadius] for the pixel in column [x], row [y]. *)
Definition inFaceRegion (img : ImageData) (x y : Z) : bool :=
  let centerX := inject_Z (canvasWidth img) / 2 in
  let centerY := inject_Z (canvasHeight img) / 2 in
  let faceRegionRadius := inject_Z (Z.min (canvasWidth img) (canvasHeight img)) / 4 in
  Js.sqrt_lt (Fin ((inject_Z x - centerX) ^ 2 + (inject_Z y - centerY) ^ 2))
             faceRegionRadius.

(** [isSkinTone] applied to the sample in column [x], row [y]. *)
Definition skinAt (isSkinTone : num -> num -> num -> bool) (img : ImageData) (x y : Z) : bool :=
  let i := ((y * canvasWidth img + x) * 4)%Z in
  isSkinTone (sample (data img) i) (sample (data img) (i + 1)) (sample (data img) (i + 2)).

(** The face-region scan shared by the realistic and conservative tunings:
    returns [(skinPixels, faceRegionPixels)]. *)
Definition faceScan (isSkinTone : num -> num -> num -> bool) (img : ImageData) : Z * Z :=
  forZ 0 (canvasHeight img) (fun y st =>
    forZ 0 (canvasWidth img) (fun x st =>
      let '(skinPixels, faceRegionPixels) := st in
      if inFaceRegion img x y
      then ((if skinAt isSkinTone img x y then skinPixels + 1 else skinPixels)%Z,
            (faceRegionPixels + 1)%Z)
      else st) st)
    (0%Z, 0%Z).

(** The red sample of the pixel in row [py], column [px]. *)
Definition redPixel (img : ImageData) (py px : Z) : num :=
  sample (data img) ((py * canvasWidth img + px) * 4).

(** The gray value of the pixel in row [py], column [px]. *)
Definition grayPixel (img : ImageData) (py px : Z) : num :=
  grayAt (data img) ((py * canvasWidth img + px) * 4).

(** The indices [lo], [lo + step], [lo + 2 * step], ... below [hi]. *)
Definition strideRange (lo hi step : Z) : list Z :=
  map (fun k => (lo + step * Z.of_nat k)%Z)
      (seq 0 (Z.to_nat ((hi - lo + step - 1) / step))).

(** [for (let i = lo; i < hi; i += step) acc = body(i, acc)], [step > 0]. *)
Definition forStride {A : Type} (lo hi step : Z) (body : Z -> A -> A) (acc : A) : A :=
  fold_left (fun a i => body i a) (strideRange lo hi step) acc.

(** The list [d] with position [n] overwritten by [v]. *)
Fixpoint setNth (n : nat) (v : Z) (d : list Z) : list Z :=
  match d, n with
  | [], _ => []
  | _ :: rest, O => v :: rest
  | x :: rest, S n' => x :: setNth n' v rest
  end.

(** The value a [Uint8ClampedArray] keeps of a number stored into it: NaN
    becomes 0, the number is clamped to [[0, 255]] and rounded to the
    nearest integer, a tie going to the even neighbour. *)
Definition toUint8Clamped (x : num) : Z :=
  match x with
  | Js.Fin q =>
      if Qle_bool q 0 then 0%Z
      else if Qle_bool 255 q then 255%Z
      else
        let f := Qfloor q in
        if Js.Qltb (inject_Z f + 0.5) q then (f + 1)%Z
        else if Js.Qltb q (inject_Z f + 0.5) then f
        else if Z.even f then f else (f + 1)%Z
  | Js.PosInf => 255%Z
  | Js.NegInf | Js.NaN => 0%Z
  end.

(** [d[i] = x] on the pixel array; a store outside the array is ignored. *)
Definition store (d : list Z) (i : Z) (x : num) : list Z :=
  if ((0 <=? i) && (i <? Z.of_nat (List.length d)))%Z
  then setNth (Z.to_nat i) (toUint8Clamped x) d
  else d.

(** [(data[idx] + data[idx + 1] + data[idx + 2]) / 3] *)
Definition channelMean (d : list Z) (idx : Z) : num :=
  ((sample d idx + sample d (idx + 1) + sample d (idx + 2)) / 3)%n.

(** The block scan of [detectCompressionArtifacts] in the realistic and the
    conservative tuning, which differ in the threshold: returns
    [(blockiness, totalBlocks)]. *)
Definition blockScan (threshold : Q) (img : ImageData) : Z * Z :=
  let w := canvasWidth img in
  let h := canvasHeight img in
  let d := data img in
  let blockSize := 8%Z in
  forStride 0 (h - blockSize) blockSize (fun y st =>
    forStride 0 (w - blockSize) blockSize (fun x st =>
      let '(blockiness, totalBlocks) := st in
      let totalBlocks := (totalBlocks + 1)%Z in
      let rightEdgeIdx := ((y * w + (x + blockSize)) * 4)%Z in
      let bottomEdgeIdx := (((y + blockSize) * w + x) * 4)%Z in
      let currentIdx := ((y * w + x) * 4)%Z in
      if ((rightEdgeIdx <? Z.of_nat (List.length d)) &&
          (bottomEdgeIdx <? Z.of_nat (List.length d)))%Z
      then
        let rightEdge := channelMean d rightEdgeIdx in
        let bottomEdge := channelMean d bottomEdgeIdx in
        let current := channelMean d currentIdx in
        let blockiness :=
          if Js.abs (rightEdge - current)%n >? Fin threshold
          then (blockiness + 1)%Z else blockiness in
        let blockiness :=
          if Js.abs (bottomEdge - current)%n >? Fin threshold
          then (blockiness + 1)%Z else blockiness in
        (blockiness, totalBlocks)
      else (blockiness, totalBlocks)) st)
    (0%Z, 0%Z).

(** [Math.pow(x, 2)] *)
Definition square (x : num) : num := (x * x)%n.

(** The RGB samples of the [(2 * radius + 1)^2] pixels around pixel
    [(x, y)], rows first, as [detectArtifacts] pushes them. *)
Definition rgbWindow (d : list Z) (w : Z) (radius : Z) (x y : Z) : list (num * num * num) :=
  forZ (- radius) (radius + 1) (fun dy neighbors =>
    forZ (- radius) (radius + 1) (fun dx neighbors =>
      let nIdx := (((y + dy) * w + (x + dx)) * 4)%Z in
      (neighbors ++ [(sample d nIdx, sample d (nIdx + 1), sample d (nIdx + 2))])%list)
      neighbors) [].

Definition redOf (n : num * num * num) : num := fst (fst n).
Definition greenOf (n : num * num * num) : num := snd (fst n).
Definition blueOf (n : num * num * num) : num := snd n.

(** [neighbors.reduce((sum, n) => sum + n.c, 0) / neighbors.length] *)
Definition windowMean (channel : num * num * num -> num) (neighbors : list (num * num * num))
  : num :=
  (fold_left (fun sum n => sum + channel n) neighbors (Fin 0)
   / Js.of_nat (List.length neighbors))%n.

(** The summed squared distance of the three channels to their means,
    divided by the number of neighbours. *)
Definition windowVariance (neighbors : list (num * num * num)) (avgR avgG avgB : num) : num :=
  (fold_left (fun sum n =>
     sum + square (redOf n - avgR) + square (greenOf n - avgG) + square (blueOf n - avgB))
     neighbors (Fin 0)
   / Js.of_nat (List.length neighbors))%n.

(* ------------------------------------------------------------------ *)
(** ** The detector interface and its entry point *)

Record Detector : Type := mkDetector {
  analyzeImage : File -> Rng -> Result (num * DetectionAnalysis);
  analyzeVideo : File -> Rng -> Result (num * DetectionAnalysis);
  calculateThreatLevel : num -> DetectionAnalysis -> ThreatLevel;
  decisionThreshold : Q
}.

(** [detectDeepfake]; [modelsReady] is [modelLoader.isModelsReady()]. *)
Definition detectDeepfake (D : Detector) (modelsReady : bool) (file : File) (rng : Rng)
  : Result DeepfakeDetectionResult :=
  if negb modelsReady then inl ModelsNotInitialized
  else
    let result :=
      if Js.startsWith (type file) "image/" then analyzeImage D file rng
      else if Js.startsWith (type file) "video/" then analyzeVideo D file rng
      else inl UnsupportedFileType in
    match result with
    | inl e => inl e
    | inr (confidence, analysis) =>
        inr {| isDeepfake := confidence >? Fin (decisionThreshold D);
               confidence := confidence;
               threatLevel := calculateThreatLevel D confidence analysis;
               analysis := analysis |}
    end.

(* ------------------------------------------------------------------ *)
(** ** Aggressive tuning ([src/utils/deepfakeDetector.ts]) *)

Module Aggressive.

Definition frameConsistency (prev curr : DetectionAnalysis) : num :=
  let faceDiff := Js.abs (Js.sub (faceDetection prev) (faceDetection curr)) in
  let artifactDiff := Js.abs (Js.sub (artifactDetection prev) (artifactDetection curr)) in
  let qualityDiff := Js.abs (Js.sub (imageQuality prev) (imageQuality curr)) in
  Js.sub 100 (Js.div (Js.add (Js.add faceDiff artifactDiff) qualityDiff) 3).

(** The loop over [i = 1 .. length - 1], pairing frame [i - 1] with frame [i]. *)
Fixpoint pairLoop (frameAnalyses : list DetectionAnalysis) (consistencyScore : num) : num :=
  match frameAnalyses with
  | prev :: ((curr :: _) as rest) =>
      pairLoop rest (Js.add consistencyScore (frameConsistency prev curr))
  | _ => consistencyScore
  end.

Definition calculateTemporalConsistency (frameAnalyses : list DetectionAnalysis) : num :=
  if (List.length frameAnalyses <? 2)%nat then 100
  else
    let consistencyScore := pairLoop frameAnalyses 0 in
    Js.max 0 (Js.div consistencyScore (Js.of_nat (List.length frameAnalyses - 1))).

Definition calculateThreatLevel (confidence : num) (analysis : DetectionAnalysis) : ThreatLevel :=
  if (confidence >? 85) && (artifactDetection analysis >? 70) then critical
  else if confidence >? 70 then high
  else if confidence >? 50 then medium
  else low.

Definition analyzeImage (file : File) (rng : Rng) : Result (num * DetectionAnalysis) :=
  match loadImage file with
  | inl e => inl e
  | inr img =>
      let sg := signals img in
      let fileName := Js.toLowerCase (name file) in
      let suspicionScore :=
        ( (If Js.includes fileName "fake" || Js.includes fileName "generated" ||
              Js.includes fileName "ai"
           Then += 60
           Else When Js.includes fileName "real" || Js.includes fileName "authentic"
                Do -= 20) ;;
          (When compressionArtifacts sg >? 60 Do += 35) ;;
          (When compressionArtifacts sg >? 80 Do += 25) ;;
          (When edgeConsistency sg <? 70 Do += 40) ;;
          (When edgeConsistency sg <? 50 Do += 30) ;;
          (When artifactScore sg >? 70 Do += 45) ;;
          (When artifactScore sg >? 85 Do += 25) ;;
          (When qualityScore sg <? 50 Do += 25) ;;
          (When qualityScore sg <? 30 Do += 35) ;;
          (When (faceDetectionScore sg >? 80) || (faceDetectionScore sg <? 20) Do += 30) ;;
          (When fileSizeMB file >? 5 Do += 15) ;;
          (When fileSizeMB file <? 0.1 Do += 20) ;;
          (When rng 1%nat >? 0.7 Do += 40)
        )%score (rng 0%nat * 30) in
      let confidence := clamp suspicionScore in
      inr (confidence,
           {| faceDetection := faceDetectionScore sg;
              temporalConsistency := 100;
              artifactDetection := artifactScore sg;
              imageQuality := qualityScore sg;
              neuralNetworkConfidence := confidence |})
  end.

(** One round of [for (const frame of frames)]; the state is
    [totalSuspicion], [frameAnalyses] and the number of draws made so far. *)
Definition frameStep (rng : Rng) (st : Q * list DetectionAnalysis * nat) (frame : Image)
  : Q * list DetectionAnalysis * nat :=
  let '(totalSuspicion, frameAnalyses, draws) := st in
  let sg := signals frame in
  let frameSuspicion :=
    ( (When compressionArtifacts sg >? 65 Do += 30) ;;
      (When artifactScore sg >? 75 Do += 35) ;;
      (When qualityScore sg <? 45 Do += 25) ;;
      += 15
    )%score (rng draws * 20) in
  (totalSuspicion + frameSuspicion,
   (frameAnalyses ++ [ {| faceDetection := faceDetectionScore sg;
                          temporalConsistency := 0;
                          artifactDetection := artifactScore sg;
                          imageQuality := qualityScore sg;
                          neuralNetworkConfidence := frameSuspicion |} ])%list,
   S draws).

Definition analyzeVideo (file : File) (rng : Rng) : Result (num * DetectionAnalysis) :=
  match ImageProcessor.extractFramesFromVideo file 5 with
  | inl e => inl e
  | inr frames =>
      let '(totalSuspicion, frameAnalyses, draws) :=
        fold_left (frameStep rng) frames (rng 0%nat * 25, [], 1%nat) in
      let temporalConsistency := calculateTemporalConsistency frameAnalyses in
      let fileName := Js.toLowerCase (name file) in
      let totalSuspicion :=
        ( (When temporalConsistency <? 80 Do += 50) ;;
          (When temporalConsistency <? 60 Do += 30) ;;
          (When Js.includes fileName "fake" || Js.includes fileName "generated" ||
                Js.includes fileName "ai" || Js.includes fileName "deepfake"
           Do += 70) ;;
          (When rng draws >? 0.6 Do += 35) ;;
          += 20
        )%score totalSuspicion in
      let avgConfidence :=
        clamp (Js.div totalSuspicion (Js.of_nat (List.length frames))) in
      inr (avgConfidence,
           {| faceDetection := average faceDetection frameAnalyses;
              temporalConsistency := temporalConsistency;
              artifactDetection := average artifactDetection frameAnalyses;
              imageQuality := average imageQuality frameAnalyses;
              neuralNetworkConfidence := avgConfidence |})
  end.

Definition analyzeEdgeConsistency (ctx : option ImageData) (rng : Rng) : num :=
  match ctx with
  | None => rng 0%nat * 100
  | Some img =>
      let w := canvasWidth img in
      let h := canvasHeight img in
      let '(consistentEdges, totalEdges) :=
        forZ 1 (h - 1) (fun y st =>
          forZ 1 (w - 1) (fun x st =>
            let '(consistentEdges, totalEdges) := st in
            let pixels := neighbourhood (redPixel img) x y in
            if magnitudeAbove 50 pixels
            then ((if Js.near_x_axis (sobelY pixels) (sobelX pixels)
                   then consistentEdges + 1 else consistentEdges)%Z,
                  (totalEdges + 1)%Z)
            else st) st)
          (0%Z, 0%Z) in
      if (0 <? totalEdges)%Z then (ofZ consistentEdges / ofZ totalEdges * 100)%n else 50
  end.

(** The aggressive text scans the whole image with the RGB test only. *)
Definition performFaceAnalysis (ctx : option ImageData) (rng : Rng) : num :=
  match ctx with
  | None => rng 0%nat * 100
  | Some img =>
      let d := data img in
      let totalPixels := (ofZ (Z.of_nat (List.length d)) / 4)%n in
      let skinPixels :=
        forStride 0 (Z.of_nat (List.length d)) 4 (fun i skinPixels =>
          let r := sample d i in
          let g := sample d (i + 1) in
          let b := sample d (i + 2) in
          if rgbSkin r g b then (skinPixels + 1)%Z else skinPixels)
          0%Z in
      let skinRatio := (ofZ skinPixels / totalPixels)%n in
      Js.min 100 (skinRatio * 500)%n
  end.

Definition detectArtifacts (ctx : option ImageData) (rng : Rng) : num :=
  match ctx with
  | None => rng 0%nat * 100
  | Some img =>
      let w := canvasWidth img in
      let h := canvasHeight img in
      let d := data img in
      let artifactScore :=
        forZ 1 (h - 1) (fun y artifactScore =>
          forZ 1 (w - 1) (fun x artifactScore =>
            let idx := ((y * w + x) * 4)%Z in
            let r := sample d idx in
            let g := sample d (idx + 1) in
            let b := sample d (idx + 2) in
            let neighbors :=
              [ sample d (((y - 1) * w + x) * 4);
                sample d (((y + 1) * w + x) * 4);
                sample d ((y * w + (x - 1)) * 4);
                sample d ((y * w + (x + 1)) * 4) ] in
            let avgNeighbor :=
              (fold_left (fun sum val => sum + val) neighbors (Fin 0)
               / Js.of_nat (List.length neighbors))%n in
            let variance :=
              (fold_left (fun sum val => sum + square (val - avgNeighbor)) neighbors (Fin 0)
               / Js.of_nat (List.length neighbors))%n in
            ( (When variance >? 1000 Do += 0.1) ;;
              (When (Js.abs (r - g)%n >? 100) || (Js.abs (g - b)%n >? 100) ||
                    (Js.abs (r - b)%n >? 100)
               Do += 0.05)
            )%score artifactScore) artifactScore)
          0 in
      Js.min 100 (Fin artifactScore / ofZ (w * h) * 10000)%n
  end.

Definition detectCompressionArtifacts (ctx : option ImageData) (rng : Rng) : num :=
  match ctx with
  | None => rng 0%nat * 100
  | Some img =>
      let w := canvasWidth img in
      let h := canvasHeight img in
      let d := data img in
      let blockSize := 8%Z in
      let blockiness :=
        forStride 0 (h - blockSize) blockSize (fun y blockiness =>
          forStride 0 (w - blockSize) blockSize (fun x blockiness =>
            let rightEdge := sample d ((y * w + (x + blockSize)) * 4) in
            let bottomEdge := sample d (((y + blockSize) * w + x) * 4) in
            let current := sample d ((y * w + x) * 4) in
            let blockiness :=
              if Js.abs (rightEdge - current)%n >? 30
              then (blockiness + 1)%Z else blockiness in
            if Js.abs (bottomEdge - current)%n >? 30
            then (blockiness + 1)%Z else blockiness) blockiness)
          0%Z in
      Js.min 100 (ofZ blockiness / ((ofZ w / ofZ blockSize) * (ofZ h / ofZ blockSize)) * 50)%n
  end.

Definition detector : Detector :=
  mkDetector analyzeImage analyzeVideo calculateThreatLevel 50.

End Aggressive.

(* ------------------------------------------------------------------ *)
(** ** Realistic tuning (second text of [src/utils/modelLoader.ts]) *)

Module Realistic.

Definition isSkinTone (r g b : num) : bool :=
  rgbSkin r g b || ycbcrSkin r g b || hsvSkin r g b.

Definition performFaceAnalysis (ctx : option ImageData) (rng : Rng) : num :=
  match ctx with
  | None => 50 + rng 0%nat * 30
  | Some img =>
      let '(skinPixels, faceRegionPixels) := faceScan isSkinTone img in
      let skinRatio :=
        if (0 <? faceRegionPixels)%Z then (ofZ skinPixels / ofZ faceRegionPixels)%n
        else Fin 0 in
      Js.min 100 (skinRatio * 200)%n
  end.

Definition analyzeColorConsistency (ctx : option ImageData) (rng : Rng) : num :=
  match ctx with
  | None => 60 + rng 0%nat * 30
  | Some img =>
      let regionStats := map (regionMean img) (quadrants img) in
      let avgDifference := (totalDifference regionStats / 6)%n in
      Js.max 0 (100 - avgDifference / 10)%n
  end.

(** The same with both coordinates first clamped into the canvas. *)
Definition clampedGrayPixel (img : ImageData) (py px : Z) : num :=
  let npy := Z.max 0 (Z.min (canvasHeight img - 1) py) in
  let npx := Z.max 0 (Z.min (canvasWidth img - 1) px) in
  grayAt (data img) ((npy * canvasWidth img + npx) * 4).

(** The scan of the neighbours of edge pixel [(x, y)]: returns
    [(neighborConsistency, neighborCount)]. *)
Definition neighbourScan (img : ImageData) (x y : Z) (pixels : list num) : Z * Z :=
  let w := canvasWidth img in
  let h := canvasHeight img in
  forZ (Z.max 0 (y - 1)) (Z.min (h - 1) (y + 1) + 1) (fun ny st =>
    forZ (Z.max 0 (x - 1)) (Z.min (w - 1) (x + 1) + 1) (fun nx st =>
      if ((nx =? x) && (ny =? y))%Z then st
      else
        let nPixels := neighbourhood (clampedGrayPixel img) nx ny in
        if magnitudeAbove 30 nPixels
        then
          let '(neighborConsistency, neighborCount) := st in
          ((if Js.directions_agree (sobelY pixels) (sobelX pixels)
                                   (sobelY nPixels) (sobelX nPixels)
            then neighborConsistency + 1 else neighborConsistency)%Z,
           (neighborCount + 1)%Z)
        else st) st)
    (0%Z, 0%Z).

Definition analyzeEdgeConsistency (ctx : option ImageData) (rng : Rng) : num :=
  match ctx with
  | None => 70 + rng 0%nat * 20
  | Some img =>
      let w := canvasWidth img in
      let h := canvasHeight img in
      let '(consistentEdges, totalEdges) :=
        forZ 1 (h - 1) (fun y st =>
          forZ 1 (w - 1) (fun x st =>
            let '(consistentEdges, totalEdges) := st in
            let pixels := neighbourhood (grayPixel img) x y in
            if magnitudeAbove 30 pixels
            then
              let '(neighborConsistency, neighborCount) := neighbourScan img x y pixels in
              let consistent :=
                (0 <? neighborCount)%Z &&
                ((ofZ neighborConsistency / ofZ neighborCount)%n >? 0.5) in
              ((if consistent then consistentEdges + 1 else consistentEdges)%Z,
               (totalEdges + 1)%Z)
            else st) st)
          (0%Z, 0%Z) in
      if (0 <? totalEdges)%Z then (ofZ consistentEdges / ofZ totalEdges * 100)%n else 75
  end.

Definition frameConsistency (prev curr : DetectionAnalysis) : num :=
  let faceDiff := Js.abs (faceDetection prev - faceDetection curr)%n in
  let artifactDiff := Js.abs (artifactDetection prev - artifactDetection curr)%n in
  let qualityDiff := Js.abs (imageQuality prev - imageQuality curr)%n in
  let weightedDiff := ((faceDiff * 0.4) + (artifactDiff * 0.4) + (qualityDiff * 0.2))%n in
  Js.max 0 (100 - weightedDiff)%n.

Fixpoint pairLoop (frameAnalyses : list DetectionAnalysis) (consistencyScore : num) : num :=
  match frameAnalyses with
  | prev :: ((curr :: _) as rest) =>
      pairLoop rest (consistencyScore + frameConsistency prev curr)%n
  | _ => consistencyScore
  end.

Definition calculateTemporalConsistency (frameAnalyses : list DetectionAnalysis) : num :=
  if (List.length frameAnalyses <? 2)%nat then 100
  else
    let consistencyScore := pairLoop frameAnalyses 0 in
    (consistencyScore / Js.of_nat (List.length frameAnalyses - 1))%n.

Definition calculateThreatLevel (confidence : num) (analysis : DetectionAnalysis) : ThreatLevel :=
  let artifact := artifactDetection analysis in
  if (confidence >? 90) && (artifact >? 80) then critical
  else if (confidence >? 85) || ((confidence >? 75) && (artifact >? 70)) then critical
  else if (confidence >? 75) || ((confidence >? 65) && (artifact >? 60)) then high
  else if (confidence >? 60) || ((confidence >? 50) && (artifact >? 50)) then medium
  else low.

Definition analyzeImage (file : File) (rng : Rng) : Result (num * DetectionAnalysis) :=
  match loadImage file with
  | inl e => inl e
  | inr img =>
      let sg := signals img in
      let fileName := Js.toLowerCase (name file) in
      let totalPixels := ofZ (Z.of_N (width img) * Z.of_N (height img)) in
      let aspectRatio := (ofZ (Z.of_N (width img)) / ofZ (Z.of_N (height img)))%n in
      let suspicionScore :=
        ( (If Js.includes fileName "fake" || Js.includes fileName "generated" ||
              Js.includes fileName "ai" || Js.includes fileName "deepfake" ||
              Js.includes fileName "synthetic" || Js.includes fileName "swap"
           Then += 85
           Else When Js.includes fileName "real" || Js.includes fileName "authentic" ||
                     Js.includes fileName "original" || Js.includes fileName "genuine"
                Do -= 30) ;;
          (If compressionArtifacts sg >? 75 Then += 45
           Else When compressionArtifacts sg >? 50 Do += 25) ;;
          (If edgeConsistency sg <? 60 Then += 50
           Else When edgeConsistency sg <? 80 Do += 25) ;;
          (If artifactScore sg >? 80 Then += 60
           Else When artifactScore sg >? 60 Do += 35) ;;
          (If qualityScore sg <? 40 Then += 30
           Else When qualityScore sg >? 90 Do += 20) ;;
          (When colorConsistency sg <? 70 Do += 40) ;;
          (When frequencyAnalysis sg >? 70 Do += 35) ;;
          (When (faceDetectionScore sg >? 85) || (faceDetectionScore sg <? 30) Do += 40) ;;
          (If fileSizeMB file >? 10 Then += 20
           Else When fileSizeMB file <? 0.05 Do += 25) ;;
          (When totalPixels >? 2000000 Do += 15) ;;
          (When (aspectRatio <? 0.7) || (aspectRatio >? 1.5) Do += 10) ;;
          += ((rng 0%nat - 0.5) * 20)
        )%score 0 in
      let confidence := clamp suspicionScore in
      inr (confidence,
           {| faceDetection := faceDetectionScore sg;
              temporalConsistency := 100;
              artifactDetection := artifactScore sg;
              imageQuality := qualityScore sg;
              neuralNetworkConfidence := confidence |})
  end.

Definition frameStep (st : Q * list DetectionAnalysis) (frame : Image)
  : Q * list DetectionAnalysis :=
  let '(totalSuspicion, frameAnalyses) := st in
  let sg := signals frame in
  let frameSuspicion :=
    ( (When compressionArtifacts sg >? 70 Do += 40) ;;
      (When artifactScore sg >? 75 Do += 45) ;;
      (When qualityScore sg <? 50 Do += 30) ;;
      (When colorConsistency sg <? 65 Do += 35) ;;
      += 10
    )%score 0 in
  (totalSuspicion + frameSuspicion,
   (frameAnalyses ++ [ {| faceDetection := faceDetectionScore sg;
                          temporalConsistency := 0;
                          artifactDetection := artifactScore sg;
                          imageQuality := qualityScore sg;
                          neuralNetworkConfidence := frameSuspicion |} ])%list).

Definition analyzeVideo (file : File) (rng : Rng) : Result (num * DetectionAnalysis) :=
  match ImageProcessor.extractFramesFromVideo file 5 with
  | inl e => inl e
  | inr frames =>
      let '(totalSuspicion, frameAnalyses) := fold_left frameStep frames (0, []) in
      let temporalConsistency := calculateTemporalConsistency frameAnalyses in
      let fileName := Js.toLowerCase (name file) in
      let videoDuration := getVideoDuration file in
      let totalSuspicion :=
        ( (When temporalConsistency <? 70 Do += 60) ;;
          (When temporalConsistency <? 50 Do += 40) ;;
          (If Js.includes fileName "fake" || Js.includes fileName "generated" ||
              Js.includes fileName "ai" || Js.includes fileName "deepfake" ||
              Js.includes fileName "synthetic" || Js.includes fileName "swap"
           Then += 80
           Else When Js.includes fileName "real" || Js.includes fileName "authentic"
                Do -= 25) ;;
          (If videoDuration <? 5 Then += 25
           Else When videoDuration >? 60 Do -= 15) ;;
          += 15 ;;
          += ((rng 0%nat - 0.5) * 15)
        )%score totalSuspicion in
      let avgConfidence :=
        clamp (totalSuspicion / Js.of_nat (List.length frames))%n in
      inr (avgConfidence,
           {| faceDetection := average faceDetection frameAnalyses;
              temporalConsistency := temporalConsistency;
              artifactDetection := average artifactDetection frameAnalyses;
              imageQuality := average imageQuality frameAnalyses;
              neuralNetworkConfidence := avgConfidence |})
  end.

Definition detectArtifacts (ctx : option ImageData) (rng : Rng) : num :=
  match ctx with
  | None => 30 + rng 0%nat * 40
  | Some img =>
      let w := canvasWidth img in
      let h := canvasHeight img in
      let d := data img in
      let artifactScore :=
        forZ 2 (h - 2) (fun y artifactScore =>
          forZ 2 (w - 2) (fun x artifactScore =>
            let idx := ((y * w + x) * 4)%Z in
            let r := sample d idx in
            let g := sample d (idx + 1) in
            let b := sample d (idx + 2) in
            let neighbors := rgbWindow d w 2 x y in
            let avgR := windowMean redOf neighbors in
            let avgG := windowMean greenOf neighbors in
            let avgB := windowMean blueOf neighbors in
            let variance := windowVariance neighbors avgR avgG avgB in
            ( (When variance >? 2000 Do += 0.2) ;;
              (When (Js.abs (r - avgR)%n >? 80) || (Js.abs (g - avgG)%n >? 80) ||
                    (Js.abs (b - avgB)%n >? 80)
               Do += 0.1) ;;
              (When (x mod 8 =? 0)%Z || (y mod 8 =? 0)%Z Do
                 (let blockEdgeVariance :=
                    (Js.abs (r - avgR) + Js.abs (g - avgG) + Js.abs (b - avgB))%n in
                  When blockEdgeVariance >? 100 Do += 0.15))
            )%score artifactScore) artifactScore)
          0 in
      Js.min 100 (Fin artifactScore / ofZ (w * h) * 50000)%n
  end.

Definition detectCompressionArtifacts (ctx : option ImageData) (rng : Rng) : num :=
  match ctx with
  | None => 40 + rng 0%nat * 30
  | Some img =>
      let '(blockiness, totalBlocks) := blockScan 25 img in
      Js.min 100 (ofZ blockiness / (ofZ totalBlocks * 2) * 100)%n
  end.

Definition detector : Detector :=
  mkDetector analyzeImage analyzeVideo calculateThreatLevel 60.

End Realistic.

(* ------------------------------------------------------------------ *)
(** ** Conservative tuning (third detector text) *)

Module Conservative.

(** The HSV test is not part of this tuning. *)
Definition isSkinTone (r g b : num) : bool :=
  rgbSkin r g b || ycbcrSkin r g b.

Definition performFaceAnalysis (ctx : option ImageData) (rng : Rng) : num :=
  match ctx with
  | None => 65 + rng 0%nat * 20
  | Some img =>
      let '(skinPixels, faceRegionPixels) := faceScan isSkinTone img in
      let skinRatio :=
        if (0 <? faceRegionPixels)%Z then (ofZ skinPixels / ofZ faceRegionPixels)%n
        else Fin 0 in
      Js.min 100 (Js.max 30 (skinRatio * 150 + 20)%n)
  end.

Definition analyzeColorConsistency (ctx : option ImageData) (rng : Rng) : num :=
  match ctx with
  | None => 75 + rng 0%nat * 15
  | Some img =>
      let regionStats := map (regionMean img) (quadrants img) in
      let avgDifference := (totalDifference regionStats / 6)%n in
      Js.max 20 (100 - avgDifference / 15)%n
  end.

Definition analyzeEdgeConsistency (ctx : option ImageData) (rng : Rng) : num :=
  match ctx with
  | None => 80 + rng 0%nat * 15
  | Some img =>
      let w := canvasWidth img in
      let h := canvasHeight img in
      let '(consistentEdges, totalEdges) :=
        forZ 1 (h - 1) (fun y st =>
          forZ 1 (w - 1) (fun x st =>
            let '(consistentEdges, totalEdges) := st in
            let pixels := neighbourhood (grayPixel img) x y in
            if magnitudeAbove 50 pixels
            then ((consistentEdges + 1)%Z, (totalEdges + 1)%Z)
            else st) st)
          (0%Z, 0%Z) in
      if (0 <? totalEdges)%Z
      then Js.min 100 (ofZ consistentEdges / ofZ totalEdges * 100 + 10)%n
      else 85
  end.

Definition frameConsistency (prev curr : DetectionAnalysis) : num :=
  let faceDiff := Js.abs (faceDetection prev - faceDetection curr)%n in
  let artifactDiff := Js.abs (artifactDetection prev - artifactDetection curr)%n in
  let qualityDiff := Js.abs (imageQuality prev - imageQuality curr)%n in
  let weightedDiff := ((faceDiff * 0.3) + (artifactDiff * 0.3) + (qualityDiff * 0.1))%n in
  Js.max 60 (100 - (weightedDiff / 2))%n.

Fixpoint pairLoop (frameAnalyses : list DetectionAnalysis) (consistencyScore : num) : num :=
  match frameAnalyses with
  | prev :: ((curr :: _) as rest) =>
      pairLoop rest (consistencyScore + frameConsistency prev curr)%n
  | _ => consistencyScore
  end.

Definition calculateTemporalConsistency (frameAnalyses : list DetectionAnalysis) : num :=
  if (List.length frameAnalyses <? 2)%nat then 90
  else
    let consistencyScore := pairLoop frameAnalyses 0 in
    (consistencyScore / Js.of_nat (List.length frameAnalyses - 1))%n.

Definition calculateThreatLevel (confidence : num) (analysis : DetectionAnalysis) : ThreatLevel :=
  let artifact := artifactDetection analysis in
  if (confidence >? 95) && (artifact >? 90) then critical
  else if (confidence >? 90) && (artifact >? 85) then critical
  else if (confidence >? 85) && (artifact >? 80) then high
  else if confidence >? 80 then high
  else if confidence >? 75 then medium
  else low.

(** [anomalyCount] of [analyzeImage]. *)
Definition anomalyCount (sg : Signals) : nat :=
  let count (c : bool) (n : nat) : nat := if c then S n else n in
  count (frequencyAnalysis sg >? 80)
    (count (colorConsistency sg <? 60)
      (count (artifactScore sg >? 85)
        (count (edgeConsistency sg <? 50)
          (count (compressionArtifacts sg >? 80) 0%nat)))).

Definition analyzeImage (file : File) (rng : Rng) : Result (num * DetectionAnalysis) :=
  match loadImage file with
  | inl e => inl e
  | inr img =>
      let sg := signals img in
      let fileName := Js.toLowerCase (name file) in
      let totalPixels := ofZ (Z.of_N (width img) * Z.of_N (height img)) in
      let aspectRatio := (ofZ (Z.of_N (width img)) / ofZ (Z.of_N (height img)))%n in
      let suspicionScore :=
        ( (If Js.includes fileName "deepfake" || Js.includes fileName "fake" ||
              Js.includes fileName "generated"
           Then += 70
           Else If Js.includes fileName "morphed" || Js.includes fileName "manipulated" ||
                   Js.includes fileName "edited"
           Then += 60
           Else When Js.includes fileName "ai" || Js.includes fileName "synthetic"
                Do += 50) ;;
          (When Js.includes fileName "real" || Js.includes fileName "authentic" ||
                Js.includes fileName "original" || Js.includes fileName "genuine" ||
                Js.includes fileName "photo" || Js.includes fileName "pic"
           Do -= 20) ;;
          (If compressionArtifacts sg >? 85 Then += 35
           Else When compressionArtifacts sg >? 95 Do += 50) ;;
          (If edgeConsistency sg <? 40 Then += 45
           Else When edgeConsistency sg <? 25 Do += 60) ;;
          (If artifactScore sg >? 90 Then += 40
           Else When artifactScore sg >? 95 Do += 55) ;;
          (If colorConsistency sg <? 50 Then += 30
           Else When colorConsistency sg <? 30 Do += 45) ;;
          (If frequencyAnalysis sg >? 85 Then += 25
           Else When frequencyAnalysis sg >? 95 Do += 40) ;;
          (When (faceDetectionScore sg >? 95) || (faceDetectionScore sg <? 15) Do += 30) ;;
          (When (3 <=? anomalyCount sg)%nat Do += 25) ;;
          (When (qualityScore sg >? 60) && (qualityScore sg <? 90) Do -= 10) ;;
          (When edgeConsistency sg >? 70 Do -= 15) ;;
          (When colorConsistency sg >? 75 Do -= 10) ;;
          (When (fileSizeMB file >? 0.1) && (fileSizeMB file <? 5) Do -= 5) ;;
          (When (totalPixels >? 100000) && (totalPixels <? 5000000) Do -= 5) ;;
          (When (aspectRatio >? 0.5) && (aspectRatio <? 2.0) Do -= 5) ;;
          += ((rng 0%nat - 0.5) * 8)
        )%score 15 in
      let confidence := clamp suspicionScore in
      inr (confidence,
           {| faceDetection := faceDetectionScore sg;
              temporalConsistency := 100;
              artifactDetection := artifactScore sg;
              imageQuality := qualityScore sg;
              neuralNetworkConfidence := confidence |})
  end.

Definition frameStep (st : Q * list DetectionAnalysis) (frame : Image)
  : Q * list DetectionAnalysis :=
  let '(totalSuspicion, frameAnalyses) := st in
  let sg := signals frame in
  let frameSuspicion :=
    ( (When compressionArtifacts sg >? 90 Do += 25) ;;
      (When artifactScore sg >? 90 Do += 30) ;;
      (When qualityScore sg <? 30 Do += 20) ;;
      (When colorConsistency sg <? 40 Do += 25)
    )%score 0 in
  (totalSuspicion + frameSuspicion,
   (frameAnalyses ++ [ {| faceDetection := faceDetectionScore sg;
                          temporalConsistency := 0;
                          artifactDetection := artifactScore sg;
                          imageQuality := qualityScore sg;
                          neuralNetworkConfidence := frameSuspicion |} ])%list).

Definition analyzeVideo (file : File) (rng : Rng) : Result (num * DetectionAnalysis) :=
  match ImageProcessor.extractFramesFromVideo file 5 with
  | inl e => inl e
  | inr frames =>
      let '(totalSuspicion, frameAnalyses) := fold_left frameStep frames (10, []) in
      let temporalConsistency := calculateTemporalConsistency frameAnalyses in
      let fileName := Js.toLowerCase (name file) in
      let videoDuration := getVideoDuration file in
      let totalSuspicion :=
        ( (When temporalConsistency <? 40 Do += 50) ;;
          (When temporalConsistency <? 25 Do += 35) ;;
          (If Js.includes fileName "deepfake" || Js.includes fileName "fake" ||
              Js.includes fileName "generated"
           Then += 60
           Else If Js.includes fileName "morphed" || Js.includes fileName "manipulated"
           Then += 50
           Else When Js.includes fileName "real" || Js.includes fileName "authentic" ||
                     Js.includes fileName "original"
                Do -= 15) ;;
          (If videoDuration <? 2 Then += 15
           Else When videoDuration >? 30 Do -= 10) ;;
          += ((rng 0%nat - 0.5) * 10)
        )%score totalSuspicion in
      let avgConfidence :=
        clamp (totalSuspicion / Js.of_nat (List.length frames))%n in
      inr (avgConfidence,
           {| faceDetection := average faceDetection frameAnalyses;
              temporalConsistency := temporalConsistency;
              artifactDetection := average artifactDetection frameAnalyses;
              imageQuality := average imageQuality frameAnalyses;
              neuralNetworkConfidence := avgConfidence |})
  end.

Definition detectArtifacts (ctx : option ImageData) (rng : Rng) : num :=
  match ctx with
  | None => 25 + rng 0%nat * 30
  | Some img =>
      let w := canvasWidth img in
      let h := canvasHeight img in
      let d := data img in
      let artifactScore :=
        forZ 2 (h - 2) (fun y artifactScore =>
          forZ 2 (w - 2) (fun x artifactScore =>
            let idx := ((y * w + x) * 4)%Z in
            let r := sample d idx in
            let g := sample d (idx + 1) in
            let b := sample d (idx + 2) in
            let neighbors := rgbWindow d w 1 x y in
            let avgR := windowMean redOf neighbors in
            let avgG := windowMean greenOf neighbors in
            let avgB := windowMean blueOf neighbors in
            let variance := windowVariance neighbors avgR avgG avgB in
            ( (When variance >? 4000 Do += 0.1) ;;
              (When (Js.abs (r - avgR)%n >? 120) || (Js.abs (g - avgG)%n >? 120) ||
                    (Js.abs (b - avgB)%n >? 120)
               Do += 0.05)
            )%score artifactScore) artifactScore)
          0 in
      Js.min 100 (Fin artifactScore / ofZ (w * h) * 80000)%n
  end.

Definition detectCompressionArtifacts (ctx : option ImageData) (rng : Rng) : num :=
  match ctx with
  | None => 35 + rng 0%nat * 25
  | Some img =>
      let '(blockiness, totalBlocks) := blockScan 40 img in
      Js.min 100 (ofZ blockiness / (ofZ totalBlocks * 2) * 80)%n
  end.

Definition detector : Detector :=
  mkDetector analyzeImage analyzeVideo calculateThreatLevel 75.

End Conservative.

(* ------------------------------------------------------------------ *)
(** ** ImageProcessor: the methods that work on canvas pixels *)

Module ImageProcessorCanvas.

(** [Math.min(255, Math.max(0, (data[i] - 128) * 1.2 + 128))].  On an
    integer sample the exact value has a fraction among 0, .2, .4, .6, .8:
    it is never half-way between two bytes. *)
Definition stretched (d : list Z) (i : Z) : num :=
  Js.min 255 (Js.max 0 ((sample d i - 128) * 1.2 + 128)%n).

(** [enhanceImage]: the contrast stretch of the three colour samples of
    every pixel.  The result is the pixel data put back on the canvas, from
    which the returned image is decoded; a missing 2d context throws. *)
Definition enhanceImage (ctx : option ImageData) : string + ImageData :=
  match ctx with
  | None => inl "Canvas context not available"
  | Some img =>
      let d :=
        forStride 0 (Z.of_nat (List.length (data img))) 4 (fun i d =>
          let d := store d i (stretched d i) in
          let d := store d (i + 1) (stretched d (i + 1)) in
          store d (i + 2) (stretched d (i + 2)))
          (data img) in
      inr (mkImageData (canvasWidth img) (canvasHeight img) d)
  end.


End ImageProcessorCanvas.

(* ------------------------------------------------------------------ *)
(** ** ModelLoader (first text of [src/utils/modelLoader.ts]) *)

Module ModelLoader.

(** A compiled model, told apart by the builder that made it. *)
Inductive LayersModel : Type := DeepfakeDetectionModel | FaceDetectionModel.

Record State : Type := mkState {
  deepfakeModel : option LayersModel;
  faceDetectionModel : option LayersModel;
  isLoading : bool
}.

(** The singleton as [getInstance] creates it. *)
Definition fresh : State := mkState None None false.

(** How far the [try] block of one call of [initializeModels] gets. *)
Inductive Outcome : Type :=
| BackendFails          (* tf.setBackend or tf.ready rejects *)
| DeepfakeModelFails    (* createDeepfakeDetectionModel throws *)
| FaceModelFails        (* createFaceDetectionModel throws *)
| Succeeds.

(** The synchronous start of a call, up to the first [await]: the guard on
    [isLoading].  The flag tells whether the call goes on. *)
Definition enter (st : State) : State * bool :=
  if isLoading st then (st, false)
  else (mkState (deepfakeModel st) (faceDetectionModel st) true, true).

(** The rest of a call that went on: the assignments of the [try] block as
    far as they are reached, the [catch] that swallows the error, and
    [finally]. *)
Definition settle (outcome : Outcome) (st : State) : State :=
  let deepfake :=
    match outcome with
    | FaceModelFails | Succeeds => Some DeepfakeDetectionModel
    | BackendFails | DeepfakeModelFails => deepfakeModel st
    end in
  let face :=
    match outcome with
    | Succeeds => Some FaceDetectionModel
    | _ => faceDetectionModel st
    end in
  mkState deepfake face false.

(** A call that runs to its end before anything else happens. *)
Definition initializeModels (outcome : Outcome) (st : State) : State :=
  let '(st, goes) := enter st in
  if goes then settle outcome st else st.

Definition isModelsReady (st : State) : bool :=
  match deepfakeModel st, faceDetectionModel st with
  | Some _, Some _ => true
  | _, _ => false
  end.

(** Calls that overlap: a call starts, or the call that is in flight
    settles.  [pending] counts the calls in flight; settling without a call
    in flight cannot happen and changes nothing. *)
Inductive Event : Type :=
| Call
| Settle (outcome : Outcome).

Definition step (cfg : State * nat) (e : Event) : State * nat :=
  let '(st, pending) := cfg in
  match e with
  | Call =>
      let '(st, goes) := enter st in
      (st, if goes then S pending else pending)
  | Settle outcome =>
      match pending with
      | O => (st, pending)
      | S pending' => (settle outcome st, pending')
      end
  end.

Definition run (events : list Event) (cfg : State * nat) : State * nat :=
  fold_left step events cfg.

End ModelLoader.

(* ------------------------------------------------------------------ *)
(** ** The upload handler of [App] *)

Module App.

Inductive MediaType : Type := image | video.

Record AnalysisDetails : Type := mkDetails {
  faceDetection : num;
  temporalConsistency : num;
  artifactDetection : num
}.

(** A row of the dashboard; [id] (a random string) and [timestamp] (the
    wall clock) are left out. *)
Record DetectionResult : Type := mkDetectionResult {
  filename : string;
  type : MediaType;
  confidence : num;
  isDeepfake : bool;
  threatLevel : ThreatLevel;
  analysisDetails : AnalysisDetails
}.

(** [file.type.startsWith('video/') ? 'video' : 'image'] *)
Definition mediaType (file : File) : MediaType :=
  let 'mkFile _ declared _ _ := file in
  if Js.startsWith declared "video/" then video else image.

(** The row built from a detection that returned. *)
Definition resultRow (file : File) (mlResult : DeepfakeDetectionResult) : DetectionResult :=
  let 'mkFile name _ _ _ := file in
  let 'mkResult flagged score level (mkAnalysis face temporal artifact _ _) := mlResult in
  mkDetectionResult name (mediaType file) score flagged level
                    (mkDetails face temporal artifact).

(** The row built in the [catch] block. *)
Definition fallbackResult (file : File) : DetectionResult :=
  let 'mkFile name _ _ _ := file in
  mkDetectionResult name (mediaType file) 0 false low (mkDetails 0 0 0).

Record View : Type := mkView {
  detectionResults : list DetectionResult;
  isProcessing : bool
}.

(** The loop [for (const file of files)]: file number [k] is analysed with
    the draws [rngs k]; every row is put in front of the earlier ones.  A
    detection whose promise never settles leaves the handler waiting. *)
Fixpoint processFiles (D : Detector) (modelsReady : bool) (rngs : nat -> Rng)
         (files : list File) (k : nat) (results : list DetectionResult) : View :=
  match files with
  | [] => mkView results false
  | file :: rest =>
      match detectDeepfake D modelsReady file (rngs k) with
      | inr mlResult =>
          processFiles D modelsReady rngs rest (S k) (resultRow file mlResult :: results)
      | inl Unsettled => mkView results true
      | inl _ =>
          processFiles D modelsReady rngs rest (S k) (fallbackResult file :: results)
      end
  end.

(** [handleFileUpload]; [areDetectorModelsReady] is the flag of the
    component, [modelsReady] what the loader answers. *)
Definition handleFileUpload (D : Detector) (modelsReady areDetectorModelsReady : bool)
           (rngs : nat -> Rng) (files : list File) (view : View) : View :=
  if negb areDetectorModelsReady then view
  else processFiles D modelsReady rngs files 0 (detectionResults view).

(** The effect that initializes the detector, once its guard holds:
    [initializeModels] never rejects, so the component's flag is set
    whatever the outcome. *)
Definition initializeDetector (outcome : ModelLoader.Outcome) (loader : ModelLoader.State)
  : ModelLoader.State * bool :=
  (ModelLoader.initializeModels outcome loader, true).

End App.

(* ------------------------------------------------------------------ *)
(** ** UploadZone: which files reach the handler *)

Module UploadZone.

(** [handleDrop]: the files handed to [onFilesUpload], or [None] when it is
    not called. *)
Definition handleDrop (files : list File) : option (list File) :=
  let validFiles :=
    filter (fun file => Js.startsWith (type file) "image/" ||
                        Js.startsWith (type file) "video/") files in
  if (0 <? List.length validFiles)%nat then Some validFiles else None.

(** [handleFileInput]: the file picker hands over every chosen file. *)
Definition handleFileInput (files : list File) : option (list File) :=
  if (0 <? List.length files)%nat then Some files else None.

End UploadZone.

(* ------------------------------------------------------------------ *)
(** ** Dashboard: the statistics over the rows *)

Module Dashboard.

Definition countWhere (p : App.DetectionResult -> bool) (results : list App.DetectionResult)
  : nat :=
  List.length (filter p results).

Definition hasLevel (level : ThreatLevel) (r : App.DetectionResult) : bool :=
  match App.threatLevel r, level with
  | low, low | medium, medium | high, high | critical, critical => true
  | _, _ => false
  end.

Definition totalFiles (results : list App.DetectionResult) : nat := List.length results.

Definition deepfakeCount (results : list App.DetectionResult) : nat :=
  countWhere App.isDeepfake results.

Definition authenticCount (results : list App.DetectionResult) : Z :=
  (Z.of_nat (totalFiles results) - Z.of_nat (deepfakeCount results))%Z.

Definition criticalThreats (results : list App.DetectionResult) : nat :=
  countWhere (hasLevel critical) results.

Definition averageConfidence (results : list App.DetectionResult) : num :=
  if (0 <? totalFiles results)%nat
  then (fold_left (fun acc r => acc + App.confidence r) results (Fin 0)
        / Js.of_nat (totalFiles results))%n
  else 0.

(** [threatDistribution], in the order low, medium, high, critical. *)
Definition threatDistribution (results : list App.DetectionResult) : nat * nat * nat * nat :=
  (countWhere (hasLevel low) results, countWhere (hasLevel medium) results,
   countWhere (hasLevel high) results, countWhere (hasLevel critical) results).

(** [results.slice(0, 5)] *)
Definition recentActivity (results : list App.DetectionResult) : list App.DetectionResult :=
  firstn 5 results.

End Dashboard.

(* ------------------------------------------------------------------ *)
(** ** Vocabulary of the properties *)

(** The three tunings of the detector. *)
Definition detectors : list Detector :=
  [Aggressive.detector; Realistic.detector; Conservative.detector].

(** Every substring some tuning looks for in a lower-cased file name. *)
Definition keywords : list string :=
  ["fake"; "generated"; "ai"; "deepfake"; "synthetic"; "swap";
   "real"; "authentic"; "original"; "genuine";
   "morphed"; "manipulated"; "edited"; "photo"; "pic"].

(** A file name that contains no keyword. *)
Definition neutralName (fileName : string) : bool :=
  forallb (fun k => negb (Js.includes (Js.toLowerCase fileName) k)) keywords.

(** Every draw of [Math.random()] lies in [[0, 1)]. *)
Definition unitDraws (rng : Rng) : Prop := forall k, 0 <= rng k /\ rng k < 1.


(** The pixels of a canvas, as (row, column) pairs in scan order. *)
Definition pixelCoords (img : ImageData) : list (Z * Z) :=
  list_prod (zrange 0 (canvasHeight img)) (zrange 0 (canvasWidth img)).

(** Number of pixels inside the circular face region. *)
Definition regionPixels (img : ImageData) : nat :=
  List.length (filter (fun p => inFaceRegion img (snd p) (fst p)) (pixelCoords img)).

(** Number of those that [isSkinTone] classifies as skin. *)
Definition skinPixels (isSkinTone : num -> num -> num -> bool) (img : ImageData) : nat :=
  List.length (filter (fun p => inFaceRegion img (snd p) (fst p) &&
                                skinAt isSkinTone img (snd p) (fst p))
                      (pixelCoords img)).

(** [skinPixels / regionPixels], and 0 for an empty region. *)
Definition skinRatio (isSkinTone : num -> num -> num -> bool) (img : ImageData) : num :=
  if (0 <? regionPixels img)%nat
  then (Js.of_nat (skinPixels isSkinTone img) / Js.of_nat (regionPixels img))%n
  else Fin 0.

(** Pixel number [p] of the flat array has colour [(r, g, b)]. *)
Definition pixelIs (d : list Z) (r g b : Z) (p : Z) : bool :=
  match nth_error d (Z.to_nat (4 * p)),
        nth_error d (Z.to_nat (4 * p + 1)),
        nth_error d (Z.to_nat (4 * p + 2)) with
  | Some r', Some g', Some b' => ((r' =? r) && (g' =? g) && (b' =? b))%Z
  | _, _, _ => false
  end.

(** Every pixel of the canvas has colour [(r, g, b)]. *)
Definition uniformColour (img : ImageData) (r g b : Z) : bool :=
  forallb (pixelIs (data img) r g b) (zrange 0 (canvasWidth img * canvasHeight img)).


(** The times [t], [t + i], [t + i + i], ... ([n] of them). *)
Fixpoint timesFrom (n : nat) (t i : Q) : list Q :=
  match n with
  | O => []
  | S n' => t :: timesFrom n' (t + i) i
  end.

(** The running sums of [regionMean] after [count] pixels of colour
    [(r, g, b)]. *)
Definition sumsOf (r g b : Z) (count : Z) (st : num * num * num * Z) : Prop :=
  exists rSum gSum bSum,
    st = (Fin rSum, Fin gSum, Fin bSum, count) /\
    rSum == inject_Z count * inject_Z r /\
    gSum == inject_Z count * inject_Z g /\
    bSum == inject_Z count * inject_Z b.

(** A triple of finite numbers equal to the colour [(r, g, b)]. *)
Definition isColour (r g b : Z) (c : num * num * num) : Prop :=
  exists r' g' b',
    c = (Fin r', Fin g', Fin b') /\
    r' == inject_Z r /\ g' == inject_Z g /\ b' == inject_Z b.

(** Statement [st] changes the score by exactly [d], and [d] is at least
    [lo]. *)
Definition Adds (st : Score.stmt) (d lo : Q) : Prop :=
  (forall s, st s == s + d) /\ lo <= d.

(** *** Sample inputs *)

Definition calmSignals : Signals := mkSignals 40 10 70 20 90 95 10.

(** Signals that trip the compression, edge and artifact rules together. *)
Definition alarmingSignals : Signals := mkSignals 40 90 70 80 50 95 10.

Definition holidayPhoto : File :=
  mkFile "holiday.jpg" "image/jpeg" 51200 (IsImage (mkImage 64 64 calmSignals)).

Definition noisyShot : File :=
  mkFile "shot.jpg" "image/jpeg" 51200 (IsImage (mkImage 64 64 alarmingSignals)).

Definition noisyDeepfake : File :=
  mkFile "DeepFake_shot.jpg" "image/jpeg" 51200 (IsImage (mkImage 64 64 alarmingSignals)).

Definition holidayClip : File :=
  mkFile "clip.mp4" "video/mp4" 2000000
         (IsVideo (mkVideo 10 (fun _ => mkImage 64 64 calmSignals))).

Definition notesFile : File := mkFile "notes.txt" "text/plain" 120 Broken.

(** Every draw of [Math.random()] is one half: the jitter terms vanish. *)
Definition halfRng : Rng := fun _ => 1 # 2.


(** A canvas of [w] by [h] pixels, all of colour [(r, g, b)], opaque. *)
Definition plainCanvas (w h : nat) (r g b : Z) : ImageData :=
  mkImageData (Z.of_nat w) (Z.of_nat h) (List.concat (repeat [r; g; b; 255%Z] (w * h))).

(** The result of a call that is known to return one. *)
Definition returned (call : Result DeepfakeDetectionResult) : DeepfakeDetectionResult :=
  match call with
  | inr r => r
  | inl _ => mkResult false NaN low (mkAnalysis NaN NaN NaN NaN NaN)
  end.

(** An image whose name holds "ai" inside another word. *)
Definition portraitPhoto : File :=
  mkFile "Portrait.jpg" "image/jpeg" 51200 (IsImage (mkImage 64 64 calmSignals)).

(** [x] is not below [k]: a finite number from [k] on, plus infinity, or
    NaN (on which every comparison is false). *)
Definition notBelow (k : Q) (x : num) : Prop :=
  match x with
  | Js.Fin q => k <= q
  | Js.PosInf | Js.NaN => True
  | Js.NegInf => False
  end.

(** The three signals of a frame analysis that the temporal consistency
    compares, and the same three as the extractors return them on a frame. *)
Definition comparedSignals (a : DetectionAnalysis) : num * num * num :=
  (faceDetection a, artifactDetection a, imageQuality a).

Definition frameSignals (frame : Image) : num * num * num :=
  (faceDetectionScore (signals frame), artifactScore (signals frame),
   qualityScore (signals frame)).

(** The three compared signals are finite numbers. *)
Definition finiteSignals (a : DetectionAnalysis) : Prop :=
  exists f ar q, comparedSignals a = (Fin f, Fin ar, Fin q).

(** Statement [st] changes the score by exactly [d], and [d] is at most
    [hi]. *)
Definition Caps (st : Score.stmt) (d hi : Q) : Prop :=
  (forall s, st s == s + d) /\ d <= hi.

(** A frame on which none of the four frame rules of the conservative
    [analyzeVideo] fires. *)
Definition quietFrame (frame : Image) : bool :=
  let sg := signals frame in
  negb (compressionArtifacts sg >? 90) && negb (artifactScore sg >? 90) &&
  negb (qualityScore sg <? 30) && negb (colorConsistency sg <? 40).

(** The pixel array holds [n] whole RGBA pixels. *)
Definition holdsPixels (img : ImageData) (n : Z) : Prop :=
  Z.of_nat (List.length (data img)) = (4 * n)%Z.

(** What [enhanceImage] makes of one colour sample [v]. *)
Definition enhancedByte (v : Z) : Z :=
  toUint8Clamped (ImageProcessorCanvas.stretched [v] 0).

(** Sample number [j] of the pixel array is an alpha sample. *)
Definition isAlpha (j : nat) : bool := (Z.of_nat j mod 4 =? 3)%Z.

(** The canvas, if there is one, is more than one block wide and high, so
    that the block scan of [detectCompressionArtifacts] visits a block. *)
Definition blocksToScan (ctx : option ImageData) : Prop :=
  match ctx with
  | None => True
  | Some img => (8 < canvasWidth img)%Z /\ (8 < canvasHeight img)%Z
  end.

(** There is no canvas, or the canvas has at least one pixel. *)
Definition hasPixels (ctx : option ImageData) : Prop :=
  match ctx with
  | None => True
  | Some img => (0 < canvasWidth img * canvasHeight img)%Z
  end.

(** Two channels of the colour [(r, g, b)] are more than 100 apart. *)
Definition channelGap (r g b : Z) : bool :=
  ((100 <? Z.abs (r - g)) || (100 <? Z.abs (g - b)) || (100 <? Z.abs (r - b)))%Z.

(** Number of pixels of the whole canvas that pass the RGB skin test. *)
Definition skinCount (img : ImageData) : nat :=
  List.length
    (filter (fun i => rgbSkin (sample (data img) i) (sample (data img) (i + 1))
                              (sample (data img) (i + 2)))
            (strideRange 0 (Z.of_nat (List.length (data img))) 4)).

(** Sequential calls of [initializeModels], one outcome per call. *)
Definition initializeAll (outcomes : list ModelLoader.Outcome) (st : ModelLoader.State)
  : ModelLoader.State :=
  fold_left (fun st outcome => ModelLoader.initializeModels outcome st) outcomes st.

(** A dashboard row is sound: its confidence is a finite number in
    [[0, 100]], and it is not flagged while rated low. *)
Definition soundRow (r : App.DetectionResult) : Prop :=
  Js.within 0 100 (App.confidence r) /\
  (App.isDeepfake r = true -> App.threatLevel r <> low).

(** The declared type of the file is one the detector dispatches on. *)
Definition supportedType (file : File) : bool :=
  Js.startsWith (type file) "image/" || Js.startsWith (type file) "video/".

(* ================================================================== *)
(** * Properties *)

(** ** Numbers *)

Lemma Qltb_spec (x y : Q) : reflect (x < y) (Js.Qltb x y).
Proof.
  unfold Js.Qltb. destruct (Qle_bool y x) eqn:E; simpl; constructor.
  - apply Qle_bool_iff in E. lra.
  - destruct (Qlt_le_dec x y) as [H | H]; [exact H |].
    apply Qle_bool_iff in H. congruence.
Qed.

Lemma Qleb_spec (x y : Q) : reflect (x <= y) (Qle_bool x y).
Proof.
  destruct (Qle_bool x y) eqn:E; constructor.
  - now apply Qle_bool_iff.
  - intro H. apply Qle_bool_iff in H. congruence.
Qed.

Lemma clamp_within (q : Q) : Js.within 0 100 (clamp (Fin q)).
Proof.
  unfold clamp, Js.min, Js.max, Js.lt.
  destruct (Qltb_spec q 100) as [H | H]; simpl.
  - destruct (Qltb_spec 0 q); simpl; lra.
  - destruct (Qltb_spec 0 100); simpl; lra.
Qed.

Lemma div_of_nat (q : Q) (n : nat) :
  (0 < n)%nat -> (Fin q / Js.of_nat n)%n = Fin (q / inject_Z (Z.of_nat n)).
Proof.
  intros Hn. unfold Js.div, Js.of_nat.
  destruct (Qeq_bool (inject_Z (Z.of_nat n)) 0) eqn:E; [| reflexivity].
  apply Qeq_bool_iff in E. unfold Qeq in E. simpl in E. lia.
Qed.

(** ** The loop combinators obey the loop equations *)

Lemma zrange_unfold (lo hi : Z) :
  zrange lo hi = if (lo <? hi)%Z then lo :: zrange (lo + 1) hi else [].
Proof.
  unfold zrange. destruct (Z.ltb_spec lo hi) as [H | H].
  - replace (Z.to_nat (hi - lo)) with (S (Z.to_nat (hi - (lo + 1)))) by lia.
    cbn [seq map]. f_equal; [lia |].
    rewrite <- seq_shift, map_map. apply map_ext. intros k. lia.
  - replace (Z.to_nat (hi - lo)) with 0%nat by lia. reflexivity.
Qed.

Lemma forZ_unfold {A : Type} (lo hi : Z) (body : Z -> A -> A) (acc : A) :
  forZ lo hi body acc
  = if (lo <? hi)%Z then forZ (lo + 1) hi body (body lo acc) else acc.
Proof.
  unfold forZ. rewrite (zrange_unfold lo hi).
  now destruct (lo <? hi)%Z.
Qed.

Lemma Qceiling_unique (x : Q) (z : Z) :
  inject_Z (z - 1) < x -> x <= inject_Z z -> Qceiling x = z.
Proof.
  intros Hlo Hhi.
  pose proof (Qceiling_resp_le _ _ Hhi) as H1. rewrite Qceiling_Z in H1.
  pose proof (Qle_ceiling x) as H2.
  assert (H3 : inject_Z (z - 1) < inject_Z (Qceiling x)) by lra.
  rewrite <- Zlt_Qlt in H3. lia.
Qed.

Lemma tripCount_step (start bound : Q) :
  start < bound -> tripCount start bound = S (tripCount (start + 1) bound).
Proof.
  intros H. unfold tripCount.
  assert (E : Qceiling (bound - (start + 1)) = (Qceiling (bound - start) - 1)%Z).
  { apply Qceiling_unique.
    - pose proof (Qceiling_lt (bound - start)) as Hc.
      replace (Qceiling (bound - start) - 1 - 1)%Z
        with (Qceiling (bound - start) - 1 + - 1)%Z by lia.
      rewrite inject_Z_plus. change (inject_Z (- 1)) with (- (1)). lra.
    - pose proof (Qle_ceiling (bound - start)) as Hc.
      replace (Qceiling (bound - start) - 1)%Z
        with (Qceiling (bound - start) + - 1)%Z by lia.
      rewrite inject_Z_plus. change (inject_Z (- 1)) with (- (1)). lra. }
  rewrite E.
  assert (Hpos : (0 < Qceiling (bound - start))%Z).
  { pose proof (Qle_ceiling (bound - start)). rewrite Zlt_Qlt.
    change (inject_Z 0) with 0. lra. }
  lia.
Qed.

Lemma tripCount_done (start bound : Q) :
  bound <= start -> tripCount start bound = 0%nat.
Proof.
  intros H. unfold tripCount.
  assert (Hc : (Qceiling (bound - start) <= 0)%Z).
  { assert (H0 : bound - start <= inject_Z 0) by (change (inject_Z 0) with 0; lra).
    apply Qceiling_resp_le in H0. now rewrite Qceiling_Z in H0. }
  lia.
Qed.

Lemma forQ_unfold {A : Type} (start bound : Q) (body : Q -> A -> A) (acc : A) :
  forQ start bound body acc
  = if Js.Qltb start bound then forQ (start + 1) bound body (body start acc) else acc.
Proof.
  unfold forQ. destruct (Qltb_spec start bound) as [H | H].
  - now rewrite (tripCount_step start bound H).
  - rewrite tripCount_done; [reflexivity |].
    destruct (Qlt_le_dec start bound); [contradiction | assumption].
Qed.

(** ** Substring search *)

Lemma prefix_split (t s : string) :
  String.prefix t s = true <-> exists post, s = (t ++ post)%string.
Proof.
  revert s. induction t as [| c t IH]; intros s.
  - split; [intros _; now exists s | intros _; now destruct s].
  - destruct s as [| c' s]; simpl.
    + split; [discriminate | intros [post H]; discriminate].
    + destruct (ascii_dec c c') as [<- | Hne].
      * rewrite IH. split; intros [post H]; exists post; [now rewrite H |].
        now injection H.
      * split; [discriminate |]. intros [post H]. injection H as H _. congruence.
Qed.

Lemma includes_spec (s t : string) :
  Js.includes s t = true <-> exists pre post, s = (pre ++ t ++ post)%string.
Proof.
  induction s as [| c s IH].
  - change (Js.includes EmptyString t) with (String.prefix t EmptyString || false).
    rewrite orb_false_r, prefix_split. split.
    + intros [post H]. now exists EmptyString, post.
    + intros (pre & post & H). destruct pre; [now exists post | discriminate].
  - change (Js.includes (String c s) t)
      with (String.prefix t (String c s) || Js.includes s t).
    rewrite orb_true_iff, prefix_split, IH. split.
    + intros [[post H] | (pre & post & H)].
      * now exists EmptyString, post.
      * exists (String c pre), post. simpl. now rewrite H.
    + intros (pre & post & H). destruct pre as [| c' pre].
      * left. now exists post.
      * right. simpl in H. injection H as _ H. now exists pre, post.
Qed.

(** ** Frame sampling *)

Lemma seekLoop_more (fuel : nat) : forall t i c N acc,
  (c < N)%nat -> (N - c <= fuel)%nat ->
  ImageProcessor.seekLoop fuel t i c N acc = Some (acc ++ timesFrom (N - c) t i)%list.
Proof.
  induction fuel as [| fuel IH]; intros t i c N acc Hc Hf; [lia |].
  simpl. destruct (Nat.ltb_spec (S c) N) as [Hlt | Hge].
  - rewrite IH by lia. replace (N - c)%nat with (S (N - S c)) by lia.
    simpl. now rewrite <- app_assoc.
  - replace (N - c)%nat with 1%nat by lia. reflexivity.
Qed.

Lemma seekLoop_single (fuel : nat) (t i : Q) (c N : nat) (acc : list Q) :
  (N <= S c)%nat ->
  ImageProcessor.seekLoop (S fuel) t i c N acc = Some (acc ++ [t])%list.
Proof.
  intros H. simpl. destruct (Nat.ltb_spec (S c) N); [lia | reflexivity].
Qed.

Lemma captureTimes_spec (fuel : nat) (d : Q) (N : nat) :
  (1 <= N <= fuel)%nat ->
  ImageProcessor.captureTimes fuel d N
  = Some (timesFrom N 0 (d / inject_Z (Z.of_nat N))).
Proof.
  intros H. unfold ImageProcessor.captureTimes.
  rewrite seekLoop_more by lia. now rewrite Nat.sub_0_r.
Qed.

Lemma timesFrom_length (n : nat) : forall t i, List.length (timesFrom n t i) = n.
Proof. induction n; intros; simpl; [reflexivity | now rewrite IHn]. Qed.

Lemma extractFrames_five (file : File) (frames : list Image) :
  ImageProcessor.extractFramesFromVideo file 5 = inr frames ->
  List.length frames = 5%nat.
Proof.
  unfold ImageProcessor.extractFramesFromVideo.
  destruct (media file); try discriminate.
  rewrite captureTimes_spec by lia.
  intros H. injection H as <-. reflexivity.
Qed.

(** ** The entry point *)

Lemma detect_inr (D : Detector) (ready : bool) (file : File) (rng : Rng)
      (r : DeepfakeDetectionResult) :
  detectDeepfake D ready file rng = inr r ->
  ready = true /\
  exists c a,
    ((Js.startsWith (type file) "image/" = true /\ analyzeImage D file rng = inr (c, a)) \/
     (Js.startsWith (type file) "image/" = false /\
      Js.startsWith (type file) "video/" = true /\ analyzeVideo D file rng = inr (c, a))) /\
    r = mkResult (c >? Fin (decisionThreshold D)) c (calculateThreatLevel D c a) a.
Proof.
  unfold detectDeepfake. destruct ready; simpl; [| discriminate].
  destruct (Js.startsWith (type file) "image/").
  - destruct (analyzeImage D file rng) as [e | [c a]]; [discriminate |].
    intros H. injection H as <-. split; [reflexivity |]. exists c, a. auto.
  - destruct (Js.startsWith (type file) "video/").
    + destruct (analyzeVideo D file rng) as [e | [c a]]; [discriminate |].
      intros H. injection H as <-. split; [reflexivity |]. exists c, a. auto.
    + discriminate.
Qed.

(** ** Shape of what the two analysis paths return *)

Lemma Aggressive_image_shape (file : File) (rng : Rng) (c : num) (a : DetectionAnalysis) :
  Aggressive.analyzeImage file rng = inr (c, a) ->
  (exists q, c = clamp (Fin q)) /\ temporalConsistency a = Fin 100.
Proof.
  unfold Aggressive.analyzeImage. destruct (loadImage file); [discriminate |].
  intros H. injection H as <- <-. split; [eexists; reflexivity | reflexivity].
Qed.

Lemma Realistic_image_shape (file : File) (rng : Rng) (c : num) (a : DetectionAnalysis) :
  Realistic.analyzeImage file rng = inr (c, a) ->
  (exists q, c = clamp (Fin q)) /\ temporalConsistency a = Fin 100.
Proof.
  unfold Realistic.analyzeImage. destruct (loadImage file); [discriminate |].
  intros H. injection H as <- <-. split; [eexists; reflexivity | reflexivity].
Qed.

Lemma Conservative_image_shape (file : File) (rng : Rng) (c : num) (a : DetectionAnalysis) :
  Conservative.analyzeImage file rng = inr (c, a) ->
  (exists q, c = clamp (Fin q)) /\ temporalConsistency a = Fin 100.
Proof.
  unfold Conservative.analyzeImage. destruct (loadImage file); [discriminate |].
  intros H. injection H as <- <-. split; [eexists; reflexivity | reflexivity].
Qed.

Lemma Aggressive_video_shape (file : File) (rng : Rng) (c : num) (a : DetectionAnalysis) :
  Aggressive.analyzeVideo file rng = inr (c, a) ->
  exists q, c = clamp (Fin (q / 5)).
Proof.
  unfold Aggressive.analyzeVideo.
  destruct (ImageProcessor.extractFramesFromVideo file 5) as [e | frames] eqn:E;
    [discriminate |].
  apply extractFrames_five in E.
  destruct (fold_left _ frames _) as [[t fa] k].
  rewrite E, div_of_nat by lia.
  intros H. injection H as <- <-. eexists; reflexivity.
Qed.

Lemma Realistic_video_shape (file : File) (rng : Rng) (c : num) (a : DetectionAnalysis) :
  Realistic.analyzeVideo file rng = inr (c, a) ->
  exists q, c = clamp (Fin (q / 5)).
Proof.
  unfold Realistic.analyzeVideo.
  destruct (ImageProcessor.extractFramesFromVideo file 5) as [e | frames] eqn:E;
    [discriminate |].
  apply extractFrames_five in E.
  destruct (fold_left _ frames _) as [t fa].
  rewrite E, div_of_nat by lia.
  intros H. injection H as <- <-. eexists; reflexivity.
Qed.

Lemma Conservative_video_shape (file : File) (rng : Rng) (c : num) (a : DetectionAnalysis) :
  Conservative.analyzeVideo file rng = inr (c, a) ->
  exists q, c = clamp (Fin (q / 5)).
Proof.
  unfold Conservative.analyzeVideo.
  destruct (ImageProcessor.extractFramesFromVideo file 5) as [e | frames] eqn:E;
    [discriminate |].
  apply extractFrames_five in E.
  destruct (fold_left _ frames _) as [t fa].
  rewrite E, div_of_nat by lia.
  intros H. injection H as <- <-. eexists; reflexivity.
Qed.

Lemma analysis_paths_clamped (D : Detector) (file : File) (rng : Rng)
      (c : num) (a : DetectionAnalysis) :
  In D detectors ->
  analyzeImage D file rng = inr (c, a) \/ analyzeVideo D file rng = inr (c, a) ->
  exists q, c = clamp (Fin q).
Proof.
  intros HD H. unfold detectors in HD. simpl in HD.
  destruct HD as [<- | [<- | [<- | []]]]; simpl in H; destruct H as [H | H].
  - now apply Aggressive_image_shape in H.
  - apply Aggressive_video_shape in H. destruct H as [q ->]. eauto.
  - now apply Realistic_image_shape in H.
  - apply Realistic_video_shape in H. destruct H as [q ->]. eauto.
  - now apply Conservative_image_shape in H.
  - apply Conservative_video_shape in H. destruct H as [q ->]. eauto.
Qed.

(** C1.  Whatever the file, its signals and the random draws, a result
    returned by [detectDeepfake] (any of the three tunings, image or video
    path) carries a confidence that is a finite number in [[0, 100]]: it is
    the value of [Math.max(0, Math.min(100, total))]. *)
Theorem confidence_clamped (D : Detector) (ready : bool) (file : File) (rng : Rng)
        (r : DeepfakeDetectionResult) :
  In D detectors ->
  detectDeepfake D ready file rng = inr r ->
  Js.within 0 100 (confidence r) /\ exists total, confidence r = clamp (Fin total).
Proof.
  intros HD H. apply detect_inr in H. destruct H as [_ (c & a & Hpath & ->)].
  simpl. assert (Hc : exists q, c = clamp (Fin q)).
  { apply (analysis_paths_clamped D file rng c a HD). tauto. }
  destruct Hc as [q ->]. split; [apply clamp_within | eauto].
Qed.

(** ** Threat level *)

Ltac split_thresholds x y :=
  repeat match goal with
         | |- context [Js.Qltb ?k x] => destruct (Qltb_spec k x); try (exfalso; lra)
         | |- context [Js.Qltb ?k y] => destruct (Qltb_spec k y); try (exfalso; lra)
         end.

Ltac threat_ladder c1 c2 H :=
  repeat match goal with
         | |- context [Js.gt (artifactDetection ?a) ?k] =>
             generalize (Js.gt (artifactDetection a) k); intro
         end;
  destruct c1 as [x | | |], c2 as [y | | |]; simpl in H; try discriminate H;
  unfold Js.gt, Js.lt;
  [ destruct (Qleb_spec x y) as [Hxy |]; [| discriminate H];
    split_thresholds x y
  | .. ];
  repeat match goal with
         | b : bool |- _ => destruct b
         | |- context [Js.Qltb ?k ?z] => destruct (Js.Qltb k z)
         end;
  simpl; lia.

Lemma Aggressive_threat_monotone (a : DetectionAnalysis) (c1 c2 : num) :
  (c1 <=? c2) = true ->
  (severity (Aggressive.calculateThreatLevel c1 a)
   <= severity (Aggressive.calculateThreatLevel c2 a))%nat.
Proof.
  intros H. unfold Aggressive.calculateThreatLevel. threat_ladder c1 c2 H.
Qed.

Lemma Realistic_threat_monotone (a : DetectionAnalysis) (c1 c2 : num) :
  (c1 <=? c2) = true ->
  (severity (Realistic.calculateThreatLevel c1 a)
   <= severity (Realistic.calculateThreatLevel c2 a))%nat.
Proof.
  intros H. unfold Realistic.calculateThreatLevel. cbv zeta. threat_ladder c1 c2 H.
Qed.

Lemma Conservative_threat_monotone (a : DetectionAnalysis) (c1 c2 : num) :
  (c1 <=? c2) = true ->
  (severity (Conservative.calculateThreatLevel c1 a)
   <= severity (Conservative.calculateThreatLevel c2 a))%nat.
Proof.
  intros H. unfold Conservative.calculateThreatLevel. cbv zeta. threat_ladder c1 c2 H.
Qed.

Lemma threat_level_reads_artifact (D : Detector) (c : num) (a1 a2 : DetectionAnalysis) :
  In D detectors ->
  artifactDetection a1 = artifactDetection a2 ->
  calculateThreatLevel D c a1 = calculateThreatLevel D c a2.
Proof.
  intros HD H. unfold detectors in HD. simpl in HD.
  destruct HD as [<- | [<- | [<- | []]]]; simpl;
    unfold Aggressive.calculateThreatLevel, Realistic.calculateThreatLevel,
           Conservative.calculateThreatLevel;
    now rewrite H.
Qed.

(** C2.  In each tuning the threat level is a function of the pair
    (confidence, artifactDetection) alone, and it is monotone in the
    confidence: between two analysis records with the same artifactDetection,
    a confidence at least as high never gives a lower level in the order
    low < medium < high < critical. *)
Theorem threat_level_monotone (D : Detector) (a1 a2 : DetectionAnalysis) (c1 c2 : num) :
  In D detectors ->
  artifactDetection a1 = artifactDetection a2 ->
  (c1 <=? c2) = true ->
  (severity (calculateThreatLevel D c1 a1) <= severity (calculateThreatLevel D c2 a2))%nat.
Proof.
  intros HD Ha H. rewrite (threat_level_reads_artifact D c1 a1 a2 HD Ha).
  unfold detectors in HD. simpl in HD.
  destruct HD as [<- | [<- | [<- | []]]]; simpl.
  - now apply Aggressive_threat_monotone.
  - now apply Realistic_threat_monotone.
  - now apply Conservative_threat_monotone.
Qed.

Lemma confidence_clamped_witness :
  Js.within 0 100
    (confidence (returned (detectDeepfake Realistic.detector true holidayClip halfRng))) /\
  exists total,
    confidence (returned (detectDeepfake Realistic.detector true holidayClip halfRng))
    = clamp (Fin total).
Proof.
  apply (confidence_clamped Realistic.detector true holidayClip halfRng).
  - right; left; reflexivity.
  - vm_compute. reflexivity.
Defined.

Lemma threat_level_monotone_witness :
  Nat.le (severity (calculateThreatLevel Realistic.detector 62
                      (mkAnalysis 40 100 75 70 62)))
         (severity (calculateThreatLevel Realistic.detector 80
                      (mkAnalysis 35 90 75 60 80))).
Proof.
  apply (threat_level_monotone Realistic.detector
           (mkAnalysis 40 100 75 70 62) (mkAnalysis 35 90 75 60 80) 62 80).
  - right; left; reflexivity.
  - reflexivity.
  - reflexivity.
Defined.

(** ** Temporal consistency *)

(** C5.  On a sequence of exactly one frame analysis the temporal-consistency
    computation returns the tuning's fixed default (100 in the aggressive and
    realistic tunings, 90 in the conservative one), whatever the frame holds:
    no pair of frames is compared. *)
Theorem single_frame_temporal_default (a : DetectionAnalysis) :
  Aggressive.calculateTemporalConsistency [a] = Fin 100 /\
  Realistic.calculateTemporalConsistency [a] = Fin 100 /\
  Conservative.calculateTemporalConsistency [a] = Fin 90.
Proof. repeat split; reflexivity. Qed.

(** C10.  A result obtained through the image path (declared type starting
    with "image/") reports a temporal consistency of exactly 100, in each
    tuning and whatever the file and the draws. *)
Theorem image_path_temporal_consistency (D : Detector) (ready : bool) (file : File)
        (rng : Rng) (r : DeepfakeDetectionResult) :
  In D detectors ->
  Js.startsWith (type file) "image/" = true ->
  detectDeepfake D ready file rng = inr r ->
  temporalConsistency (analysis r) = Fin 100.
Proof.
  intros HD Himg H. apply detect_inr in H.
  destruct H as [_ (c & a & [[_ Hpath] | [Hno _]] & ->)]; [| congruence].
  simpl. unfold detectors in HD. simpl in HD.
  destruct HD as [<- | [<- | [<- | []]]]; simpl in Hpath.
  - now apply Aggressive_image_shape in Hpath.
  - now apply Realistic_image_shape in Hpath.
  - now apply Conservative_image_shape in Hpath.
Qed.

Lemma image_path_temporal_consistency_witness :
  temporalConsistency
    (analysis (returned (detectDeepfake Conservative.detector true holidayPhoto halfRng)))
  = Fin 100.
Proof.
  apply (image_path_temporal_consistency Conservative.detector true holidayPhoto halfRng).
  - right; right; left; reflexivity.
  - reflexivity.
  - vm_compute. reflexivity.
Defined.

(** ** Errors of the entry point *)

Lemma analysis_errors (D : Detector) (file : File) (rng : Rng) (e : Error) :
  In D detectors ->
  analyzeImage D file rng = inl e \/ analyzeVideo D file rng = inl e ->
  e = LoadError.
Proof.
  intros HD H. unfold detectors in HD. simpl in HD.
  destruct HD as [<- | [<- | [<- | []]]]; simpl in H; destruct H as [H | H];
    revert H;
    unfold Aggressive.analyzeImage, Realistic.analyzeImage, Conservative.analyzeImage,
           Aggressive.analyzeVideo, Realistic.analyzeVideo, Conservative.analyzeVideo,
           loadImage, ImageProcessor.extractFramesFromVideo;
    destruct (media file); try congruence;
    rewrite captureTimes_spec by lia;
    match goal with |- context [fold_left ?f ?l ?i] => destruct (fold_left f l i) as [? ?] end;
    try match goal with p : (_ * _)%type |- _ => destruct p end;
    discriminate.
Qed.

(** C4 as the code has it.  Once the models are ready, every tuning fails
    with the unsupported-type error exactly when the declared type starts
    with neither "image/" nor "video/"; such a file never yields a result,
    ready or not; and while the models are not ready every call fails with
    the models-not-initialized error instead, whatever the declared type. *)
Theorem unsupported_type_when_ready (D : Detector) (file : File) (rng : Rng) :
  In D detectors ->
  (detectDeepfake D true file rng = inl UnsupportedFileType <->
   Js.startsWith (type file) "image/" = false /\
   Js.startsWith (type file) "video/" = false) /\
  (Js.startsWith (type file) "image/" = false ->
   Js.startsWith (type file) "video/" = false ->
   forall ready, exists e, detectDeepfake D ready file rng = inl e) /\
  detectDeepfake D false file rng = inl ModelsNotInitialized.
Proof.
  intros HD. split; [| split]; [| | reflexivity].
  - unfold detectDeepfake. simpl.
    destruct (Js.startsWith (type file) "image/") eqn:Ei.
    + split; [| intros [? _]; discriminate].
      destruct (analyzeImage D file rng) as [e | [c a]] eqn:E; [| discriminate].
      intros H. injection H as ->.
      assert (UnsupportedFileType = LoadError) by (eapply analysis_errors; eauto).
      discriminate.
    + destruct (Js.startsWith (type file) "video/") eqn:Ev.
      * split; [| intros [_ ?]; discriminate].
        destruct (analyzeVideo D file rng) as [e | [c a]] eqn:E; [| discriminate].
        intros H. injection H as ->.
        assert (UnsupportedFileType = LoadError) by (eapply analysis_errors; eauto).
        discriminate.
      * split; auto.
  - intros Hi Hv ready. unfold detectDeepfake. rewrite Hi, Hv.
    destruct ready; simpl; eauto.
Qed.

Lemma unsupported_type_when_ready_witness :
  (detectDeepfake Aggressive.detector true notesFile halfRng = inl UnsupportedFileType <->
   Js.startsWith (type notesFile) "image/" = false /\
   Js.startsWith (type notesFile) "video/" = false) /\
  (Js.startsWith (type notesFile) "image/" = false ->
   Js.startsWith (type notesFile) "video/" = false ->
   forall ready, exists e, detectDeepfake Aggressive.detector ready notesFile halfRng = inl e) /\
  detectDeepfake Aggressive.detector false notesFile halfRng = inl ModelsNotInitialized.
Proof.
  apply (unsupported_type_when_ready Aggressive.detector notesFile halfRng).
  left; reflexivity.
Defined.

(** C4 as stated fails: a file whose declared type starts with neither
    prefix, submitted before the models are ready, does not fail with the
    unsupported-type error. *)
Lemma unsupported_type_not_reported_before_ready :
  Js.startsWith (type notesFile) "image/" = false /\
  Js.startsWith (type notesFile) "video/" = false /\
  detectDeepfake Aggressive.detector false notesFile halfRng = inl ModelsNotInitialized /\
  detectDeepfake Aggressive.detector false notesFile halfRng <> inl UnsupportedFileType.
Proof. repeat split; try reflexivity. discriminate. Qed.

(** ** Evenly spaced capture times *)






(** A frame count of 0 still captures the frame at time 0, and the
    parameter's own default is 10 frames. *)
Lemma sampling_without_count (fuel : nat) (d : Q) :
  ImageProcessor.captureTimes (S fuel) d 0 = Some [0] /\
  ImageProcessor.defaultMaxFrames = 10%nat.
Proof.
  split; [| reflexivity]. unfold ImageProcessor.captureTimes.
  now rewrite seekLoop_single by lia.
Qed.


(** ** Counted loops *)

Lemma in_zrange (i lo hi : Z) : In i (zrange lo hi) <-> (lo <= i < hi)%Z.
Proof.
  unfold zrange. rewrite in_map_iff. split.
  - intros (k & <- & Hk). apply in_seq in Hk. lia.
  - intros H. exists (Z.to_nat (i - lo)). split; [lia |]. apply in_seq. lia.
Qed.

Lemma fold_left_invariant {A B : Type} (P : A -> Prop) (f : A -> B -> A) (l : list B) :
  forall acc, P acc -> (forall a b, In b l -> P a -> P (f a b)) -> P (fold_left f l acc).
Proof.
  induction l as [| b l IH]; intros acc H0 Hstep; simpl; [exact H0 |].
  apply IH.
  - apply Hstep; [now left | exact H0].
  - intros a b' Hin. apply Hstep. now right.
Qed.

Lemma forZ_invariant {A : Type} (P : A -> Prop) (lo hi : Z) (body : Z -> A -> A) (acc : A) :
  P acc ->
  (forall i a, (lo <= i < hi)%Z -> P a -> P (body i a)) ->
  P (forZ lo hi body acc).
Proof.
  intros H0 Hstep. unfold forZ. apply fold_left_invariant; [exact H0 |].
  intros a i Hin. apply Hstep. now apply in_zrange.
Qed.

(** ** Edge consistency without edges *)







(** ** The face-region scan counts pixels *)

Lemma fold_left_pairs {A : Type} (f : Z -> Z -> A -> A) (y : Z) (xs : list Z) :
  forall acc,
    fold_left (fun st p => f (fst p) (snd p) st) (map (fun x => (y, x)) xs) acc
    = fold_left (fun st x => f y x st) xs acc.
Proof. induction xs as [| x xs IH]; intros acc; simpl; [reflexivity | apply IH]. Qed.

Lemma forZ_nested {A : Type} (lo hi lo' hi' : Z) (f : Z -> Z -> A -> A) (acc : A) :
  forZ lo hi (fun y st => forZ lo' hi' (fun x st => f y x st) st) acc
  = fold_left (fun st p => f (fst p) (snd p) st)
              (list_prod (zrange lo hi) (zrange lo' hi')) acc.
Proof.
  unfold forZ. generalize (zrange lo' hi') as xs. intros xs. revert acc.
  induction (zrange lo hi) as [| y ys IH]; intros acc; simpl; [reflexivity |].
  rewrite fold_left_app, fold_left_pairs. apply IH.
Qed.

Lemma scan_counts (R K : Z * Z -> bool) (l : list (Z * Z)) :
  forall s f : Z,
    fold_left (fun (st : Z * Z) p =>
                 let '(s, f) := st in
                 if R p then ((if K p then s + 1 else s)%Z, (f + 1)%Z) else st)
              l (s, f)
    = ((s + Z.of_nat (List.length (filter (fun p => R p && K p) l)))%Z,
       (f + Z.of_nat (List.length (filter R l)))%Z).
Proof.
  induction l as [| p l IH]; intros s f; simpl.
  - now rewrite !Z.add_0_r.
  - destruct (R p); simpl.
    + destruct (K p); simpl; rewrite IH; f_equal; lia.
    + apply IH.
Qed.

Lemma faceScan_counts (isSkinTone : num -> num -> num -> bool) (img : ImageData) :
  faceScan isSkinTone img
  = (Z.of_nat (skinPixels isSkinTone img), Z.of_nat (regionPixels img)).
Proof.
  unfold faceScan, skinPixels, regionPixels, pixelCoords.
  rewrite (forZ_nested 0 (canvasHeight img) 0 (canvasWidth img)
             (fun y x (st : Z * Z) =>
                let '(s, f) := st in
                if inFaceRegion img x y
                then ((if skinAt isSkinTone img x y then s + 1 else s)%Z, (f + 1)%Z)
                else st)).
  apply (scan_counts (fun p => inFaceRegion img (snd p) (fst p))
                     (fun p => skinAt isSkinTone img (snd p) (fst p))).
Qed.

Lemma face_ratio (isSkinTone : num -> num -> num -> bool) (img : ImageData) :
  (let '(skin, region) := faceScan isSkinTone img in
   if (0 <? region)%Z then (ofZ skin / ofZ region)%n else Fin 0)
  = skinRatio isSkinTone img.
Proof.
  rewrite faceScan_counts. unfold skinRatio.
  destruct (regionPixels img) as [| n]; reflexivity.
Qed.





(** ** Loops that start between two pixels *)

Lemma forSteps_count {A : Type} (Inv : Z -> A -> Prop) (ok : Q -> Prop)
      (body : Q -> A -> A) :
  (forall x x', x == x' -> ok x -> ok x') ->
  (forall x c a, ok x -> Inv c a -> Inv (c + 1)%Z (body x a)) ->
  forall n i c a,
    (forall j, (j < n)%nat -> ok (i + inject_Z (Z.of_nat j))) ->
    Inv c a ->
    Inv (c + Z.of_nat n)%Z (forSteps n i body a).
Proof.
  intros Hok Hstep. induction n as [| n IH]; intros i c a Hrange H0; simpl forSteps.
  - now rewrite Z.add_0_r.
  - replace (c + Z.of_nat (S n))%Z with ((c + 1) + Z.of_nat n)%Z by lia.
    apply IH.
    + intros j Hj. apply (Hok (i + inject_Z (Z.of_nat (S j)))); [| apply Hrange; lia].
      rewrite Nat2Z.inj_succ. unfold Z.succ. rewrite inject_Z_plus.
      change (inject_Z 1) with 1. lra.
    + apply Hstep; [| exact H0].
      apply (Hok (i + inject_Z (Z.of_nat 0))); [| apply Hrange; lia].
      change (inject_Z (Z.of_nat 0)) with 0. lra.
Qed.

Lemma tripCount_inside (start bound : Q) (j : nat) :
  (j < tripCount start bound)%nat -> start + inject_Z (Z.of_nat j) < bound.
Proof.
  unfold tripCount. intros Hj.
  assert (Hz : (Z.of_nat j <= Qceiling (bound - start) - 1)%Z) by lia.
  rewrite Zle_Qle in Hz.
  pose proof (Qceiling_lt (bound - start)). lra.
Qed.

Lemma tripCount_positive (start bound : Q) :
  start < bound -> (1 <= tripCount start bound)%nat.
Proof.
  intros H. unfold tripCount.
  pose proof (Qle_ceiling (bound - start)) as Hc.
  assert (Hz : (0 < Qceiling (bound - start))%Z).
  { rewrite Zlt_Qlt. change (inject_Z 0) with 0. lra. }
  lia.
Qed.

Lemma floor_inside (x : Q) (w : Z) :
  0 <= x -> x < inject_Z w -> (0 <= Qfloor x < w)%Z.
Proof.
  intros H0 Hw. split.
  - change 0%Z with (Qfloor (inject_Z 0)) at 1.
    rewrite Qfloor_Z. apply (Qfloor_resp_le 0 x) in H0.
    change 0 with (inject_Z 0) in H0. now rewrite Qfloor_Z in H0.
  - rewrite Zlt_Qlt. pose proof (Qfloor_le x). lra.
Qed.

(** ** Colour consistency of a uniform canvas *)

Lemma uniform_sample (img : ImageData) (r g b p : Z) :
  uniformColour img r g b = true ->
  (0 <= p < canvasWidth img * canvasHeight img)%Z ->
  sample (data img) (p * 4) = Fin (inject_Z r) /\
  sample (data img) (p * 4 + 1) = Fin (inject_Z g) /\
  sample (data img) (p * 4 + 2) = Fin (inject_Z b).
Proof.
  intros Hu Hp. unfold uniformColour in Hu. rewrite forallb_forall in Hu.
  specialize (Hu p (proj2 (in_zrange _ _ _) Hp)).
  unfold pixelIs in Hu. unfold sample.
  replace (4 * p)%Z with (p * 4)%Z in Hu by lia.
  destruct (nth_error (data img) (Z.to_nat (p * 4))) as [r' |]; [| discriminate].
  destruct (nth_error (data img) (Z.to_nat (p * 4 + 1))) as [g' |]; [| discriminate].
  destruct (nth_error (data img) (Z.to_nat (p * 4 + 2))) as [b' |]; [| discriminate].
  apply andb_prop in Hu. destruct Hu as [Hu Hb]. apply andb_prop in Hu.
  destruct Hu as [Hr Hg].
  apply Z.eqb_eq in Hr, Hg, Hb. subst.
  destruct (Z.ltb_spec (p * 4) 0); [lia |].
  destruct (Z.ltb_spec (p * 4 + 1) 0); [lia |].
  destruct (Z.ltb_spec (p * 4 + 2) 0); [lia |].
  auto.
Qed.

Lemma div_ofZ (q : Q) (c : Z) :
  (0 < c)%Z -> (Fin q / ofZ c)%n = Fin (q / inject_Z c).
Proof.
  intros Hc. unfold Js.div, ofZ.
  destruct (Qeq_bool (inject_Z c) 0) eqn:E; [| reflexivity].
  apply Qeq_bool_iff in E. unfold Qeq in E. simpl in E. lia.
Qed.

Lemma sumsOf_step (img : ImageData) (r g b : Z) (x y : Q) (c : Z)
      (st : num * num * num * Z) :
  uniformColour img r g b = true ->
  0 <= x -> x < inject_Z (canvasWidth img) ->
  0 <= y -> y < inject_Z (canvasHeight img) ->
  sumsOf r g b c st ->
  sumsOf r g b (c + 1)
    (let '(rSum, gSum, bSum, count) := st in
     let idx := ((Qfloor y * canvasWidth img + Qfloor x) * 4)%Z in
     ((rSum + sample (data img) idx)%n,
      (gSum + sample (data img) (idx + 1))%n,
      (bSum + sample (data img) (idx + 2))%n,
      (count + 1)%Z)).
Proof.
  intros Hu Hx0 Hx1 Hy0 Hy1 (a1 & a2 & a3 & -> & H1 & H2 & H3).
  pose proof (floor_inside x _ Hx0 Hx1) as Hfx.
  pose proof (floor_inside y _ Hy0 Hy1) as Hfy.
  assert (Hp : (0 <= Qfloor y * canvasWidth img + Qfloor x
                < canvasWidth img * canvasHeight img)%Z) by nia.
  destruct (uniform_sample img r g b _ Hu Hp) as (Er & Eg & Eb).
  cbv zeta. rewrite Er, Eg, Eb. simpl.
  exists (a1 + inject_Z r), (a2 + inject_Z g), (a3 + inject_Z b).
  split; [reflexivity |].
  rewrite inject_Z_plus. change (inject_Z 1) with 1.
  rewrite H1, H2, H3. repeat split; ring.
Qed.

Lemma of_nat_nonneg (j : nat) : 0 <= inject_Z (Z.of_nat j).
Proof. change 0 with (inject_Z 0). rewrite <- Zle_Qle. lia. Qed.

Lemma regionMean_uniform (img : ImageData) (r g b : Z) (rx ry rw rh : Q) :
  uniformColour img r g b = true ->
  0 <= rx -> 0 < rw -> rx + rw <= inject_Z (canvasWidth img) ->
  0 <= ry -> 0 < rh -> ry + rh <= inject_Z (canvasHeight img) ->
  isColour r g b (regionMean img (rx, ry, rw, rh)).
Proof.
  intros Hu Hrx Hrw Hxw Hry Hrh Hyh. unfold regionMean.
  set (nx := tripCount rx (rx + rw)). set (ny := tripCount ry (ry + rh)).
  assert (Hnx : (1 <= nx)%nat) by (apply tripCount_positive; lra).
  assert (Hny : (1 <= ny)%nat) by (apply tripCount_positive; lra).
  match goal with
  | |- context [forQ ry ?bound ?body ?init] =>
      assert (H : sumsOf r g b ((0 + Z.of_nat ny) * Z.of_nat nx) (forQ ry bound body init))
  end.
  { unfold forQ. fold ny.
    apply (forSteps_count (fun k st => sumsOf r g b (k * Z.of_nat nx) st)
                          (fun y => 0 <= y /\ y < inject_Z (canvasHeight img))).
    - intros y y' E [? ?]. split; lra.
    - intros y c st [Hy0 Hy1] Hst. unfold forQ. fold nx.
      replace ((c + 1) * Z.of_nat nx)%Z with (c * Z.of_nat nx + Z.of_nat nx)%Z by lia.
      apply (forSteps_count (sumsOf r g b)
                            (fun x => 0 <= x /\ x < inject_Z (canvasWidth img))).
      + intros x x' E [? ?]. split; lra.
      + intros x k a [Hx0 Hx1] Ha. now apply sumsOf_step.
      + intros j Hj. pose proof (tripCount_inside _ _ _ Hj).
        pose proof (of_nat_nonneg j). split; lra.
      + exact Hst.
    - intros j Hj. pose proof (tripCount_inside _ _ _ Hj).
      pose proof (of_nat_nonneg j). split; lra.
    - exists 0, 0, 0. split; [reflexivity |]. repeat split; ring. }
  destruct H as (a1 & a2 & a3 & -> & H1 & H2 & H3).
  assert (Hc : (0 < (0 + Z.of_nat ny) * Z.of_nat nx)%Z) by nia.
  rewrite !div_ofZ by exact Hc.
  assert (Hne : ~ inject_Z ((0 + Z.of_nat ny) * Z.of_nat nx) == 0).
  { intros E. unfold Qeq in E. simpl in E. lia. }
  eexists _, _, _. split; [reflexivity |].
  rewrite H1, H2, H3. repeat split; field; exact Hne.
Qed.

Lemma colourDiff_same (r g b : Z) (c c' : num * num * num) :
  isColour r g b c -> isColour r g b c' ->
  exists D, colourDiff c c' = Fin D /\ D == 0.
Proof.
  intros (r0 & g0 & b0 & -> & Hr0 & Hg0 & Hb0) (r1 & g1 & b1 & -> & Hr1 & Hg1 & Hb1).
  unfold colourDiff, Js.abs, Js.sub, Js.add, Js.neg.
  eexists. split; [reflexivity |].
  rewrite Hr0, Hr1, Hg0, Hg1, Hb0, Hb1.
  assert (E : forall q : Q, Qabs (q + - q) == 0).
  { intros q. assert (E0 : q + - q == 0) by ring. now rewrite E0. }
  rewrite !E. reflexivity.
Qed.

Lemma stat_in_range (r g b : Z) (stats : list (num * num * num)) (k : Z) :
  Forall (isColour r g b) stats ->
  (0 <= k < Z.of_nat (List.length stats))%Z ->
  isColour r g b (nth (Z.to_nat k) stats (NaN, NaN, NaN)).
Proof.
  intros Hall Hk. rewrite Forall_forall in Hall. apply Hall, nth_In. lia.
Qed.

Lemma totalDifference_uniform (r g b : Z) (stats : list (num * num * num)) :
  Forall (isColour r g b) stats ->
  exists T, totalDifference stats = Fin T /\ T == 0.
Proof.
  intros Hall. unfold totalDifference.
  apply (forZ_invariant (fun total => exists T, total = Fin T /\ T == 0)).
  - exists 0. split; reflexivity.
  - intros i total Hi Htot.
    apply (forZ_invariant (fun total => exists T, total = Fin T /\ T == 0));
      [exact Htot |].
    intros j total' Hj (T & -> & HT).
    destruct (colourDiff_same r g b
                (nth (Z.to_nat i) stats (NaN, NaN, NaN))
                (nth (Z.to_nat j) stats (NaN, NaN, NaN))) as (D & -> & HD).
    + now apply stat_in_range.
    + apply stat_in_range; [exact Hall | lia].
    + exists (T + D). split; [reflexivity |]. rewrite HT, HD. reflexivity.
Qed.

Lemma quadrant_means_uniform (img : ImageData) (r g b : Z) :
  (1 <= canvasWidth img)%Z -> (1 <= canvasHeight img)%Z ->
  uniformColour img r g b = true ->
  Forall (isColour r g b) (map (regionMean img) (quadrants img)).
Proof.
  intros Hw Hh Hu. rewrite Zle_Qle in Hw, Hh.
  change (inject_Z 1) with 1 in Hw, Hh.
  unfold quadrants. cbn [map].
  assert (Ew : 2 * (inject_Z (canvasWidth img) / 2) == inject_Z (canvasWidth img))
    by (field; discriminate).
  assert (Eh : 2 * (inject_Z (canvasHeight img) / 2) == inject_Z (canvasHeight img))
    by (field; discriminate).
  set (halfW := inject_Z (canvasWidth img) / 2) in *.
  set (halfH := inject_Z (canvasHeight img) / 2) in *.
  repeat (apply Forall_cons; [apply regionMean_uniform; try exact Hu; lra |]).
  apply Forall_nil.
Qed.

Lemma consistency_of_no_difference (T scale floor : Q) :
  T == 0 -> 0 < scale -> floor < 100 ->
  Js.eqn (Js.max floor (100 - (Fin T / 6) / scale)%n) (Fin 100).
Proof.
  intros HT Hs Hf.
  assert (E6 : (Fin T / 6)%n = Fin (T / 6)).
  { unfold Js.div. now destruct (Qeq_bool 6 0) eqn:E. }
  rewrite E6. unfold Js.div.
  destruct (Qeq_bool scale 0) eqn:E.
  { apply Qeq_bool_iff in E. lra. }
  unfold Js.sub, Js.neg, Js.add, Js.max, Js.lt.
  assert (Hv : 100 + - (T / 6 / scale) == 100).
  { rewrite HT. field. lra. }
  destruct (Qltb_spec floor (100 + - (T / 6 / scale))) as [_ | Hge].
  - exact Hv.
  - rewrite Hv in Hge. lra.
Qed.

(** C8.  On a canvas of at least one pixel whose pixels all have the same
    colour, the colour-consistency extractor of the realistic and of the
    conservative tuning returns 100: the four quadrant means are that colour,
    the six pair differences are 0 and the score is 100 - 0 / scale. *)
Theorem uniform_colour_consistency (img : ImageData) (r g b : Z) (rng : Rng) :
  (1 <= canvasWidth img)%Z ->
  (1 <= canvasHeight img)%Z ->
  uniformColour img r g b = true ->
  Js.eqn (Realistic.analyzeColorConsistency (Some img) rng) (Fin 100) /\
  Js.eqn (Conservative.analyzeColorConsistency (Some img) rng) (Fin 100).
Proof.
  intros Hw Hh Hu.
  destruct (totalDifference_uniform r g b _ (quadrant_means_uniform img r g b Hw Hh Hu))
    as (T & HT & HT0).
  unfold Realistic.analyzeColorConsistency, Conservative.analyzeColorConsistency.
  rewrite HT. split; apply consistency_of_no_difference; try exact HT0; lra.
Qed.

Lemma uniform_colour_consistency_witness :
  Js.eqn (Realistic.analyzeColorConsistency (Some (plainCanvas 3 2 128 128 128)) halfRng)
         (Fin 100) /\
  Js.eqn (Conservative.analyzeColorConsistency (Some (plainCanvas 3 2 128 128 128)) halfRng)
         (Fin 100).
Proof.
  apply (uniform_colour_consistency (plainCanvas 3 2 128 128 128) 128 128 128 halfRng).
  - simpl. lia.
  - simpl. lia.
  - vm_compute. reflexivity.
Defined.

(** ** Score statements are translations *)

Lemma adds_incr (k : Q) : Adds (Score.incr k) k k.
Proof. split; [intros s; reflexivity | lra]. Qed.

Lemma adds_decr (k : Q) : Adds (Score.decr k) (- k) (- k).
Proof. split; [intros s; unfold Score.decr; ring | lra]. Qed.

Lemma adds_skip : Adds Score.skip 0 0.
Proof. split; [intros s; unfold Score.skip; ring | lra]. Qed.

Lemma adds_seq (a b : Score.stmt) (da la db lb : Q) :
  Adds a da la -> Adds b db lb -> Adds (Score.seq a b) (da + db) (la + lb).
Proof.
  intros [Ha La] [Hb Lb]. split; [| lra].
  intros s. unfold Score.seq. rewrite Hb, Ha. ring.
Qed.

Lemma adds_cond_true (a b : Score.stmt) (da la : Q) :
  Adds a da la -> Adds (Score.cond true a b) da la.
Proof. intros H. exact H. Qed.

Lemma adds_cond_false (a b : Score.stmt) (db lb : Q) :
  Adds b db lb -> Adds (Score.cond false a b) db lb.
Proof. intros H. exact H. Qed.

Lemma adds_cond (c : bool) (a b : Score.stmt) (da la db lb : Q) :
  Adds a da la -> Adds b db lb ->
  Adds (Score.cond c a b) (if c then da else db) (Qmin la lb).
Proof.
  intros [Ha La] [Hb Lb]. destruct c; (split; [assumption |]).
  - pose proof (Q.le_min_l la lb). lra.
  - pose proof (Q.le_min_r la lb). lra.
Qed.

Ltac adds :=
  repeat match goal with
         | |- Adds (Score.incr _) _ _ => apply adds_incr
         | |- Adds (Score.decr _) _ _ => apply adds_decr
         | |- Adds Score.skip _ _ => apply adds_skip
         | |- Adds (Score.seq _ _) _ _ => eapply adds_seq
         | |- Adds (Score.cond true _ _) _ _ => eapply adds_cond_true
         | |- Adds (Score.cond false _ _) _ _ => eapply adds_cond_false
         | |- Adds (Score.cond _ _ _) _ _ => eapply adds_cond
         end.

(** Evaluate the minima of constants that [adds] leaves in a lower bound. *)
Ltac eval_minima :=
  repeat match goal with
         | H : context [Qmin ?a ?b] |- _ =>
             let v := eval vm_compute in (Qmin a b) in
             change (Qmin a b) with v in H
         end.

(** ** File names *)

Lemma includes_deepfake_fake (s : string) :
  Js.includes s "deepfake" = true -> Js.includes s "fake" = true.
Proof.
  induction s as [| c s IH]; [discriminate |].
  intros H. change (Js.includes (String c s) "deepfake")
    with (String.prefix "deepfake" (String c s) || Js.includes s "deepfake") in H.
  change (Js.includes (String c s) "fake")
    with (String.prefix "fake" (String c s) || Js.includes s "fake").
  apply orb_true_iff in H. destruct H as [H | H].
  - apply orb_true_iff. right.
    apply prefix_correct in H. simpl String.length in H.
    destruct s as [| c1 [| c2 [| c3 [| c4 [| c5 [| c6 [| c7 rest]]]]]]];
      simpl in H; try discriminate.
    injection H as -> -> -> -> -> -> -> ->.
    destruct rest; reflexivity.
  - apply orb_true_iff. right. now apply IH.
Qed.

Lemma neutral_no_keyword (fileName k : string) :
  neutralName fileName = true -> In k keywords ->
  Js.includes (Js.toLowerCase fileName) k = false.
Proof.
  unfold neutralName. rewrite forallb_forall. intros H Hin.
  apply negb_true_iff. now apply H.
Qed.

Ltac neutral_name fn H :=
  repeat match goal with
         | |- context [Js.includes (Js.toLowerCase fn) ?k] =>
             rewrite (neutral_no_keyword fn k H) by (simpl; tauto)
         end.

(** ** Comparing two clamped totals *)

Lemma clamp_compare (t0 t1 : Q) :
  t0 < t1 -> 0 < t1 ->
  (clamp (Fin t0) <=? clamp (Fin t1)) = true /\
  ((clamp (Fin t0) <? Fin 100) = true -> (clamp (Fin t0) <? clamp (Fin t1)) = true).
Proof.
  intros Hlt Hpos. unfold clamp, Js.min, Js.max, Js.lt, Js.le.
  destruct (Qltb_spec t0 100), (Qltb_spec t1 100); simpl;
    repeat match goal with
           | |- context [Js.Qltb ?a ?b] => destruct (Qltb_spec a b); simpl
           | |- context [Qle_bool ?a ?b] => destruct (Qleb_spec a b); simpl
           end;
    try (split; [reflexivity | reflexivity]);
    try (split; [reflexivity | intros; reflexivity]);
    try (split; [| intros]; try reflexivity; try discriminate; exfalso; lra).
Qed.

(** ** A "deepfake" file name against a neutral one *)

(** Both calls have returned clamped totals [t0] and [t1]; it remains to
    relate the two totals through [Adds]. *)
Ltac totals_of_image :=
  cbv zeta;
  match goal with
  | |- inr (clamp (Fin (?p0 ?b0)), _) = _ -> inr (clamp (Fin (?p1 ?b1)), _) = _ -> _ =>
      let A0 := fresh "A0" in
      let A1 := fresh "A1" in
      eassert (A0 : Adds p0 _ _) by adds;
      eassert (A1 : Adds p1 _ _) by adds;
      destruct A0 as [A0 _]; destruct A1 as [A1 L1];
      specialize (A0 b0); specialize (A1 b1);
      let t0 := fresh "t0" in
      let t1 := fresh "t1" in
      set (t0 := p0 b0) in *; set (t1 := p1 b1) in *;
      clearbody t0 t1;
      let H0 := fresh in
      let H1 := fresh in
      intros H0 H1; injection H0 as <- _; injection H1 as <- _;
      exists t0, t1; split; [reflexivity |]; split; [reflexivity |];
      eval_minima
  end.

Lemma Realistic_image_name (f0 f1 : File) (rng : Rng) (c0 c1 : num)
      (a0 a1 : DetectionAnalysis) :
  unitDraws rng ->
  size f1 = size f0 -> media f1 = media f0 ->
  neutralName (name f0) = true ->
  Js.includes (Js.toLowerCase (name f1)) "deepfake" = true ->
  Realistic.analyzeImage f0 rng = inr (c0, a0) ->
  Realistic.analyzeImage f1 rng = inr (c1, a1) ->
  exists t0 t1, c0 = clamp (Fin t0) /\ c1 = clamp (Fin t1) /\ t0 < t1 /\ 0 < t1.
Proof.
  intros Hrng Hsize Hmedia Hneutral Hdeep.
  pose proof (includes_deepfake_fake _ Hdeep) as Hfake.
  pose proof (Hrng 0%nat) as [Hr0 Hr1].
  unfold Realistic.analyzeImage, loadImage, fileSizeMB. rewrite Hmedia, Hsize.
  destruct (media f0) as [img | |]; try discriminate.
  neutral_name (name f0) Hneutral. rewrite Hdeep, Hfake. cbn [orb].
  totals_of_image.
  split; lra.
Qed.

Lemma Aggressive_image_name (f0 f1 : File) (rng : Rng) (c0 c1 : num)
      (a0 a1 : DetectionAnalysis) :
  unitDraws rng ->
  size f1 = size f0 -> media f1 = media f0 ->
  neutralName (name f0) = true ->
  Js.includes (Js.toLowerCase (name f1)) "deepfake" = true ->
  Aggressive.analyzeImage f0 rng = inr (c0, a0) ->
  Aggressive.analyzeImage f1 rng = inr (c1, a1) ->
  exists t0 t1, c0 = clamp (Fin t0) /\ c1 = clamp (Fin t1) /\ t0 < t1 /\ 0 < t1.
Proof.
  intros Hrng Hsize Hmedia Hneutral Hdeep.
  pose proof (includes_deepfake_fake _ Hdeep) as Hfake.
  pose proof (Hrng 0%nat) as [Hr0 Hr1].
  unfold Aggressive.analyzeImage, loadImage, fileSizeMB. rewrite Hmedia, Hsize.
  destruct (media f0) as [img | |]; try discriminate.
  neutral_name (name f0) Hneutral. rewrite Hfake. cbn [orb].
  totals_of_image.
  split; lra.
Qed.

Lemma Conservative_image_name (f0 f1 : File) (rng : Rng) (c0 c1 : num)
      (a0 a1 : DetectionAnalysis) :
  unitDraws rng ->
  size f1 = size f0 -> media f1 = media f0 ->
  neutralName (name f0) = true ->
  Js.includes (Js.toLowerCase (name f1)) "deepfake" = true ->
  Conservative.analyzeImage f0 rng = inr (c0, a0) ->
  Conservative.analyzeImage f1 rng = inr (c1, a1) ->
  exists t0 t1, c0 = clamp (Fin t0) /\ c1 = clamp (Fin t1) /\ t0 < t1 /\ 0 < t1.
Proof.
  intros Hrng Hsize Hmedia Hneutral Hdeep.
  pose proof (Hrng 0%nat) as [Hr0 Hr1].
  unfold Conservative.analyzeImage, loadImage, fileSizeMB. rewrite Hmedia, Hsize.
  destruct (media f0) as [img | |]; try discriminate.
  neutral_name (name f0) Hneutral. rewrite Hdeep. cbn [orb].
  match goal with
  | |- context [Score.cond ?c (Score.decr 20) Score.skip] =>
      lazymatch c with
      | false => fail
      | _ => destruct c
      end
  end;
    totals_of_image; split; lra.
Qed.

Lemma fifth_compare (t0 t1 : Q) :
  t0 < t1 -> 0 < t1 -> t0 / 5 < t1 / 5 /\ 0 < t1 / 5.
Proof.
  intros Hlt Hpos.
  assert (E0 : 5 * (t0 / 5) == t0) by (field; discriminate).
  assert (E1 : 5 * (t1 / 5) == t1) by (field; discriminate).
  split; lra.
Qed.

(** The lower bound of what one frame adds to the running total. *)
Ltac frame_bound :=
  match goal with
  | |- _ <= _ + ?p ?b =>
      let A := fresh "A" in
      let L := fresh "L" in
      eassert (A : Adds p _ _) by adds;
      destruct A as [A L]; specialize (A b);
      let fs := fresh "fs" in
      set (fs := p b) in *; clearbody fs;
      eval_minima
  end.

Lemma Aggressive_frames_total (rng : Rng) (frames : list Image) :
  unitDraws rng ->
  forall st, fst (fst st) <= fst (fst (fold_left (Aggressive.frameStep rng) frames st)).
Proof.
  intros Hrng. induction frames as [| frame frames IH]; intros st; cbn [fold_left].
  - lra.
  - eapply Qle_trans; [| apply IH].
    destruct st as [[t fa] k]. unfold Aggressive.frameStep. cbv zeta. cbn [fst].
    pose proof (Hrng k) as [Hk0 Hk1]. frame_bound. lra.
Qed.

Lemma Realistic_frames_total (frames : list Image) :
  forall st, fst st <= fst (fold_left Realistic.frameStep frames st).
Proof.
  induction frames as [| frame frames IH]; intros st; cbn [fold_left].
  - lra.
  - eapply Qle_trans; [| apply IH].
    destruct st as [t fa]. unfold Realistic.frameStep. cbv zeta. cbn [fst].
    frame_bound. lra.
Qed.

Lemma Conservative_frames_total (frames : list Image) :
  forall st, fst st <= fst (fold_left Conservative.frameStep frames st).
Proof.
  induction frames as [| frame frames IH]; intros st; cbn [fold_left].
  - lra.
  - eapply Qle_trans; [| apply IH].
    destruct st as [t fa]. unfold Conservative.frameStep. cbv zeta. cbn [fst].
    frame_bound. lra.
Qed.

Ltac totals_of_video :=
  cbv zeta;
  match goal with
  | |- inr (clamp (Fin (?p0 ?b0 / ?n)), _) = _ ->
       inr (clamp (Fin (?p1 ?b1 / ?n)), _) = _ -> _ =>
      change n with 5;
      let A0 := fresh "A0" in
      let A1 := fresh "A1" in
      eassert (A0 : Adds p0 _ _) by adds;
      eassert (A1 : Adds p1 _ _) by adds;
      destruct A0 as [A0 _]; destruct A1 as [A1 L1];
      specialize (A0 b0); specialize (A1 b1);
      let t0 := fresh "t0" in
      let t1 := fresh "t1" in
      set (t0 := p0 b0) in *; set (t1 := p1 b1) in *;
      clearbody t0 t1;
      let H0 := fresh in
      let H1 := fresh in
      intros H0 H1; injection H0 as <- _; injection H1 as <- _;
      exists (t0 / 5), (t1 / 5); split; [reflexivity |]; split; [reflexivity |];
      eval_minima; apply fifth_compare
  end.

Lemma Aggressive_video_name (f0 f1 : File) (rng : Rng) (c0 c1 : num)
      (a0 a1 : DetectionAnalysis) :
  unitDraws rng ->
  size f1 = size f0 -> media f1 = media f0 ->
  neutralName (name f0) = true ->
  Js.includes (Js.toLowerCase (name f1)) "deepfake" = true ->
  Aggressive.analyzeVideo f0 rng = inr (c0, a0) ->
  Aggressive.analyzeVideo f1 rng = inr (c1, a1) ->
  exists t0 t1, c0 = clamp (Fin t0) /\ c1 = clamp (Fin t1) /\ t0 < t1 /\ 0 < t1.
Proof.
  intros Hrng Hsize Hmedia Hneutral Hdeep.
  pose proof (includes_deepfake_fake _ Hdeep) as Hfake.
  pose proof (Hrng 0%nat) as [Hr0 Hr1].
  unfold Aggressive.analyzeVideo, ImageProcessor.extractFramesFromVideo.
  rewrite Hmedia. destruct (media f0) as [| v |]; try discriminate.
  rewrite captureTimes_spec by lia.
  rewrite length_map, timesFrom_length.
  match goal with
  | |- context [fold_left ?f ?l ?i] =>
      pose proof (Aggressive_frames_total rng l Hrng i) as Hfold;
      destruct (fold_left f l i) as [[t fa] k]
  end.
  cbn [fst] in Hfold. rewrite !div_of_nat by lia.
  neutral_name (name f0) Hneutral. rewrite Hfake. cbn [orb].
  totals_of_video; lra.
Qed.

Lemma Realistic_video_name (f0 f1 : File) (rng : Rng) (c0 c1 : num)
      (a0 a1 : DetectionAnalysis) :
  unitDraws rng ->
  size f1 = size f0 -> media f1 = media f0 ->
  neutralName (name f0) = true ->
  Js.includes (Js.toLowerCase (name f1)) "deepfake" = true ->
  Realistic.analyzeVideo f0 rng = inr (c0, a0) ->
  Realistic.analyzeVideo f1 rng = inr (c1, a1) ->
  exists t0 t1, c0 = clamp (Fin t0) /\ c1 = clamp (Fin t1) /\ t0 < t1 /\ 0 < t1.
Proof.
  intros Hrng Hsize Hmedia Hneutral Hdeep.
  pose proof (includes_deepfake_fake _ Hdeep) as Hfake.
  pose proof (Hrng 0%nat) as [Hr0 Hr1].
  unfold Realistic.analyzeVideo, ImageProcessor.extractFramesFromVideo, getVideoDuration.
  rewrite Hmedia. destruct (media f0) as [| v |]; try discriminate.
  rewrite captureTimes_spec by lia.
  rewrite length_map, timesFrom_length.
  match goal with
  | |- context [fold_left ?f ?l ?i] =>
      pose proof (Realistic_frames_total l i) as Hfold;
      destruct (fold_left f l i) as [t fa]
  end.
  cbn [fst] in Hfold. rewrite !div_of_nat by lia.
  neutral_name (name f0) Hneutral. rewrite Hfake. cbn [orb].
  totals_of_video; lra.
Qed.

Lemma Conservative_video_name (f0 f1 : File) (rng : Rng) (c0 c1 : num)
      (a0 a1 : DetectionAnalysis) :
  unitDraws rng ->
  size f1 = size f0 -> media f1 = media f0 ->
  neutralName (name f0) = true ->
  Js.includes (Js.toLowerCase (name f1)) "deepfake" = true ->
  Conservative.analyzeVideo f0 rng = inr (c0, a0) ->
  Conservative.analyzeVideo f1 rng = inr (c1, a1) ->
  exists t0 t1, c0 = clamp (Fin t0) /\ c1 = clamp (Fin t1) /\ t0 < t1 /\ 0 < t1.
Proof.
  intros Hrng Hsize Hmedia Hneutral Hdeep.
  pose proof (Hrng 0%nat) as [Hr0 Hr1].
  unfold Conservative.analyzeVideo, ImageProcessor.extractFramesFromVideo,
    getVideoDuration.
  rewrite Hmedia. destruct (media f0) as [| v |]; try discriminate.
  rewrite captureTimes_spec by lia.
  rewrite length_map, timesFrom_length.
  match goal with
  | |- context [fold_left ?f ?l ?i] =>
      pose proof (Conservative_frames_total l i) as Hfold;
      destruct (fold_left f l i) as [t fa]
  end.
  cbn [fst] in Hfold. rewrite !div_of_nat by lia.
  neutral_name (name f0) Hneutral. rewrite Hdeep. cbn [orb].
  totals_of_video; lra.
Qed.

Lemma name_raises_paths (D : Detector) (f0 f1 : File) (rng : Rng) (c0 c1 : num)
      (a0 a1 : DetectionAnalysis) :
  In D detectors ->
  unitDraws rng ->
  size f1 = size f0 -> media f1 = media f0 ->
  neutralName (name f0) = true ->
  Js.includes (Js.toLowerCase (name f1)) "deepfake" = true ->
  (analyzeImage D f0 rng = inr (c0, a0) /\ analyzeImage D f1 rng = inr (c1, a1)) \/
  (analyzeVideo D f0 rng = inr (c0, a0) /\ analyzeVideo D f1 rng = inr (c1, a1)) ->
  exists t0 t1, c0 = clamp (Fin t0) /\ c1 = clamp (Fin t1) /\ t0 < t1 /\ 0 < t1.
Proof.
  intros HD Hrng Hsize Hmedia Hneutral Hdeep H. unfold detectors in HD. simpl in HD.
  destruct HD as [<- | [<- | [<- | []]]]; simpl in H; destruct H as [[H0 H1] | [H0 H1]].
  - eapply Aggressive_image_name; eauto.
  - eapply Aggressive_video_name; eauto.
  - eapply Realistic_image_name; eauto.
  - eapply Realistic_video_name; eauto.
  - eapply Conservative_image_name; eauto.
  - eapply Conservative_video_name; eauto.
Qed.

(** C3 as the code has it.  Two calls to one tuning that differ only in the
    file name, with the same draws of [Math.random()] (each in [[0, 1)]): when
    one name contains "deepfake" in any letter case and the other contains no
    keyword, the confidence of the first is at least that of the second, and
    it is strictly greater whenever the second is below 100. *)
Theorem deepfake_name_raises_confidence (D : Detector) (ready : bool) (f0 f1 : File)
        (rng : Rng) (r0 r1 : DeepfakeDetectionResult) :
  In D detectors ->
  unitDraws rng ->
  type f1 = type f0 -> size f1 = size f0 -> media f1 = media f0 ->
  neutralName (name f0) = true ->
  Js.includes (Js.toLowerCase (name f1)) "deepfake" = true ->
  detectDeepfake D ready f0 rng = inr r0 ->
  detectDeepfake D ready f1 rng = inr r1 ->
  (confidence r0 <=? confidence r1) = true /\
  ((confidence r0 <? Fin 100) = true -> (confidence r0 <? confidence r1) = true).
Proof.
  intros HD Hrng Htype Hsize Hmedia Hneutral Hdeep H0 H1.
  apply detect_inr in H0. apply detect_inr in H1.
  destruct H0 as [_ (c0 & a0 & P0 & ->)]. destruct H1 as [_ (c1 & a1 & P1 & ->)].
  rewrite Htype in P1. simpl.
  assert (Ht : exists t0 t1,
             c0 = clamp (Fin t0) /\ c1 = clamp (Fin t1) /\ t0 < t1 /\ 0 < t1).
  { apply (name_raises_paths D f0 f1 rng c0 c1 a0 a1); try assumption.
    destruct P0 as [[E0 P0] | (E0 & _ & P0)], P1 as [[E1 P1] | (E1 & _ & P1)];
      try congruence; auto. }
  destruct Ht as (t0 & t1 & -> & -> & Hlt & Hpos).
  now apply clamp_compare.
Qed.

Lemma deepfake_name_raises_confidence_witness :
  (confidence (returned (detectDeepfake Conservative.detector true holidayPhoto halfRng))
   <=? confidence (returned (detectDeepfake Conservative.detector true
                               (mkFile "DeepFake_holiday.jpg" (type holidayPhoto)
                                       (size holidayPhoto) (media holidayPhoto))
                               halfRng))) = true /\
  ((confidence (returned (detectDeepfake Conservative.detector true holidayPhoto halfRng))
    <? Fin 100) = true ->
   (confidence (returned (detectDeepfake Conservative.detector true holidayPhoto halfRng))
    <? confidence (returned (detectDeepfake Conservative.detector true
                               (mkFile "DeepFake_holiday.jpg" (type holidayPhoto)
                                       (size holidayPhoto) (media holidayPhoto))
                               halfRng))) = true).
Proof.
  apply (deepfake_name_raises_confidence Conservative.detector true holidayPhoto
           (mkFile "DeepFake_holiday.jpg" (type holidayPhoto)
                   (size holidayPhoto) (media holidayPhoto)) halfRng).
  - right; right; left; reflexivity.
  - intros k. unfold halfRng. split; lra.
  - reflexivity.
  - reflexivity.
  - reflexivity.
  - vm_compute. reflexivity.
  - vm_compute. reflexivity.
  - vm_compute. reflexivity.
  - vm_compute. reflexivity.
Defined.

(** C3 as stated fails when the neutral call already reaches the cap: the
    realistic tuning scores the image "shot.jpg", whose signals trip the
    compression, edge and artifact rules, at 100, and the same image named
    "DeepFake_shot.jpg" at 100 as well, with the jitter draw at one half. *)
Lemma deepfake_name_no_gain_at_cap :
  neutralName (name noisyShot) = true /\
  Js.includes (Js.toLowerCase (name noisyDeepfake)) "deepfake" = true /\
  confidence (returned (detectDeepfake Realistic.detector true noisyShot halfRng)) = Fin 100 /\
  confidence (returned (detectDeepfake Realistic.detector true noisyDeepfake halfRng))
  = Fin 100 /\
  (confidence (returned (detectDeepfake Realistic.detector true noisyShot halfRng))
   <? confidence (returned (detectDeepfake Realistic.detector true noisyDeepfake halfRng)))
  = false.
Proof. repeat split; vm_compute; reflexivity. Qed.

(* ------------------------------------------------------------------ *)
(** ** Flagged results and their threat level *)

Ltac open_ladders :=
  unfold Aggressive.calculateThreatLevel, Realistic.calculateThreatLevel,
         Conservative.calculateThreatLevel; cbv zeta.

Ltac hide_artifact_tests :=
  repeat match goal with
         | |- context [Js.gt (artifactDetection ?a) ?k] =>
             generalize (Js.gt (artifactDetection a) k); intro
         end.

Ltac case_tests :=
  repeat match goal with
         | b : bool |- _ => destruct b
         | |- context [Js.Qltb ?k ?z] => destruct (Js.Qltb k z)
         end.

Lemma flag_above_low (D : Detector) (c : num) (a : DetectionAnalysis) :
  In D detectors ->
  (c >? Fin (decisionThreshold D)) = true -> calculateThreatLevel D c a <> low.
Proof.
  intros HD H. unfold detectors in HD. simpl in HD.
  destruct HD as [<- | [<- | [<- | []]]]; simpl in *; open_ladders; hide_artifact_tests;
    (destruct c as [x | | |]; simpl in H; try discriminate H; unfold Js.gt, Js.lt in *;
     [ match type of H with
       | Js.Qltb ?k x = true => destruct (Qltb_spec k x) as [Hx |]; [| discriminate H]
       end;
       split_thresholds x x
     | ]; case_tests; simpl; discriminate).
Qed.

Lemma low_below_flag (D : Detector) (c : num) (a : DetectionAnalysis) :
  D = Aggressive.detector \/ D = Conservative.detector ->
  calculateThreatLevel D c a <> low -> (c >? Fin (decisionThreshold D)) = true.
Proof.
  intros [-> | ->]; simpl; open_ladders; hide_artifact_tests;
    (destruct c as [x | | |]; simpl; unfold Js.gt, Js.lt;
     [ match goal with
       | |- _ -> Js.Qltb ?k x = true => destruct (Qltb_spec k x) as [Hx | Hx]
       end;
       [reflexivity |]; split_thresholds x x
     | .. ]; case_tests; simpl; intros H; try reflexivity; exfalso; apply H; reflexivity).
Qed.

(** X1.  A result that is flagged as a deepfake never carries the threat
    level low, in any tuning and on either path.  In the aggressive and
    conservative tunings the converse holds too, so there "flagged" and
    "above low" are the same thing. *)
Theorem flagged_result_not_low (D : Detector) (ready : bool) (file : File) (rng : Rng)
        (r : DeepfakeDetectionResult) :
  In D detectors ->
  detectDeepfake D ready file rng = inr r ->
  (isDeepfake r = true -> threatLevel r <> low) /\
  (D = Aggressive.detector \/ D = Conservative.detector ->
   threatLevel r <> low -> isDeepfake r = true).
Proof.
  intros HD H. apply detect_inr in H. destruct H as [_ (c & a & _ & ->)]. simpl.
  split.
  - now apply flag_above_low.
  - now apply low_below_flag.
Qed.

Lemma flagged_result_not_low_witness :
  (isDeepfake (returned (detectDeepfake Aggressive.detector true noisyShot halfRng)) = true ->
   threatLevel (returned (detectDeepfake Aggressive.detector true noisyShot halfRng)) <> low) /\
  (Aggressive.detector = Aggressive.detector \/ Aggressive.detector = Conservative.detector ->
   threatLevel (returned (detectDeepfake Aggressive.detector true noisyShot halfRng)) <> low ->
   isDeepfake (returned (detectDeepfake Aggressive.detector true noisyShot halfRng)) = true).
Proof.
  apply (flagged_result_not_low Aggressive.detector true noisyShot halfRng).
  - left; reflexivity.
  - vm_compute. reflexivity.
Defined.

(** In the realistic tuning the converse fails: a confidence between 50 and
    60 with an artifact score above 50 is rated medium without being
    flagged. *)
Lemma Realistic_medium_without_flag (c : Q) (a : DetectionAnalysis) :
  50 < c -> c <= 60 -> (artifactDetection a >? 50) = true ->
  Realistic.calculateThreatLevel (Fin c) a = medium /\
  (Fin c >? Fin (decisionThreshold Realistic.detector)) = false.
Proof.
  intros H0 H1 Ha. open_ladders. rewrite Ha. hide_artifact_tests.
  simpl. unfold Js.gt, Js.lt. split_thresholds c c.
  case_tests; simpl; split; reflexivity.
Qed.

Ltac artifact_ladder c a1 a2 H :=
  destruct (artifactDetection a1) as [x | | |], (artifactDetection a2) as [y | | |];
  simpl in H; try discriminate H;
  destruct c as [z | | |]; unfold Js.gt, Js.lt;
  try (destruct (Qleb_spec x y) as [Hxy |]; [| discriminate H]; split_thresholds x y);
  repeat match goal with
         | |- context [Js.Qltb ?k ?z] => destruct (Js.Qltb k z)
         end;
  simpl; lia.

(** X2.  For one confidence, the threat level is monotone in the artifact
    score as well: a record with an artifact score at least as high never
    gets a lower level, in any tuning. *)
Theorem threat_level_monotone_in_artifact (D : Detector) (c : num)
        (a1 a2 : DetectionAnalysis) :
  In D detectors ->
  (artifactDetection a1 <=? artifactDetection a2) = true ->
  (severity (calculateThreatLevel D c a1) <= severity (calculateThreatLevel D c a2))%nat.
Proof.
  intros HD H. unfold detectors in HD. simpl in HD.
  destruct HD as [<- | [<- | [<- | []]]]; simpl; open_ladders; artifact_ladder c a1 a2 H.
Qed.

Lemma threat_level_monotone_in_artifact_witness :
  Nat.le (severity (calculateThreatLevel Conservative.detector 92
                      (mkAnalysis 40 100 60 70 92)))
         (severity (calculateThreatLevel Conservative.detector 92
                      (mkAnalysis 40 100 88 70 92))).
Proof.
  apply (threat_level_monotone_in_artifact Conservative.detector 92
           (mkAnalysis 40 100 60 70 92) (mkAnalysis 40 100 88 70 92)).
  - right; right; left; reflexivity.
  - reflexivity.
Defined.

(** X3.  Two ladders carry rules that can never decide.  In the realistic
    tuning the first rule (confidence above 90 with artifacts above 80) is
    covered by the second; in the conservative tuning the first rule is
    covered by the second and the third ("high" for a confidence above 85
    with artifacts above 80) by the fourth.  The ladders are therefore the
    shorter ones written here. *)
Theorem threat_ladders_shorter (c : num) (a : DetectionAnalysis) :
  Realistic.calculateThreatLevel c a
  = (if (c >? 85) || ((c >? 75) && (artifactDetection a >? 70)) then critical
     else if (c >? 75) || ((c >? 65) && (artifactDetection a >? 60)) then high
     else if (c >? 60) || ((c >? 50) && (artifactDetection a >? 50)) then medium
     else low) /\
  Conservative.calculateThreatLevel c a
  = (if (c >? 90) && (artifactDetection a >? 85) then critical
     else if c >? 80 then high
     else if c >? 75 then medium
     else low).
Proof.
  open_ladders.
  destruct (artifactDetection a) as [y | | |], c as [x | | |]; unfold Js.gt, Js.lt;
    try (split; reflexivity);
    try (split_thresholds x x);
    try (split_thresholds y y);
    repeat match goal with
           | |- context [Js.Qltb ?k ?z] => destruct (Js.Qltb k z)
           end;
    split; reflexivity.
Qed.

(* ------------------------------------------------------------------ *)
(** ** File names that decide on their own *)

Lemma clamp_above (k t : Q) :
  0 <= k -> k < 100 -> k < t -> (clamp (Fin t) >? Fin k) = true.
Proof.
  intros H0 H1 Ht. unfold clamp, Js.min, Js.max, Js.gt, Js.lt.
  destruct (Qltb_spec t 100); simpl;
    repeat match goal with
           | |- context [Js.Qltb ?a ?b] => destruct (Qltb_spec a b); simpl
           end;
    try reflexivity; exfalso; lra.
Qed.

(** The call has returned a clamped total; it remains to bound what the
    rules add to the starting score. *)
Ltac total_of_image :=
  cbv zeta;
  match goal with
  | |- inr (clamp (Fin (?p ?b)), _) = _ -> _ =>
      let A := fresh "A" in
      let L := fresh "L" in
      eassert (A : Adds p _ _) by adds;
      destruct A as [A L]; specialize (A b);
      let t := fresh "t" in
      set (t := p b) in *; clearbody t;
      let H := fresh in
      intros H; injection H as <- _;
      exists t; split; [reflexivity |];
      eval_minima
  end.

Lemma Aggressive_keyword_total (file : File) (rng : Rng) (c : num) (a : DetectionAnalysis) :
  unitDraws rng ->
  Js.includes (Js.toLowerCase (name file)) "fake" ||
  Js.includes (Js.toLowerCase (name file)) "generated" ||
  Js.includes (Js.toLowerCase (name file)) "ai" = true ->
  Aggressive.analyzeImage file rng = inr (c, a) ->
  exists t, c = clamp (Fin t) /\ 60 <= t.
Proof.
  intros Hrng Hname. pose proof (Hrng 0%nat) as [Hr0 Hr1].
  unfold Aggressive.analyzeImage, loadImage.
  destruct (media file) as [img | |]; try discriminate.
  rewrite Hname. total_of_image. lra.
Qed.

Lemma Realistic_keyword_total (file : File) (rng : Rng) (c : num) (a : DetectionAnalysis) :
  unitDraws rng ->
  Js.includes (Js.toLowerCase (name file)) "fake" ||
  Js.includes (Js.toLowerCase (name file)) "generated" ||
  Js.includes (Js.toLowerCase (name file)) "ai" = true ->
  Realistic.analyzeImage file rng = inr (c, a) ->
  exists t, c = clamp (Fin t) /\ 75 <= t.
Proof.
  intros Hrng Hname. pose proof (Hrng 0%nat) as [Hr0 Hr1].
  unfold Realistic.analyzeImage, loadImage.
  destruct (media file) as [img | |]; try discriminate.
  rewrite Hname. cbn [orb]. total_of_image. lra.
Qed.

(** X4.  In the aggressive and the realistic tuning the file name alone can
    decide: an image whose lower-cased name contains "fake", "generated" or
    "ai" (as in "Portrait.jpg") is flagged as a deepfake and rated above low,
    whatever its pixels, its size and the random draws. *)
Theorem keyword_name_flags_image (D : Detector) (file : File) (rng : Rng)
        (r : DeepfakeDetectionResult) :
  D = Aggressive.detector \/ D = Realistic.detector ->
  unitDraws rng ->
  Js.startsWith (type file) "image/" = true ->
  Js.includes (Js.toLowerCase (name file)) "fake" ||
  Js.includes (Js.toLowerCase (name file)) "generated" ||
  Js.includes (Js.toLowerCase (name file)) "ai" = true ->
  detectDeepfake D true file rng = inr r ->
  isDeepfake r = true /\ threatLevel r <> low.
Proof.
  intros HD Hrng Htype Hname H. apply detect_inr in H.
  destruct H as [_ (c & a & [[_ Hpath] | [Hno _]] & ->)]; [| congruence].
  cbn [isDeepfake threatLevel].
  assert (Hflag : (c >? Fin (decisionThreshold D)) = true).
  { destruct HD as [-> | ->]; simpl in Hpath |- *.
    - destruct (Aggressive_keyword_total file rng c a Hrng Hname Hpath) as (t & -> & Ht).
      apply clamp_above; lra.
    - destruct (Realistic_keyword_total file rng c a Hrng Hname Hpath) as (t & -> & Ht).
      apply clamp_above; lra. }
  split; [exact Hflag |].
  apply flag_above_low; [| exact Hflag].
  destruct HD as [-> | ->]; simpl; tauto.
Qed.

Lemma keyword_name_flags_image_witness :
  isDeepfake (returned (detectDeepfake Aggressive.detector true portraitPhoto halfRng)) = true /\
  threatLevel (returned (detectDeepfake Aggressive.detector true portraitPhoto halfRng)) <> low.
Proof.
  apply (keyword_name_flags_image Aggressive.detector portraitPhoto halfRng).
  - left; reflexivity.
  - intros k. unfold halfRng. split; lra.
  - reflexivity.
  - reflexivity.
  - vm_compute. reflexivity.
Defined.

(* ------------------------------------------------------------------ *)
(** ** The conservative temporal consistency never drops below 60 *)

Lemma notBelow_add (a b : Q) (x y : num) :
  notBelow a x -> notBelow b y -> notBelow (a + b) (x + y)%n.
Proof.
  destruct x, y; simpl; try tauto. intros; lra.
Qed.

Lemma notBelow_max (k : Q) (x : num) : notBelow k (Js.max (Fin k) x).
Proof.
  destruct x as [q | | |]; simpl; try exact I.
  - destruct (Qltb_spec k q); simpl; lra.
  - lra.
Qed.

Lemma notBelow_div (k : Q) (n : nat) (x : num) :
  (0 < n)%nat -> notBelow (k * inject_Z (Z.of_nat n)) x -> notBelow k (x / Js.of_nat n)%n.
Proof.
  intros Hn. assert (Hpos : 0 < inject_Z (Z.of_nat n)).
  { change 0 with (inject_Z 0). rewrite <- Zlt_Qlt. lia. }
  destruct x as [v | | |]; try (simpl; tauto).
  - rewrite div_of_nat by exact Hn. simpl. intros H.
    apply Qle_shift_div_l; assumption.
  - intros _. unfold Js.div, Js.of_nat. cbn [Js.sign Js.signed_inf].
    destruct (Qltb_spec (inject_Z (Z.of_nat n)) 0); [exfalso; lra | exact I].
Qed.

Lemma notBelow_lt (k k' : Q) (x : num) : notBelow k x -> k' <= k -> (x <? Fin k') = false.
Proof.
  destruct x as [q | | |]; simpl; try tauto; try reflexivity.
  intros H H'. destruct (Qltb_spec q k'); [exfalso; lra | reflexivity].
Qed.

Lemma Conservative_pairLoop_floor (l : list DetectionAnalysis) :
  forall (acc : num) (m : nat),
    notBelow (60 * inject_Z (Z.of_nat m)) acc ->
    notBelow (60 * inject_Z (Z.of_nat (m + (List.length l - 1))))
             (Conservative.pairLoop l acc).
Proof.
  induction l as [| prev [| curr rest] IH]; intros acc m H.
  - simpl. now rewrite Nat.add_0_r.
  - simpl. now rewrite Nat.add_0_r.
  - change (Conservative.pairLoop (prev :: curr :: rest) acc)
      with (Conservative.pairLoop (curr :: rest)
              (acc + Conservative.frameConsistency prev curr)%n).
    replace (m + (List.length (prev :: curr :: rest) - 1))%nat
      with (S m + (List.length (curr :: rest) - 1))%nat by (simpl; lia).
    apply IH. rewrite Nat2Z.inj_succ. unfold Z.succ. rewrite inject_Z_plus.
    change (inject_Z 1) with 1.
    assert (E : 60 * (inject_Z (Z.of_nat m) + 1) == 60 * inject_Z (Z.of_nat m) + 60) by ring.
    assert (Hs : notBelow (60 * inject_Z (Z.of_nat m) + 60)
                          (acc + Conservative.frameConsistency prev curr)%n).
    { apply notBelow_add; [exact H |]. unfold Conservative.frameConsistency. cbv zeta.
      apply notBelow_max. }
    destruct (acc + Conservative.frameConsistency prev curr)%n; simpl in Hs |- *;
      try tauto. lra.
Qed.

Lemma Conservative_temporal_floor (frameAnalyses : list DetectionAnalysis) :
  notBelow 60 (Conservative.calculateTemporalConsistency frameAnalyses).
Proof.
  unfold Conservative.calculateTemporalConsistency.
  destruct (Nat.ltb_spec (List.length frameAnalyses) 2) as [Hlen | Hlen].
  - simpl. lra.
  - cbv zeta. apply (notBelow_div 60); [lia |].
    apply (Conservative_pairLoop_floor frameAnalyses 0 0%nat).
    unfold notBelow. change (inject_Z (Z.of_nat 0)) with 0. lra.
Qed.

(** X5.  Whatever the frame analyses hold (NaN and infinities included), the
    conservative temporal consistency is never below 60: every pair of
    frames contributes [Math.max(60, ...)] and the single-frame default is
    90.  The two rules of its [analyzeVideo] that test it against 40 and
    against 25 can therefore never add to the score. *)
Theorem conservative_temporal_never_below (frameAnalyses : list DetectionAnalysis) (k : Q) :
  k <= 60 ->
  (Conservative.calculateTemporalConsistency frameAnalyses <? Fin k) = false.
Proof.
  intros Hk. apply (notBelow_lt 60); [apply Conservative_temporal_floor | exact Hk].
Qed.

Lemma conservative_temporal_never_below_witness :
  (Conservative.calculateTemporalConsistency
     [mkAnalysis 0 0 0 0 0; mkAnalysis 100 0 100 100 0; mkAnalysis 0 0 0 0 0] <? Fin 40) = false.
Proof.
  apply (conservative_temporal_never_below
           [mkAnalysis 0 0 0 0 0; mkAnalysis 100 0 100 100 0; mkAnalysis 0 0 0 0 0] 40).
  lra.
Defined.

(* ------------------------------------------------------------------ *)
(** ** Range of the temporal consistency *)

Section PairLoops.

Variable frameConsistency : DetectionAnalysis -> DetectionAnalysis -> num.
Variable pairLoop : list DetectionAnalysis -> num -> num.
Hypothesis pairLoop_short : forall l acc, (List.length l < 2)%nat -> pairLoop l acc = acc.
Hypothesis pairLoop_step : forall prev curr rest acc,
  pairLoop (prev :: curr :: rest) acc
  = pairLoop (curr :: rest) (acc + frameConsistency prev curr)%n.

Variable admissible : DetectionAnalysis -> Prop.
Variable stepRange : Q -> Prop.
Variable sumRange : nat -> Q -> Prop.
Hypothesis frameConsistency_range : forall prev curr,
  admissible prev -> admissible curr ->
  exists y, frameConsistency prev curr = Fin y /\ stepRange y.
Hypothesis sumRange_step : forall m x y,
  sumRange m x -> stepRange y -> sumRange (S m) (x + y).

Lemma pairLoop_range (l : list DetectionAnalysis) :
  forall (m : nat) (x : Q),
    Forall admissible l -> sumRange m x ->
    exists y, pairLoop l (Fin x) = Fin y /\ sumRange (m + (List.length l - 1)) y.
Proof.
  induction l as [| prev [| curr rest] IH]; intros m x Hl Hx.
  - rewrite pairLoop_short by (simpl; lia). exists x. now rewrite Nat.add_0_r.
  - rewrite pairLoop_short by (simpl; lia). exists x. now rewrite Nat.add_0_r.
  - rewrite pairLoop_step.
    inversion Hl as [| ? ? Hprev Hrest]; subst.
    inversion Hrest as [| ? ? Hcurr _]; subst.
    destruct (frameConsistency_range prev curr Hprev Hcurr) as (y & -> & Hy).
    replace (m + (List.length (prev :: curr :: rest) - 1))%nat
      with (S m + (List.length (curr :: rest) - 1))%nat by (simpl; lia).
    apply (IH (S m) (x + y)); [exact Hrest |]. now apply sumRange_step.
Qed.

End PairLoops.

Lemma Qabs_self (z : Q) : Qabs (z + - z) == 0.
Proof. setoid_replace (z + - z) with 0 by ring. reflexivity. Qed.

Ltac finite_pair Hp Hc :=
  destruct Hp as (f1 & a1 & q1 & Hp), Hc as (f2 & a2 & q2 & Hc);
  unfold comparedSignals in Hp, Hc;
  injection Hp as Hp1 Hp2 Hp3; injection Hc as Hc1 Hc2 Hc3.

Lemma Aggressive_frameConsistency_range (prev curr : DetectionAnalysis) :
  finiteSignals prev -> finiteSignals curr ->
  exists y, Aggressive.frameConsistency prev curr = Fin y /\ y <= 100.
Proof.
  intros Hp Hc. finite_pair Hp Hc.
  unfold Aggressive.frameConsistency. rewrite Hp1, Hp2, Hp3, Hc1, Hc2, Hc3.
  cbn [Js.sub Js.add Js.neg Js.abs Js.div]. change (Qeq_bool 3 0) with false. cbv iota.
  eexists. split; [reflexivity |].
  pose proof (Qabs_nonneg (f1 + - f2)). pose proof (Qabs_nonneg (a1 + - a2)).
  pose proof (Qabs_nonneg (q1 + - q2)).
  set (s := Qabs (f1 + - f2) + Qabs (a1 + - a2) + Qabs (q1 + - q2)) in *.
  assert (E : 3 * (s / 3) == s) by (field; discriminate).
  set (t := s / 3) in *. unfold s in *. lra.
Qed.

Lemma Realistic_frameConsistency_range (prev curr : DetectionAnalysis) :
  finiteSignals prev -> finiteSignals curr ->
  exists y, Realistic.frameConsistency prev curr = Fin y /\ 0 <= y <= 100.
Proof.
  intros Hp Hc. finite_pair Hp Hc.
  unfold Realistic.frameConsistency. rewrite Hp1, Hp2, Hp3, Hc1, Hc2, Hc3.
  cbn [Js.sub Js.add Js.neg Js.abs Js.mul Js.max Js.lt].
  pose proof (Qabs_nonneg (f1 + - f2)). pose proof (Qabs_nonneg (a1 + - a2)).
  pose proof (Qabs_nonneg (q1 + - q2)).
  match goal with |- context [Js.Qltb ?a ?b] => destruct (Qltb_spec a b) end;
    (eexists; split; [reflexivity | lra]).
Qed.

Lemma Conservative_frameConsistency_range (prev curr : DetectionAnalysis) :
  finiteSignals prev -> finiteSignals curr ->
  exists y, Conservative.frameConsistency prev curr = Fin y /\ 60 <= y <= 100.
Proof.
  intros Hp Hc. finite_pair Hp Hc.
  unfold Conservative.frameConsistency. rewrite Hp1, Hp2, Hp3, Hc1, Hc2, Hc3.
  cbn [Js.sub Js.add Js.neg Js.abs Js.mul Js.div Js.max Js.lt].
  change (Qeq_bool 2 0) with false. cbv iota.
  cbn [Js.sub Js.add Js.neg Js.max Js.lt].
  pose proof (Qabs_nonneg (f1 + - f2)). pose proof (Qabs_nonneg (a1 + - a2)).
  pose proof (Qabs_nonneg (q1 + - q2)).
  set (s := Qabs (f1 + - f2) * 0.3 + Qabs (a1 + - a2) * 0.3 + Qabs (q1 + - q2) * 0.1) in *.
  assert (E : 2 * (s / 2) == s) by (field; discriminate).
  set (t := s / 2) in *.
  match goal with |- context [Js.Qltb ?a ?b] => destruct (Qltb_spec a b) end;
    (eexists; split; [reflexivity | unfold s in *; lra]).
Qed.

Lemma pairs_positive (n : nat) : (2 <= n)%nat -> 0 < inject_Z (Z.of_nat (n - 1)).
Proof. intros H. change 0 with (inject_Z 0). rewrite <- Zlt_Qlt. lia. Qed.

Lemma succ_inject (m : nat) : inject_Z (Z.of_nat (S m)) == inject_Z (Z.of_nat m) + 1.
Proof.
  rewrite Nat2Z.inj_succ. unfold Z.succ. rewrite inject_Z_plus. reflexivity.
Qed.

Lemma mean_in_range (lo hi y n : Q) :
  0 < n -> lo * n <= y -> y <= hi * n -> lo <= y / n /\ y / n <= hi.
Proof.
  intros Hn H0 H1. split.
  - apply Qle_shift_div_l; assumption.
  - apply Qle_shift_div_r; assumption.
Qed.

(** X6.  On frame analyses whose face, artifact and quality scores are
    finite numbers, the temporal consistency is a finite number in
    [[0, 100]] in the aggressive and realistic tunings and in [[60, 100]] in
    the conservative one, however many frames there are. *)
Theorem temporal_consistency_range (frameAnalyses : list DetectionAnalysis) :
  Forall finiteSignals frameAnalyses ->
  Js.within 0 100 (Aggressive.calculateTemporalConsistency frameAnalyses) /\
  Js.within 0 100 (Realistic.calculateTemporalConsistency frameAnalyses) /\
  Js.within 60 100 (Conservative.calculateTemporalConsistency frameAnalyses).
Proof.
  intros Hl.
  unfold Aggressive.calculateTemporalConsistency, Realistic.calculateTemporalConsistency,
         Conservative.calculateTemporalConsistency.
  destruct (Nat.ltb_spec (List.length frameAnalyses) 2) as [Hlen | Hlen].
  - simpl. repeat split; lra.
  - cbv zeta. pose proof (pairs_positive _ Hlen) as Hn.
    split; [| split].
    + destruct (pairLoop_range Aggressive.frameConsistency Aggressive.pairLoop
                  ltac:(intros [| a [| b l]] acc H; simpl in H; try lia; reflexivity)
                  ltac:(reflexivity)
                  finiteSignals (fun y => y <= 100)
                  (fun m x => x <= 100 * inject_Z (Z.of_nat m))
                  Aggressive_frameConsistency_range
                  ltac:(intros m x y Hx Hy; pose proof (succ_inject m); cbv beta in *; lra)
                  frameAnalyses 0%nat 0 Hl
                  ltac:(cbv beta; change (inject_Z (Z.of_nat 0)) with 0; lra)) as (y & -> & Hy).
      cbn [Nat.add] in Hy. rewrite div_of_nat by lia.
      assert (Hq : y / inject_Z (Z.of_nat (List.length frameAnalyses - 1)) <= 100).
      { apply Qle_shift_div_r; assumption. }
      cbn [Js.max Js.lt].
      match goal with |- context [Js.Qltb ?a ?b] => destruct (Qltb_spec a b) end;
        simpl; lra.
    + destruct (pairLoop_range Realistic.frameConsistency Realistic.pairLoop
                  ltac:(intros [| a [| b l]] acc H; simpl in H; try lia; reflexivity)
                  ltac:(reflexivity)
                  finiteSignals (fun y => 0 <= y <= 100)
                  (fun m x => 0 * inject_Z (Z.of_nat m) <= x /\ x <= 100 * inject_Z (Z.of_nat m))
                  Realistic_frameConsistency_range
                  ltac:(intros m x y Hx Hy; pose proof (succ_inject m); cbv beta in *; lra)
                  frameAnalyses 0%nat 0 Hl
                  ltac:(cbv beta; change (inject_Z (Z.of_nat 0)) with 0; lra)) as (y & -> & Hy).
      cbn [Nat.add] in Hy. rewrite div_of_nat by lia. simpl.
      apply mean_in_range; tauto.
    + destruct (pairLoop_range Conservative.frameConsistency Conservative.pairLoop
                  ltac:(intros [| a [| b l]] acc H; simpl in H; try lia; reflexivity)
                  ltac:(reflexivity)
                  finiteSignals (fun y => 60 <= y <= 100)
                  (fun m x => 60 * inject_Z (Z.of_nat m) <= x /\ x <= 100 * inject_Z (Z.of_nat m))
                  Conservative_frameConsistency_range
                  ltac:(intros m x y Hx Hy; pose proof (succ_inject m); cbv beta in *; lra)
                  frameAnalyses 0%nat 0 Hl
                  ltac:(cbv beta; change (inject_Z (Z.of_nat 0)) with 0; lra)) as (y & -> & Hy).
      cbn [Nat.add] in Hy. rewrite div_of_nat by lia. simpl.
      apply mean_in_range; tauto.
Qed.

Lemma temporal_consistency_range_witness :
  Js.within 0 100 (Aggressive.calculateTemporalConsistency
                     [mkAnalysis 10 0 20 30 0; mkAnalysis 90 0 60 20 0; mkAnalysis 40 0 0 80 0]) /\
  Js.within 0 100 (Realistic.calculateTemporalConsistency
                     [mkAnalysis 10 0 20 30 0; mkAnalysis 90 0 60 20 0; mkAnalysis 40 0 0 80 0]) /\
  Js.within 60 100 (Conservative.calculateTemporalConsistency
                      [mkAnalysis 10 0 20 30 0; mkAnalysis 90 0 60 20 0; mkAnalysis 40 0 0 80 0]).
Proof.
  apply (temporal_consistency_range
           [mkAnalysis 10 0 20 30 0; mkAnalysis 90 0 60 20 0; mkAnalysis 40 0 0 80 0]).
  repeat (apply Forall_cons; [do 3 eexists; reflexivity |]). apply Forall_nil.
Defined.

(* ------------------------------------------------------------------ *)
(** ** Videos whose frames all look the same *)

Ltac steady_pair Hp Hc :=
  unfold comparedSignals in Hp, Hc;
  injection Hp as Hp1 Hp2 Hp3; injection Hc as Hc1 Hc2 Hc3.

Lemma Aggressive_frameConsistency_steady (f ar q : Q) (prev curr : DetectionAnalysis) :
  comparedSignals prev = (Fin f, Fin ar, Fin q) ->
  comparedSignals curr = (Fin f, Fin ar, Fin q) ->
  exists y, Aggressive.frameConsistency prev curr = Fin y /\ y == 100.
Proof.
  intros Hp Hc. steady_pair Hp Hc.
  unfold Aggressive.frameConsistency. rewrite Hp1, Hp2, Hp3, Hc1, Hc2, Hc3.
  cbn [Js.sub Js.add Js.neg Js.abs Js.div]. change (Qeq_bool 3 0) with false. cbv iota.
  eexists. split; [reflexivity |].
  rewrite !Qabs_self. field.
Qed.

Lemma Realistic_frameConsistency_steady (f ar q : Q) (prev curr : DetectionAnalysis) :
  comparedSignals prev = (Fin f, Fin ar, Fin q) ->
  comparedSignals curr = (Fin f, Fin ar, Fin q) ->
  exists y, Realistic.frameConsistency prev curr = Fin y /\ y == 100.
Proof.
  intros Hp Hc. steady_pair Hp Hc.
  unfold Realistic.frameConsistency. rewrite Hp1, Hp2, Hp3, Hc1, Hc2, Hc3.
  cbn [Js.sub Js.add Js.neg Js.abs Js.mul Js.max Js.lt].
  pose proof (Qabs_self f) as Ef. pose proof (Qabs_self ar) as Ea.
  pose proof (Qabs_self q) as Eq.
  match goal with |- context [Js.Qltb ?a ?b] => destruct (Qltb_spec a b) end;
    (eexists; split; [reflexivity | lra]).
Qed.

Lemma Conservative_frameConsistency_steady (f ar q : Q) (prev curr : DetectionAnalysis) :
  comparedSignals prev = (Fin f, Fin ar, Fin q) ->
  comparedSignals curr = (Fin f, Fin ar, Fin q) ->
  exists y, Conservative.frameConsistency prev curr = Fin y /\ y == 100.
Proof.
  intros Hp Hc. steady_pair Hp Hc.
  unfold Conservative.frameConsistency. rewrite Hp1, Hp2, Hp3, Hc1, Hc2, Hc3.
  cbn [Js.sub Js.add Js.neg Js.abs Js.mul Js.div Js.max Js.lt].
  change (Qeq_bool 2 0) with false. cbv iota.
  cbn [Js.sub Js.add Js.neg Js.max Js.lt].
  pose proof (Qabs_self f) as Ef. pose proof (Qabs_self ar) as Ea.
  pose proof (Qabs_self q) as Eq.
  set (s := Qabs (f + - f) * 0.3 + Qabs (ar + - ar) * 0.3 + Qabs (q + - q) * 0.1) in *.
  assert (E : 2 * (s / 2) == s) by (field; discriminate).
  set (t := s / 2) in *.
  match goal with |- context [Js.Qltb ?a ?b] => destruct (Qltb_spec a b) end;
    (eexists; split; [reflexivity | unfold s in *; lra]).
Qed.

Lemma mean_of_hundreds (y n : Q) : 0 < n -> y == 100 * n -> y / n == 100.
Proof. intros Hn ->. field. lra. Qed.

Lemma steady_temporal_consistency (f ar q : Q) (l : list DetectionAnalysis) :
  Forall (fun a => comparedSignals a = (Fin f, Fin ar, Fin q)) l ->
  (2 <= List.length l)%nat ->
  Js.eqn (Aggressive.calculateTemporalConsistency l) (Fin 100) /\
  Js.eqn (Realistic.calculateTemporalConsistency l) (Fin 100) /\
  Js.eqn (Conservative.calculateTemporalConsistency l) (Fin 100).
Proof.
  intros Hl Hlen.
  unfold Aggressive.calculateTemporalConsistency, Realistic.calculateTemporalConsistency,
         Conservative.calculateTemporalConsistency.
  destruct (Nat.ltb_spec (List.length l) 2) as [Hlt | _]; [lia |].
  cbv zeta. pose proof (pairs_positive _ Hlen) as Hn.
  split; [| split].
  - destruct (pairLoop_range Aggressive.frameConsistency Aggressive.pairLoop
                ltac:(intros [| a [| b l']] acc H; simpl in H; try lia; reflexivity)
                ltac:(reflexivity)
                (fun a => comparedSignals a = (Fin f, Fin ar, Fin q)) (fun y => y == 100)
                (fun m x => x == 100 * inject_Z (Z.of_nat m))
                (Aggressive_frameConsistency_steady f ar q)
                ltac:(intros m x y Hx Hy; pose proof (succ_inject m); cbv beta in *; lra)
                l 0%nat 0 Hl
                ltac:(cbv beta; change (inject_Z (Z.of_nat 0)) with 0; lra)) as (y & -> & Hy).
    cbn [Nat.add] in Hy. rewrite div_of_nat by lia.
    pose proof (mean_of_hundreds _ _ Hn Hy) as E.
    cbn [Js.max Js.lt].
    match goal with |- context [Js.Qltb ?a ?b] => destruct (Qltb_spec a b) end;
      simpl; lra.
  - destruct (pairLoop_range Realistic.frameConsistency Realistic.pairLoop
                ltac:(intros [| a [| b l']] acc H; simpl in H; try lia; reflexivity)
                ltac:(reflexivity)
                (fun a => comparedSignals a = (Fin f, Fin ar, Fin q)) (fun y => y == 100)
                (fun m x => x == 100 * inject_Z (Z.of_nat m))
                (Realistic_frameConsistency_steady f ar q)
                ltac:(intros m x y Hx Hy; pose proof (succ_inject m); cbv beta in *; lra)
                l 0%nat 0 Hl
                ltac:(cbv beta; change (inject_Z (Z.of_nat 0)) with 0; lra)) as (y & -> & Hy).
    cbn [Nat.add] in Hy. rewrite div_of_nat by lia. simpl.
    now apply mean_of_hundreds.
  - destruct (pairLoop_range Conservative.frameConsistency Conservative.pairLoop
                ltac:(intros [| a [| b l']] acc H; simpl in H; try lia; reflexivity)
                ltac:(reflexivity)
                (fun a => comparedSignals a = (Fin f, Fin ar, Fin q)) (fun y => y == 100)
                (fun m x => x == 100 * inject_Z (Z.of_nat m))
                (Conservative_frameConsistency_steady f ar q)
                ltac:(intros m x y Hx Hy; pose proof (succ_inject m); cbv beta in *; lra)
                l 0%nat 0 Hl
                ltac:(cbv beta; change (inject_Z (Z.of_nat 0)) with 0; lra)) as (y & -> & Hy).
    cbn [Nat.add] in Hy. rewrite div_of_nat by lia. simpl.
    now apply mean_of_hundreds.
Qed.

(** The frame loop of [analyzeVideo] records, frame by frame, the three
    compared signals of the frames. *)
Lemma Aggressive_frames_signals (rng : Rng) (frames : list Image) :
  forall st,
    map comparedSignals (snd (fst (fold_left (Aggressive.frameStep rng) frames st)))
    = (map comparedSignals (snd (fst st)) ++ map frameSignals frames)%list.
Proof.
  induction frames as [| frame frames IH]; intros [[t fa] k]; cbn [fold_left].
  - cbn [map]. now rewrite app_nil_r.
  - rewrite IH. unfold Aggressive.frameStep. cbv zeta. cbn [fst snd].
    rewrite map_app, <- app_assoc. reflexivity.
Qed.

Lemma Realistic_frames_signals (frames : list Image) :
  forall st,
    map comparedSignals (snd (fold_left Realistic.frameStep frames st))
    = (map comparedSignals (snd st) ++ map frameSignals frames)%list.
Proof.
  induction frames as [| frame frames IH]; intros [t fa]; cbn [fold_left].
  - cbn [map]. now rewrite app_nil_r.
  - rewrite IH. unfold Realistic.frameStep. cbv zeta. cbn [fst snd].
    rewrite map_app, <- app_assoc. reflexivity.
Qed.

Lemma Conservative_frames_signals (frames : list Image) :
  forall st,
    map comparedSignals (snd (fold_left Conservative.frameStep frames st))
    = (map comparedSignals (snd st) ++ map frameSignals frames)%list.
Proof.
  induction frames as [| frame frames IH]; intros [t fa]; cbn [fold_left].
  - cbn [map]. now rewrite app_nil_r.
  - rewrite IH. unfold Conservative.frameStep. cbv zeta. cbn [fst snd].
    rewrite map_app, <- app_assoc. reflexivity.
Qed.

(** What the video path reports as temporal consistency is the tuning's
    computation on five frame analyses that mirror the five sampled
    frames. *)
Lemma video_temporal_anatomy (D : Detector) (file : File) (v : Video) (rng : Rng)
      (c : num) (a : DetectionAnalysis) :
  In D detectors ->
  media file = IsVideo v ->
  analyzeVideo D file rng = inr (c, a) ->
  exists fa,
    map comparedSignals fa
    = map frameSignals
          (map (frameAt v) (timesFrom 5 0 (duration v / inject_Z (Z.of_nat 5)))) /\
    ((D = Aggressive.detector /\
      temporalConsistency a = Aggressive.calculateTemporalConsistency fa) \/
     (D = Realistic.detector /\
      temporalConsistency a = Realistic.calculateTemporalConsistency fa) \/
     (D = Conservative.detector /\
      temporalConsistency a = Conservative.calculateTemporalConsistency fa)).
Proof.
  intros HD Hm. unfold detectors in HD. simpl in HD.
  destruct HD as [<- | [<- | [<- | []]]]; simpl;
    unfold Aggressive.analyzeVideo, Realistic.analyzeVideo, Conservative.analyzeVideo,
           ImageProcessor.extractFramesFromVideo;
    rewrite Hm, captureTimes_spec by lia.
  - match goal with
    | |- context [fold_left ?f ?l ?i] =>
        pose proof (Aggressive_frames_signals rng l i) as Hfold;
        destruct (fold_left f l i) as [[t fa] k]
    end.
    cbn [fst snd map app] in Hfold. intros H. injection H as _ <-.
    exists fa. split; [exact Hfold | left; split; reflexivity].
  - match goal with
    | |- context [fold_left ?f ?l ?i] =>
        pose proof (Realistic_frames_signals l i) as Hfold;
        destruct (fold_left f l i) as [t fa]
    end.
    cbn [fst snd map app] in Hfold. intros H. injection H as _ <-.
    exists fa. split; [exact Hfold | right; left; split; reflexivity].
  - match goal with
    | |- context [fold_left ?f ?l ?i] =>
        pose proof (Conservative_frames_signals l i) as Hfold;
        destruct (fold_left f l i) as [t fa]
    end.
    cbn [fst snd map app] in Hfold. intros H. injection H as _ <-.
    exists fa. split; [exact Hfold | right; right; split; reflexivity].
Qed.

Lemma image_path_needs_image (D : Detector) (file : File) (v : Video) (rng : Rng)
      (c : num) (a : DetectionAnalysis) :
  In D detectors -> media file = IsVideo v -> analyzeImage D file rng <> inr (c, a).
Proof.
  intros HD Hm. unfold detectors in HD. simpl in HD.
  destruct HD as [<- | [<- | [<- | []]]]; simpl;
    unfold Aggressive.analyzeImage, Realistic.analyzeImage, Conservative.analyzeImage,
           loadImage;
    rewrite Hm; discriminate.
Qed.

(** X7.  A video whose sampled frames all return the same finite face,
    artifact and quality scores is reported with a temporal consistency of
    100 by every tuning: five frames are always compared, so the
    single-frame default (90 in the conservative tuning) is never what a
    video gets. *)
Theorem steady_video_temporal_consistency (D : Detector) (file : File) (v : Video)
        (rng : Rng) (r : DeepfakeDetectionResult) (f ar q : Q) :
  In D detectors ->
  media file = IsVideo v ->
  (forall t, frameSignals (frameAt v t) = (Fin f, Fin ar, Fin q)) ->
  detectDeepfake D true file rng = inr r ->
  Js.eqn (temporalConsistency (analysis r)) (Fin 100).
Proof.
  intros HD Hm Hsteady H. apply detect_inr in H.
  destruct H as [_ (c & a & [[_ Hpath] | (_ & _ & Hpath)] & ->)].
  - exfalso. exact (image_path_needs_image D file v rng c a HD Hm Hpath).
  - cbn [analysis].
    destruct (video_temporal_anatomy D file v rng c a HD Hm Hpath) as (fa & Hfa & Htc).
    assert (Hall : Forall (fun x => comparedSignals x = (Fin f, Fin ar, Fin q)) fa).
    { apply Forall_forall. intros x Hx.
      apply (in_map comparedSignals) in Hx. rewrite Hfa in Hx.
      apply in_map_iff in Hx. destruct Hx as (frame & <- & Hframe).
      apply in_map_iff in Hframe. destruct Hframe as (t & <- & _). apply Hsteady. }
    assert (Hlen : (2 <= List.length fa)%nat).
    { rewrite <- (length_map comparedSignals), Hfa, !length_map, timesFrom_length. lia. }
    destruct (steady_temporal_consistency f ar q fa Hall Hlen) as (HA & HR & HC).
    destruct Htc as [[_ ->] | [[_ ->] | [_ ->]]]; assumption.
Qed.

Lemma steady_video_temporal_consistency_witness :
  Js.eqn (temporalConsistency
            (analysis (returned (detectDeepfake Conservative.detector true holidayClip halfRng))))
         (Fin 100).
Proof.
  apply (steady_video_temporal_consistency Conservative.detector holidayClip
           (mkVideo 10 (fun _ => mkImage 64 64 calmSignals)) halfRng _ 40 10 70).
  - right; right; left; reflexivity.
  - reflexivity.
  - intros t. reflexivity.
  - vm_compute. reflexivity.
Defined.

(* ------------------------------------------------------------------ *)
(** ** Upper bounds on what score statements add *)

Lemma caps_incr (k : Q) : Caps (Score.incr k) k k.
Proof. split; [intros s; reflexivity | lra]. Qed.

Lemma caps_decr (k : Q) : Caps (Score.decr k) (- k) (- k).
Proof. split; [intros s; unfold Score.decr; ring | lra]. Qed.

Lemma caps_skip : Caps Score.skip 0 0.
Proof. split; [intros s; unfold Score.skip; ring | lra]. Qed.

Lemma caps_seq (a b : Score.stmt) (da ha db hb : Q) :
  Caps a da ha -> Caps b db hb -> Caps (Score.seq a b) (da + db) (ha + hb).
Proof.
  intros [Ha La] [Hb Lb]. split; [| lra].
  intros s. unfold Score.seq. rewrite Hb, Ha. ring.
Qed.

Lemma caps_cond_true (a b : Score.stmt) (da ha : Q) :
  Caps a da ha -> Caps (Score.cond true a b) da ha.
Proof. intros H. exact H. Qed.

Lemma caps_cond_false (a b : Score.stmt) (db hb : Q) :
  Caps b db hb -> Caps (Score.cond false a b) db hb.
Proof. intros H. exact H. Qed.

Lemma caps_cond (c : bool) (a b : Score.stmt) (da ha db hb : Q) :
  Caps a da ha -> Caps b db hb ->
  Caps (Score.cond c a b) (if c then da else db) (Qmax ha hb).
Proof.
  intros [Ha La] [Hb Lb]. destruct c; (split; [assumption |]).
  - pose proof (Q.le_max_l ha hb). lra.
  - pose proof (Q.le_max_r ha hb). lra.
Qed.

Ltac caps :=
  repeat match goal with
         | |- Caps (Score.incr _) _ _ => apply caps_incr
         | |- Caps (Score.decr _) _ _ => apply caps_decr
         | |- Caps Score.skip _ _ => apply caps_skip
         | |- Caps (Score.seq _ _) _ _ => eapply caps_seq
         | |- Caps (Score.cond true _ _) _ _ => eapply caps_cond_true
         | |- Caps (Score.cond false _ _) _ _ => eapply caps_cond_false
         | |- Caps (Score.cond _ _ _) _ _ => eapply caps_cond
         end.

Ltac eval_maxima :=
  repeat match goal with
         | H : context [Qmax ?a ?b] |- _ =>
             let v := eval vm_compute in (Qmax a b) in
             change (Qmax a b) with v in H
         end.

Lemma clamp_not_above (k t : Q) :
  0 <= k -> t <= k -> (clamp (Fin t) >? Fin k) = false.
Proof.
  intros H0 Ht. unfold clamp, Js.min, Js.max, Js.gt, Js.lt.
  destruct (Qltb_spec t 100); simpl;
    repeat match goal with
           | |- context [Js.Qltb ?a ?b] => destruct (Qltb_spec a b); simpl
           end;
    try reflexivity; exfalso; lra.
Qed.

(* ------------------------------------------------------------------ *)
(** ** Conservative videos without a frame alarm *)

Lemma Conservative_quiet_total (frames : list Image) :
  forallb quietFrame frames = true ->
  forall st, fst (fold_left Conservative.frameStep frames st) == fst st.
Proof.
  induction frames as [| frame frames IH]; intros Hq st; cbn [fold_left].
  - reflexivity.
  - cbn [forallb] in Hq. apply andb_true_iff in Hq. destruct Hq as [Hframe Hrest].
    rewrite (IH Hrest). destruct st as [t fa].
    unfold quietFrame in Hframe. cbv zeta in Hframe.
    repeat (apply andb_true_iff in Hframe; destruct Hframe as [Hframe ?]).
    repeat match goal with H : negb _ = true |- _ => apply negb_true_iff in H end.
    unfold Conservative.frameStep. cbv zeta. cbn [fst].
    repeat match goal with H : _ = false |- _ => rewrite H; clear H end.
    unfold Score.seq, Score.cond, Score.skip. ring.
Qed.

(** X8.  In the conservative tuning a video on whose sampled frames no
    frame rule fires is never flagged and is always rated low, whatever its
    name, its duration and the draws in [[0, 1)]: the name and duration
    bonuses are divided by the five frames, and the temporal rules cannot
    fire, so the confidence stays below 18. *)
Theorem conservative_quiet_video_not_flagged (file : File) (v : Video) (rng : Rng)
        (r : DeepfakeDetectionResult) :
  unitDraws rng ->
  media file = IsVideo v ->
  (forall t, quietFrame (frameAt v t) = true) ->
  detectDeepfake Conservative.detector true file rng = inr r ->
  isDeepfake r = false /\ threatLevel r = low /\ (confidence r >? 18) = false.
Proof.
  intros Hrng Hm Hquiet H. apply detect_inr in H.
  destruct H as [_ (c & a & [[_ Hpath] | (_ & _ & Hpath)] & ->)].
  - exfalso. revert Hpath. simpl. unfold Conservative.analyzeImage, loadImage.
    rewrite Hm. discriminate.
  - cbn [isDeepfake threatLevel confidence].
    assert (Hc : exists t, c = clamp (Fin t) /\ t <= 18).
    { revert Hpath. simpl.
      pose proof (Hrng 0%nat) as [Hr0 Hr1].
      unfold Conservative.analyzeVideo, ImageProcessor.extractFramesFromVideo,
        getVideoDuration.
      rewrite Hm, captureTimes_spec by lia.
      rewrite length_map, timesFrom_length.
      match goal with
      | |- context [fold_left ?f ?l ?i] =>
          assert (Hfold : fst (fold_left f l i) == fst i)
            by (apply Conservative_quiet_total; apply forallb_forall;
                intros frame Hin; apply in_map_iff in Hin;
                destruct Hin as (t & <- & _); apply Hquiet);
          destruct (fold_left f l i) as [t fa]
      end.
      cbn [fst] in Hfold. rewrite !div_of_nat by lia.
      rewrite !(notBelow_lt 60 _ _ (Conservative_temporal_floor fa)) by lra.
      cbv zeta.
      match goal with
      | |- inr (clamp (Fin (?p ?b / ?n)), _) = _ -> _ =>
          change n with 5;
          let A := fresh "A" in
          eassert (A : Caps p _ _) by caps;
          destruct A as [A L]; specialize (A b);
          set (total := p b) in *; clearbody total;
          intros H; injection H as <- _;
          exists (total / 5); split; [reflexivity |];
          eval_maxima
      end.
      apply Qle_shift_div_r; lra. }
    destruct Hc as (t & -> & Ht).
    assert (Hflag : (clamp (Fin t) >? Fin (decisionThreshold Conservative.detector)) = false)
      by (apply clamp_not_above; simpl; lra).
    split; [exact Hflag |]. split.
    + destruct (calculateThreatLevel Conservative.detector (clamp (Fin t)) a) eqn:E;
        [reflexivity | exfalso ..];
        (assert (Hno : calculateThreatLevel Conservative.detector (clamp (Fin t)) a <> low)
           by (rewrite E; discriminate);
         apply (low_below_flag Conservative.detector) in Hno; [congruence | tauto]).
    + apply clamp_not_above; lra.
Qed.

Lemma conservative_quiet_video_not_flagged_witness :
  isDeepfake (returned (detectDeepfake Conservative.detector true
                          (mkFile "deepfake_generated.mp4" "video/mp4" 2000000
                                  (media holidayClip)) halfRng)) = false /\
  threatLevel (returned (detectDeepfake Conservative.detector true
                           (mkFile "deepfake_generated.mp4" "video/mp4" 2000000
                                   (media holidayClip)) halfRng)) = low /\
  (confidence (returned (detectDeepfake Conservative.detector true
                           (mkFile "deepfake_generated.mp4" "video/mp4" 2000000
                                   (media holidayClip)) halfRng)) >? 18) = false.
Proof.
  apply (conservative_quiet_video_not_flagged
           (mkFile "deepfake_generated.mp4" "video/mp4" 2000000 (media holidayClip))
           (mkVideo 10 (fun _ => mkImage 64 64 calmSignals)) halfRng).
  - intros k. unfold halfRng. split; lra.
  - reflexivity.
  - intros t. reflexivity.
  - vm_compute. reflexivity.
Defined.

(* ------------------------------------------------------------------ *)
(** ** Where the capture times lie *)




(* ------------------------------------------------------------------ *)
(** ** Ranges of the edge and face extractors *)

Lemma ratio_in_unit (c t : Z) :
  (0 <= c <= t)%Z -> (0 < t)%Z ->
  0 <= inject_Z c / inject_Z t /\ inject_Z c / inject_Z t <= 1.
Proof.
  intros Hc Ht.
  assert (H0 : 0 <= inject_Z c) by (change 0 with (inject_Z 0); rewrite <- Zle_Qle; lia).
  assert (H1 : inject_Z c <= inject_Z t) by (rewrite <- Zle_Qle; lia).
  assert (H2 : 0 < inject_Z t) by (change 0 with (inject_Z 0); rewrite <- Zlt_Qlt; lia).
  split.
  - apply Qle_shift_div_l; lra.
  - apply Qle_shift_div_r; lra.
Qed.

Lemma percentage_in_range (c t : Z) :
  (0 <= c <= t)%Z -> (0 < t)%Z -> Js.within 0 100 (ofZ c / ofZ t * 100)%n.
Proof.
  intros Hc Ht. unfold ofZ at 1. rewrite div_ofZ by exact Ht.
  destruct (ratio_in_unit c t Hc Ht). simpl. lra.
Qed.

Lemma Aggressive_edge_counts (img : ImageData) (lo hi lo' hi' : Z) :
  let '(c, t) :=
    forZ lo hi (fun y st =>
      forZ lo' hi' (fun x st =>
        let '(consistentEdges, totalEdges) := st in
        let pixels := neighbourhood (redPixel img) x y in
        if magnitudeAbove 50 pixels
        then ((if Js.near_x_axis (sobelY pixels) (sobelX pixels)
               then consistentEdges + 1 else consistentEdges)%Z,
              (totalEdges + 1)%Z)
        else st) st)
      (0%Z, 0%Z) in
  (0 <= c <= t)%Z.
Proof.
  apply (forZ_invariant (fun st : Z * Z => let '(c, t) := st in (0 <= c <= t)%Z)); [lia |].
  intros y st _ Hst.
  apply (forZ_invariant (fun st : Z * Z => let '(c, t) := st in (0 <= c <= t)%Z));
    [exact Hst |].
  intros x [c t] _ H. cbv zeta.
  destruct (magnitudeAbove 50 _); [| exact H].
  destruct (Js.near_x_axis _ _); lia.
Qed.

Lemma Realistic_edge_counts (img : ImageData) (lo hi lo' hi' : Z) :
  let '(c, t) :=
    forZ lo hi (fun y st =>
      forZ lo' hi' (fun x st =>
        let '(consistentEdges, totalEdges) := st in
        let pixels := neighbourhood (grayPixel img) x y in
        if magnitudeAbove 30 pixels
        then
          let '(neighborConsistency, neighborCount) :=
            Realistic.neighbourScan img x y pixels in
          let consistent :=
            (0 <? neighborCount)%Z &&
            ((ofZ neighborConsistency / ofZ neighborCount)%n >? 0.5) in
          ((if consistent then consistentEdges + 1 else consistentEdges)%Z,
           (totalEdges + 1)%Z)
        else st) st)
      (0%Z, 0%Z) in
  (0 <= c <= t)%Z.
Proof.
  apply (forZ_invariant (fun st : Z * Z => let '(c, t) := st in (0 <= c <= t)%Z)); [lia |].
  intros y st _ Hst.
  apply (forZ_invariant (fun st : Z * Z => let '(c, t) := st in (0 <= c <= t)%Z));
    [exact Hst |].
  intros x [c t] _ H. cbv zeta.
  destruct (magnitudeAbove 30 _); [| exact H].
  destruct (Realistic.neighbourScan _ _ _ _) as [nc n].
  destruct (_ && _); lia.
Qed.

Lemma Conservative_edge_counts (img : ImageData) (lo hi lo' hi' : Z) :
  let '(c, t) :=
    forZ lo hi (fun y st =>
      forZ lo' hi' (fun x st =>
        let '(consistentEdges, totalEdges) := st in
        let pixels := neighbourhood (grayPixel img) x y in
        if magnitudeAbove 50 pixels
        then ((consistentEdges + 1)%Z, (totalEdges + 1)%Z)
        else st) st)
      (0%Z, 0%Z) in
  c = t.
Proof.
  apply (forZ_invariant (fun st : Z * Z => let '(c, t) := st in c = t)); [reflexivity |].
  intros y st _ Hst.
  apply (forZ_invariant (fun st : Z * Z => let '(c, t) := st in c = t)); [exact Hst |].
  intros x [c t] _ H. cbv zeta.
  destruct (magnitudeAbove 50 _); [| exact H]. lia.
Qed.

(** X10.  With a 2d context the conservative edge consistency only ever
    takes two values: 85 when no edge pixel is found, and 100 otherwise,
    because every edge pixel is counted as consistent and ten points are
    added before the cap.  Without a context it is [80 + random * 15].  It
    is therefore never below 80, and the conservative rules that test it
    against 40, 25 and 50 cannot fire. *)
Theorem conservative_edge_two_values (ctx : option ImageData) (rng : Rng) :
  unitDraws rng ->
  Js.within 80 100 (Conservative.analyzeEdgeConsistency ctx rng) /\
  (forall img, ctx = Some img ->
     Conservative.analyzeEdgeConsistency ctx rng = Fin 85 \/
     Conservative.analyzeEdgeConsistency ctx rng = Fin 100).
Proof.
  intros Hrng. pose proof (Hrng 0%nat) as [Hr0 Hr1].
  assert (Hsome : forall img,
             Conservative.analyzeEdgeConsistency (Some img) rng = Fin 85 \/
             Conservative.analyzeEdgeConsistency (Some img) rng = Fin 100).
  { intros img. unfold Conservative.analyzeEdgeConsistency. cbv zeta.
    pose proof (Conservative_edge_counts img 1 (canvasHeight img - 1)
                  1 (canvasWidth img - 1)) as Hinv.
    destruct (forZ _ _ _ _) as [c t]. subst c.
    destruct (Z.ltb_spec 0 t) as [Ht | Ht]; [right | left; reflexivity].
    unfold ofZ at 1. rewrite div_ofZ by exact Ht.
    assert (H2 : 0 < inject_Z t) by (change 0 with (inject_Z 0); rewrite <- Zlt_Qlt; lia).
    assert (E : inject_Z t / inject_Z t == 1) by (field; lra).
    cbn [Js.mul Js.add Js.min Js.lt].
    match goal with |- context [Js.Qltb ?a ?b] => destruct (Qltb_spec a b) end;
      [exfalso; lra | reflexivity]. }
  split.
  - destruct ctx as [img |].
    + destruct (Hsome img) as [-> | ->]; simpl; lra.
    + simpl. lra.
  - intros img ->. apply Hsome.
Qed.

Lemma conservative_edge_two_values_witness :
  Js.within 80 100
    (Conservative.analyzeEdgeConsistency (Some (plainCanvas 3 3 120 120 120)) halfRng) /\
  (forall img, Some (plainCanvas 3 3 120 120 120) = Some img ->
     Conservative.analyzeEdgeConsistency (Some (plainCanvas 3 3 120 120 120)) halfRng = Fin 85 \/
     Conservative.analyzeEdgeConsistency (Some (plainCanvas 3 3 120 120 120)) halfRng = Fin 100).
Proof.
  apply (conservative_edge_two_values (Some (plainCanvas 3 3 120 120 120)) halfRng).
  intros k. unfold halfRng. split; lra.
Defined.

(** X11.  The aggressive and the realistic edge consistency are finite
    numbers in [[0, 100]], with or without a 2d context: the consistent
    edges are counted among the edges found, and the fallbacks (50 and 75,
    or a draw) lie in the same range. *)
Theorem edge_consistency_range (ctx : option ImageData) (rng : Rng) :
  unitDraws rng ->
  Js.within 0 100 (Aggressive.analyzeEdgeConsistency ctx rng) /\
  Js.within 0 100 (Realistic.analyzeEdgeConsistency ctx rng).
Proof.
  intros Hrng. pose proof (Hrng 0%nat) as [Hr0 Hr1].
  destruct ctx as [img |]; [| simpl; lra].
  split.
  - unfold Aggressive.analyzeEdgeConsistency. cbv zeta.
    pose proof (Aggressive_edge_counts img 1 (canvasHeight img - 1)
                  1 (canvasWidth img - 1)) as Hinv.
    destruct (forZ _ _ _ _) as [c t].
    destruct (Z.ltb_spec 0 t) as [Ht | Ht]; [| simpl; lra].
    now apply percentage_in_range.
  - unfold Realistic.analyzeEdgeConsistency. cbv zeta.
    pose proof (Realistic_edge_counts img 1 (canvasHeight img - 1)
                  1 (canvasWidth img - 1)) as Hinv.
    destruct (forZ _ _ _ _) as [c t].
    destruct (Z.ltb_spec 0 t) as [Ht | Ht]; [| simpl; lra].
    now apply percentage_in_range.
Qed.

Lemma edge_consistency_range_witness :
  Js.within 0 100 (Aggressive.analyzeEdgeConsistency (Some (plainCanvas 3 3 120 120 120)) halfRng) /\
  Js.within 0 100 (Realistic.analyzeEdgeConsistency (Some (plainCanvas 3 3 120 120 120)) halfRng).
Proof.
  apply (edge_consistency_range (Some (plainCanvas 3 3 120 120 120)) halfRng).
  intros k. unfold halfRng. split; lra.
Defined.

Lemma skin_within_region (isSkinTone : num -> num -> num -> bool) (img : ImageData) :
  (skinPixels isSkinTone img <= regionPixels img)%nat.
Proof.
  unfold skinPixels, regionPixels. induction (pixelCoords img) as [| p l IH]; simpl; [lia |].
  destruct (inFaceRegion img (snd p) (fst p)); simpl; [| exact IH].
  destruct (skinAt isSkinTone img (snd p) (fst p)); simpl; lia.
Qed.

Lemma skinRatio_in_unit (isSkinTone : num -> num -> num -> bool) (img : ImageData) :
  exists q, skinRatio isSkinTone img = Fin q /\ 0 <= q <= 1.
Proof.
  unfold skinRatio. pose proof (skin_within_region isSkinTone img) as Hle.
  destruct (Nat.ltb_spec 0 (regionPixels img)) as [Hpos | _].
  - unfold Js.of_nat at 1. rewrite div_of_nat by exact Hpos.
    eexists. split; [reflexivity |].
    destruct (ratio_in_unit (Z.of_nat (skinPixels isSkinTone img))
                            (Z.of_nat (regionPixels img))); [lia | lia |].
    split; assumption.
  - exists 0. split; [reflexivity | lra].
Qed.

(** X12.  The face score lies in [[30, 100]] in the conservative tuning and
    in [[0, 100]] in the realistic one, with or without a 2d context: the
    skin pixels are counted among the region pixels, so the ratio is at most
    1.  The conservative rule for a face score below 15 can therefore never
    fire. *)
Theorem face_score_range (ctx : option ImageData) (rng : Rng) :
  unitDraws rng ->
  Js.within 30 100 (Conservative.performFaceAnalysis ctx rng) /\
  Js.within 0 100 (Realistic.performFaceAnalysis ctx rng) /\
  (Conservative.performFaceAnalysis ctx rng <? 15) = false.
Proof.
  intros Hrng. pose proof (Hrng 0%nat) as [Hr0 Hr1].
  assert (Hc : Js.within 30 100 (Conservative.performFaceAnalysis ctx rng)).
  { destruct ctx as [img |]; [| simpl; lra].
    unfold Conservative.performFaceAnalysis.
    pose proof (face_ratio Conservative.isSkinTone img) as E.
    destruct (faceScan Conservative.isSkinTone img) as [s f]. rewrite E.
    destruct (skinRatio_in_unit Conservative.isSkinTone img) as (q & -> & Hq).
    cbn [Js.mul Js.add Js.max Js.min Js.lt].
    repeat match goal with
           | |- context [Js.Qltb ?a ?b] => destruct (Qltb_spec a b); cbn [Js.lt]
           end; simpl; lra. }
  split; [exact Hc |]. split.
  - destruct ctx as [img |]; [| simpl; lra].
    unfold Realistic.performFaceAnalysis.
    pose proof (face_ratio Realistic.isSkinTone img) as E.
    destruct (faceScan Realistic.isSkinTone img) as [s f]. rewrite E.
    destruct (skinRatio_in_unit Realistic.isSkinTone img) as (q & -> & Hq).
    cbn [Js.mul Js.min Js.lt].
    repeat match goal with
           | |- context [Js.Qltb ?a ?b] => destruct (Qltb_spec a b); cbn [Js.lt]
           end; simpl; lra.
  - destruct (Conservative.performFaceAnalysis ctx rng) as [x | | |]; try contradiction.
    simpl in Hc |- *. destruct (Qltb_spec x 15); [exfalso; lra | reflexivity].
Qed.

Lemma face_score_range_witness :
  Js.within 30 100 (Conservative.performFaceAnalysis (Some (plainCanvas 4 4 200 120 90)) halfRng) /\
  Js.within 0 100 (Realistic.performFaceAnalysis (Some (plainCanvas 4 4 200 120 90)) halfRng) /\
  (Conservative.performFaceAnalysis (Some (plainCanvas 4 4 200 120 90)) halfRng <? 15) = false.
Proof.
  apply (face_score_range (Some (plainCanvas 4 4 200 120 90)) halfRng).
  intros k. unfold halfRng. split; lra.
Defined.

(* ------------------------------------------------------------------ *)
(** ** Loops with a stride *)

Lemma stride_trips (lo hi step : Z) (k : nat) :
  (0 < step)%Z ->
  (k < Z.to_nat ((hi - lo + step - 1) / step))%nat ->
  (lo + step * Z.of_nat k < hi)%Z.
Proof.
  intros Hs Hk.
  assert (H : (Z.of_nat k + 1 <= (hi - lo + step - 1) / step)%Z) by lia.
  pose proof (Z.mul_div_le (hi - lo + step - 1) step Hs). nia.
Qed.

Lemma strideRange_unfold (lo hi step : Z) :
  (0 < step)%Z ->
  strideRange lo hi step
  = if (lo <? hi)%Z then lo :: strideRange (lo + step) hi step else [].
Proof.
  intros Hs. unfold strideRange.
  destruct (Z.ltb_spec lo hi) as [Hlt | Hge].
  - replace ((hi - lo + step - 1) / step)%Z
      with ((hi - (lo + step) + step - 1) / step + 1)%Z.
    2:{ rewrite <- (Z.div_add _ 1 step) by lia. f_equal. lia. }
    assert (H0 : (0 <= (hi - (lo + step) + step - 1) / step)%Z)
      by (apply Z.div_pos; lia).
    replace (Z.to_nat ((hi - (lo + step) + step - 1) / step + 1))
      with (S (Z.to_nat ((hi - (lo + step) + step - 1) / step))) by lia.
    cbn [seq map]. f_equal; [lia |].
    rewrite <- seq_shift, map_map. apply map_ext. intros k. lia.
  - replace (Z.to_nat ((hi - lo + step - 1) / step)) with 0%nat; [reflexivity |].
    assert (((hi - lo + step - 1) / step < 1)%Z) by (apply Z.div_lt_upper_bound; lia).
    lia.
Qed.

Lemma forStride_unfold {A : Type} (lo hi step : Z) (body : Z -> A -> A) (acc : A) :
  (0 < step)%Z ->
  forStride lo hi step body acc
  = if (lo <? hi)%Z then forStride (lo + step) hi step body (body lo acc) else acc.
Proof.
  intros Hs. unfold forStride. rewrite strideRange_unfold by exact Hs.
  destruct (lo <? hi)%Z; reflexivity.
Qed.

Lemma fold_seq_count {A : Type} (Inv : nat -> A -> Prop) (g : nat -> A -> A) (n : nat) :
  forall start acc,
    Inv start acc ->
    (forall k a, (start <= k < start + n)%nat -> Inv k a -> Inv (S k) (g k a)) ->
    Inv (start + n)%nat (fold_left (fun a k => g k a) (seq start n) acc).
Proof.
  induction n as [| n IH]; intros start acc H0 Hstep; cbn [seq fold_left].
  - now rewrite Nat.add_0_r.
  - replace (start + S n)%nat with (S start + n)%nat by lia.
    apply IH.
    + apply Hstep; [lia | exact H0].
    + intros k a Hk. apply Hstep. lia.
Qed.

Lemma fold_left_over_map {A B C : Type} (f : A -> C -> A) (h : B -> C) (l : list B) :
  forall acc, fold_left f (map h l) acc = fold_left (fun a x => f a (h x)) l acc.
Proof. induction l as [| x l IH]; intros acc; cbn [map fold_left]; [reflexivity | apply IH]. Qed.

(** A loop invariant that counts the rounds of a strided loop. *)
Lemma forStride_count {A : Type} (Inv : nat -> A -> Prop) (lo hi step : Z)
      (body : Z -> A -> A) (acc : A) :
  (0 < step)%Z ->
  Inv 0%nat acc ->
  (forall k a, (lo + step * Z.of_nat k < hi)%Z -> Inv k a ->
               Inv (S k) (body (lo + step * Z.of_nat k)%Z a)) ->
  Inv (Z.to_nat ((hi - lo + step - 1) / step)) (forStride lo hi step body acc).
Proof.
  intros Hs H0 Hstep. unfold forStride, strideRange. rewrite fold_left_over_map.
  remember (Z.to_nat ((hi - lo + step - 1) / step)) as n eqn:En.
  apply (fold_seq_count Inv (fun k a => body (lo + step * Z.of_nat k)%Z a) n 0%nat acc H0).
  intros k a Hk. apply Hstep. apply stride_trips; [exact Hs | rewrite <- En; lia].
Qed.

(* ------------------------------------------------------------------ *)
(** ** Image quality *)

Lemma div_Fin (x y : Q) : ~ y == 0 -> (Fin x / Fin y)%n = Fin (x / y).
Proof.
  intros Hy. unfold Js.div. destruct (Qeq_bool y 0) eqn:E; [| reflexivity].
  apply Qeq_bool_iff in E. contradiction.
Qed.



Lemma whole_pixels_trips (n : Z) : (0 <= n)%Z -> ((4 * n - 0 + 4 - 1) / 4 = n)%Z.
Proof. intros H. Z.div_mod_to_equations. lia. Qed.





(* ------------------------------------------------------------------ *)
(** ** Contrast enhancement *)

Lemma setNth_length (n : nat) (v : Z) (d : list Z) :
  List.length (setNth n v d) = List.length d.
Proof.
  revert n. induction d as [| x d IH]; intros [| n]; simpl; try reflexivity.
  now rewrite IH.
Qed.

Lemma setNth_nth (n : nat) (v : Z) (d : list Z) (j : nat) :
  nth_error (setNth n v d) j
  = if ((n =? j) && (n <? List.length d))%nat then Some v else nth_error d j.
Proof.
  revert n j. induction d as [| x d IH]; intros n j.
  - destruct n, j; simpl; try reflexivity; now rewrite andb_false_r.
  - destruct n as [| n], j as [| j]; simpl; try reflexivity.
    rewrite IH. reflexivity.
Qed.

Lemma store_length (d : list Z) (i : Z) (x : num) :
  List.length (store d i x) = List.length d.
Proof.
  unfold store. destruct (_ && _); [apply setNth_length | reflexivity].
Qed.

Lemma store_nth (d : list Z) (i : Z) (x : num) (j : nat) :
  nth_error (store d i x) j
  = if ((Z.of_nat j =? i) && (i <? Z.of_nat (List.length d)))%Z
    then Some (toUint8Clamped x) else nth_error d j.
Proof.
  unfold store.
  destruct (Z.leb_spec 0 i) as [H0 | H0], (Z.ltb_spec i (Z.of_nat (List.length d))) as [H1 | H1];
    cbn [andb]; rewrite ?andb_false_r.
  - rewrite setNth_nth.
    destruct (Z.eqb_spec (Z.of_nat j) i) as [E | E]; cbn [andb].
    + replace (Z.to_nat i =? j)%nat with true by (symmetry; apply Nat.eqb_eq; lia).
      replace (Z.to_nat i <? List.length d)%nat with true
        by (symmetry; apply Nat.ltb_lt; lia).
      reflexivity.
    + replace (Z.to_nat i =? j)%nat with false by (symmetry; apply Nat.eqb_neq; lia).
      reflexivity.
  - reflexivity.
  - destruct (Z.eqb_spec (Z.of_nat j) i); [lia | reflexivity].
  - reflexivity.
Qed.

Lemma stretched_reads (d : list Z) (i : Z) (v : Z) :
  (0 <= i)%Z -> nth_error d (Z.to_nat i) = Some v ->
  ImageProcessorCanvas.stretched d i = ImageProcessorCanvas.stretched [v] 0.
Proof.
  intros H0 Hv. unfold ImageProcessorCanvas.stretched, sample.
  destruct (Z.ltb_spec i 0); [lia |]. now rewrite Hv.
Qed.

Lemma nth_error_in_range (d : list Z) (j : nat) :
  (j < List.length d)%nat -> exists v, nth_error d j = Some v.
Proof.
  intros H. destruct (nth_error d j) as [v |] eqn:E; [eauto |].
  apply nth_error_None in E. lia.
Qed.

(** The array after the rounds for the first [k] pixels. *)
Lemma enhance_rounds (d : list Z) (n : Z) :
  Z.of_nat (List.length d) = (4 * n)%Z ->
  let d' :=
    forStride 0 (Z.of_nat (List.length d)) 4 (fun i d =>
      let d := store d i (ImageProcessorCanvas.stretched d i) in
      let d := store d (i + 1) (ImageProcessorCanvas.stretched d (i + 1)) in
      store d (i + 2) (ImageProcessorCanvas.stretched d (i + 2))) d in
  List.length d' = List.length d /\
  forall j v, nth_error d j = Some v ->
              nth_error d' j = Some (if isAlpha j then v else enhancedByte v).
Proof.
  intros Hlen. cbv zeta.
  assert (Hn : (0 <= n)%Z) by lia.
  pose proof (forStride_count
    (fun (k : nat) (d' : list Z) =>
       List.length d' = List.length d /\
       forall j, nth_error d' j
                 = if (Z.of_nat j <? 4 * Z.of_nat k)%Z
                   then option_map (fun v => if isAlpha j then v else enhancedByte v)
                                   (nth_error d j)
                   else nth_error d j)
    0 (Z.of_nat (List.length d)) 4
    (fun i d =>
      let d := store d i (ImageProcessorCanvas.stretched d i) in
      let d := store d (i + 1) (ImageProcessorCanvas.stretched d (i + 1)) in
      store d (i + 2) (ImageProcessorCanvas.stretched d (i + 2)))
    d) as H.
  cbv zeta in H.
  rewrite Hlen in H at 1. rewrite whole_pixels_trips in H by exact Hn.
  destruct H as [Hl Hnth].
  - lia.
  - split; [reflexivity |]. intros j.
    destruct (Z.ltb_spec (Z.of_nat j) (4 * Z.of_nat 0)); [lia | reflexivity].
  - intros k d' Hk [Hl Hnth]. rewrite Z.add_0_l in *.
    set (i := (4 * Z.of_nat k)%Z) in *.
    destruct (nth_error_in_range d (Z.to_nat i)) as (v0 & E0); [lia |].
    destruct (nth_error_in_range d (Z.to_nat (i + 1))) as (v1 & E1); [lia |].
    destruct (nth_error_in_range d (Z.to_nat (i + 2))) as (v2 & E2); [lia |].
    assert (R0 : ImageProcessorCanvas.stretched d' i = ImageProcessorCanvas.stretched [v0] 0).
    { apply stretched_reads; [lia |]. rewrite Hnth.
      destruct (Z.ltb_spec (Z.of_nat (Z.to_nat i)) i); [lia | exact E0]. }
    rewrite R0.
    set (d1 := store d' i (ImageProcessorCanvas.stretched [v0] 0)).
    assert (R1 : ImageProcessorCanvas.stretched d1 (i + 1)
                 = ImageProcessorCanvas.stretched [v1] 0).
    { apply stretched_reads; [lia |]. unfold d1. rewrite store_nth, Hnth.
      destruct (Z.eqb_spec (Z.of_nat (Z.to_nat (i + 1))) i); [lia |]. cbn [andb].
      destruct (Z.ltb_spec (Z.of_nat (Z.to_nat (i + 1))) i); [lia | exact E1]. }
    rewrite R1.
    set (d2 := store d1 (i + 1) (ImageProcessorCanvas.stretched [v1] 0)).
    assert (R2 : ImageProcessorCanvas.stretched d2 (i + 2)
                 = ImageProcessorCanvas.stretched [v2] 0).
    { apply stretched_reads; [lia |]. unfold d2, d1. rewrite !store_nth, Hnth.
      destruct (Z.eqb_spec (Z.of_nat (Z.to_nat (i + 2))) (i + 1)); [lia |].
      destruct (Z.eqb_spec (Z.of_nat (Z.to_nat (i + 2))) i); [lia |]. cbn [andb].
      destruct (Z.ltb_spec (Z.of_nat (Z.to_nat (i + 2))) i); [lia | exact E2]. }
    rewrite R2.
    split; [unfold d2, d1; now rewrite !store_length |].
    intros j. unfold d2, d1. rewrite !store_nth, !store_length, Hl, Hnth.
    fold (enhancedByte v0) (enhancedByte v1) (enhancedByte v2).
    replace (i + 2 <? Z.of_nat (List.length d))%Z with true by (symmetry; apply Z.ltb_lt; lia).
    replace (i + 1 <? Z.of_nat (List.length d))%Z with true by (symmetry; apply Z.ltb_lt; lia).
    replace (i <? Z.of_nat (List.length d))%Z with true by (symmetry; apply Z.ltb_lt; lia).
    rewrite !andb_true_r.
    destruct (Z.ltb_spec (Z.of_nat j) (4 * Z.of_nat (S k))) as [Hnew | Hnew],
             (Z.ltb_spec (Z.of_nat j) i) as [Hold | Hold];
      destruct (Z.eqb_spec (Z.of_nat j) (i + 2)) as [J2 | J2];
      destruct (Z.eqb_spec (Z.of_nat j) (i + 1)) as [J1 | J1];
      destruct (Z.eqb_spec (Z.of_nat j) i) as [J0 | J0];
      try lia; try reflexivity.
    + replace j with (Z.to_nat (i + 2)) by lia. rewrite E2. cbn [option_map].
      unfold isAlpha. replace (Z.of_nat (Z.to_nat (i + 2)) mod 4)%Z with 2%Z; [reflexivity |].
      rewrite Z2Nat.id by lia. unfold i. symmetry.
      rewrite Z.add_comm, Z.mul_comm, Z.mod_add by lia. reflexivity.
    + replace j with (Z.to_nat (i + 1)) by lia. rewrite E1. cbn [option_map].
      unfold isAlpha. replace (Z.of_nat (Z.to_nat (i + 1)) mod 4)%Z with 1%Z; [reflexivity |].
      rewrite Z2Nat.id by lia. unfold i. symmetry.
      rewrite Z.add_comm, Z.mul_comm, Z.mod_add by lia. reflexivity.
    + replace j with (Z.to_nat i) by lia. rewrite E0. cbn [option_map].
      unfold isAlpha. replace (Z.of_nat (Z.to_nat i) mod 4)%Z with 0%Z; [reflexivity |].
      rewrite Z2Nat.id by lia. unfold i. symmetry.
      rewrite Z.mul_comm, Z.mod_mul by lia. reflexivity.
    + assert (Ej : Z.of_nat j = (i + 3)%Z) by lia.
      destruct (nth_error d j) as [v |]; [| reflexivity]. cbn [option_map].
      unfold isAlpha. rewrite Ej. unfold i.
      replace ((4 * Z.of_nat k + 3) mod 4)%Z with 3%Z; [reflexivity |].
      symmetry. rewrite Z.add_comm, Z.mul_comm, Z.mod_add by lia. reflexivity.
  - split; [exact Hl |]. intros j v Hv. rewrite Hnth, Hv.
    rewrite Z2Nat.id by exact Hn.
    destruct (Z.ltb_spec (Z.of_nat j) (4 * n)) as [_ | Hout]; [reflexivity |].
    assert (j < List.length d)%nat by (apply nth_error_Some; congruence). lia.
Qed.

(** X14.  [enhanceImage] rewrites the pixel array in place and keeps its
    shape: on a canvas of whole RGBA pixels the result has the same size and
    as many samples, every alpha sample is left as it was, and every colour
    sample [v] is replaced by the stored value of
    [Math.min(255, Math.max(0, (v - 128) * 1.2 + 128))], computed from the
    original sample only.  Without a 2d context the call throws. *)
Theorem enhance_image_pixels (img : ImageData) (n : Z) :
  holdsPixels img n ->
  ImageProcessorCanvas.enhanceImage None = inl "Canvas context not available" /\
  exists out,
    ImageProcessorCanvas.enhanceImage (Some img) = inr out /\
    canvasWidth out = canvasWidth img /\
    canvasHeight out = canvasHeight img /\
    List.length (data out) = List.length (data img) /\
    (forall j v, nth_error (data img) j = Some v ->
                 nth_error (data out) j = Some (if isAlpha j then v else enhancedByte v)).
Proof.
  intros Hlen. split; [reflexivity |].
  unfold ImageProcessorCanvas.enhanceImage. eexists. split; [reflexivity |].
  cbn [canvasWidth canvasHeight data]. split; [reflexivity |]. split; [reflexivity |].
  exact (enhance_rounds (data img) n Hlen).
Qed.

Lemma enhance_image_pixels_witness :
  ImageProcessorCanvas.enhanceImage None = inl "Canvas context not available" /\
  exists out,
    ImageProcessorCanvas.enhanceImage (Some (plainCanvas 2 1 200 128 10)) = inr out /\
    canvasWidth out = 2%Z /\
    canvasHeight out = 1%Z /\
    List.length (data out) = 8%nat /\
    (forall j v, nth_error (data (plainCanvas 2 1 200 128 10)) j = Some v ->
                 nth_error (data out) j = Some (if isAlpha j then v else enhancedByte v)).
Proof.
  apply (enhance_image_pixels (plainCanvas 2 1 200 128 10) 2).
  reflexivity.
Defined.

Lemma enhanced_bytes_checked :
  forallb (fun v => (enhancedByte v =? Z.max 0 (Z.min 255 ((12 * v - 251) / 10)))%Z)
          (zrange 0 256) = true.
Proof. vm_compute. reflexivity. Qed.

Lemma enhancedByte_closed_form (v : Z) :
  (0 <= v <= 255)%Z -> enhancedByte v = Z.max 0 (Z.min 255 ((12 * v - 251) / 10)).
Proof.
  intros Hv. pose proof enhanced_bytes_checked as H.
  rewrite forallb_forall in H. apply Z.eqb_eq. apply H. apply in_zrange. lia.
Qed.

(** X15.  On a byte [v] the enhancement is the integer map
    [max(0, min(255, (12 * v - 251) / 10))] (no tie ever reaches the
    rounding).  It keeps the result a byte, is monotone, never moves a
    sample toward mid-gray 128, and saturates at both ends: every sample up
    to 21 becomes 0 and every sample from 234 on becomes 255, so distinct
    inputs are merged. *)
Theorem enhanced_byte_formula (v : Z) :
  (0 <= v <= 255)%Z ->
  enhancedByte v = Z.max 0 (Z.min 255 ((12 * v - 251) / 10)) /\
  (0 <= enhancedByte v <= 255)%Z /\
  (forall v', (v <= v' <= 255)%Z -> (enhancedByte v <= enhancedByte v')%Z) /\
  (Z.abs (v - 128) <= Z.abs (enhancedByte v - 128))%Z /\
  ((v <= 21)%Z -> enhancedByte v = 0%Z) /\
  ((234 <= v)%Z -> enhancedByte v = 255%Z).
Proof.
  intros Hv. pose proof (enhancedByte_closed_form v Hv) as E.
  split; [exact E |]. split; [rewrite E; lia |]. split; [| split; [| split]].
  - intros v' Hv'. rewrite E, (enhancedByte_closed_form v') by lia.
    Z.div_mod_to_equations. lia.
  - rewrite E. Z.div_mod_to_equations. lia.
  - intros H. rewrite E. Z.div_mod_to_equations. lia.
  - intros H. rewrite E. Z.div_mod_to_equations. lia.
Qed.

Lemma enhanced_byte_formula_witness :
  enhancedByte 200 = Z.max 0 (Z.min 255 ((12 * 200 - 251) / 10)) /\
  (0 <= enhancedByte 200 <= 255)%Z /\
  (forall v', (200 <= v' <= 255)%Z -> (enhancedByte 200 <= enhancedByte v')%Z) /\
  (Z.abs (200 - 128) <= Z.abs (enhancedByte 200 - 128))%Z /\
  ((200 <= 21)%Z -> enhancedByte 200 = 0%Z) /\
  ((234 <= 200)%Z -> enhancedByte 200 = 255%Z).
Proof.
  apply (enhanced_byte_formula 200). lia.
Defined.

(* ------------------------------------------------------------------ *)
(** ** Compression artifacts *)

Lemma forStride_invariant {A : Type} (P : A -> Prop) (lo hi step : Z)
      (body : Z -> A -> A) (acc : A) :
  (0 < step)%Z ->
  P acc ->
  (forall i a, (lo <= i < hi)%Z -> P a -> P (body i a)) ->
  P (forStride lo hi step body acc).
Proof.
  intros Hs H0 Hstep.
  apply (forStride_count (fun _ => P) lo hi step body acc Hs H0).
  intros k a Hk. apply Hstep. nia.
Qed.

Lemma forStride_empty {A : Type} (lo hi step : Z) (body : Z -> A -> A) (acc : A) :
  (0 < step)%Z -> (hi <= lo)%Z -> forStride lo hi step body acc = acc.
Proof.
  intros Hs Hle. rewrite forStride_unfold by exact Hs.
  destruct (Z.ltb_spec lo hi); [lia | reflexivity].
Qed.

Lemma blockScan_bounds (threshold : Q) (img : ImageData) :
  let '(b, t) := blockScan threshold img in (0 <= b <= 2 * t)%Z.
Proof.
  unfold blockScan. cbv zeta.
  apply (forStride_invariant (fun st : Z * Z => let '(b, t) := st in (0 <= b <= 2 * t)%Z));
    [lia | lia |].
  intros y st _ Hst.
  apply (forStride_invariant (fun st : Z * Z => let '(b, t) := st in (0 <= b <= 2 * t)%Z));
    [lia | exact Hst |].
  intros x [b t] _ H.
  destruct (_ && _)%bool; [| lia].
  repeat match goal with |- context [if ?c then _ else _] => destruct c end; lia.
Qed.

Lemma blockScan_small (threshold : Q) (img : ImageData) :
  (canvasWidth img <= 8)%Z \/ (canvasHeight img <= 8)%Z ->
  blockScan threshold img = (0%Z, 0%Z).
Proof.
  intros Hsmall. unfold blockScan. cbv zeta.
  destruct (Z.le_gt_cases (canvasHeight img) 8) as [Hh | Hh].
  - apply forStride_empty; lia.
  - destruct Hsmall as [Hw | ?]; [| lia].
    apply (forStride_invariant (fun st : Z * Z => st = (0%Z, 0%Z))); [lia | reflexivity |].
    intros y st _ ->. apply forStride_empty; lia.
Qed.

Lemma blockScan_blocks (threshold : Q) (img : ImageData) :
  (8 < canvasWidth img)%Z -> (8 < canvasHeight img)%Z ->
  (1 <= snd (blockScan threshold img))%Z.
Proof.
  intros Hw Hh. unfold blockScan. cbv zeta.
  rewrite forStride_unfold by lia.
  destruct (Z.ltb_spec 0 (canvasHeight img - 8)) as [_ | ?]; [| lia].
  apply (forStride_invariant (fun st : Z * Z => (1 <= snd st)%Z)); [lia | |].
  - rewrite forStride_unfold by lia.
    destruct (Z.ltb_spec 0 (canvasWidth img - 8)) as [_ | ?]; [| lia].
    apply (forStride_invariant (fun st : Z * Z => (1 <= snd st)%Z)); [lia | |].
    + destruct (_ && _)%bool; cbn [snd]; lia.
    + intros x [b t] _ H. cbn [snd] in H.
      destruct (_ && _)%bool; cbn [snd]; lia.
  - intros y st _ Hst.
    apply (forStride_invariant (fun st : Z * Z => (1 <= snd st)%Z)); [lia | exact Hst |].
    intros x [b t] _ H. cbn [snd] in H.
    destruct (_ && _)%bool; cbn [snd]; lia.
Qed.

(** The quotient [blockiness / (totalBlocks * 2)] scaled by [scale]. *)
Lemma block_share (b t : Z) (scale : Q) :
  (0 <= b <= 2 * t)%Z -> (1 <= t)%Z -> 0 <= scale ->
  exists s, (ofZ b / (ofZ t * 2) * Fin scale)%n = Fin s /\ 0 <= s <= scale.
Proof.
  intros Hb Ht Hscale. unfold ofZ. cbn [Js.mul].
  assert (H0 : 0 <= inject_Z b) by (change 0 with (inject_Z 0); rewrite <- Zle_Qle; lia).
  assert (H1 : inject_Z b <= inject_Z t * 2).
  { change 2 with (inject_Z 2). rewrite <- inject_Z_mult, <- Zle_Qle. lia. }
  assert (H2 : 0 < inject_Z t * 2).
  { change 2 with (inject_Z 2). change 0 with (inject_Z 0).
    rewrite <- inject_Z_mult, <- Zlt_Qlt. lia. }
  rewrite div_Fin by lra. cbn [Js.mul]. eexists. split; [reflexivity |].
  assert (Hlo : 0 <= inject_Z b / (inject_Z t * 2)) by (apply Qle_shift_div_l; lra).
  assert (Hhi : inject_Z b / (inject_Z t * 2) <= 1) by (apply Qle_shift_div_r; lra).
  set (q := inject_Z b / (inject_Z t * 2)) in *. nra.
Qed.

Lemma capped (s : Q) (hi : Q) :
  0 <= s <= hi -> hi <= 100 -> Js.within 0 hi (Js.min 100 (Fin s)).
Proof.
  intros Hs Hhi. cbn [Js.min Js.lt].
  destruct (Qltb_spec s 100); simpl; lra.
Qed.

Lemma Aggressive_blockiness_nonneg (img : ImageData) (lo hi lo' hi' : Z) :
  Z.le 0
   (forStride lo hi 8 (fun y blockiness =>
     forStride lo' hi' 8 (fun x blockiness =>
       let rightEdge := sample (data img) ((y * canvasWidth img + (x + 8)) * 4) in
       let bottomEdge := sample (data img) (((y + 8) * canvasWidth img + x) * 4) in
       let current := sample (data img) ((y * canvasWidth img + x) * 4) in
       let blockiness :=
         if Js.abs (rightEdge - current)%n >? 30
         then (blockiness + 1)%Z else blockiness in
       if Js.abs (bottomEdge - current)%n >? 30
       then (blockiness + 1)%Z else blockiness) blockiness)
     0%Z).
Proof.
  apply (forStride_invariant (fun b : Z => (0 <= b)%Z)); [lia | lia |].
  intros y b _ Hb.
  apply (forStride_invariant (fun b : Z => (0 <= b)%Z)); [lia | exact Hb |].
  intros x b' _ Hb'. cbv zeta.
  repeat match goal with |- context [if ?c then _ else _] => destruct c end; lia.
Qed.

(** X16.  The conservative compression score never exceeds 80 (it is a
    share of the visited blocks scaled by 80, a draw below 60 without a 2d
    context, or NaN), so the conservative rules that test it against 85, 95,
    90 and 80 can never fire.  When a block is visited, the three scores are
    finite: in [[0, 100]] for the aggressive and realistic tunings, in
    [[0, 80]] for the conservative one. *)
Theorem compression_score_range (ctx : option ImageData) (rng : Rng) :
  unitDraws rng ->
  (Conservative.detectCompressionArtifacts ctx rng >? 80) = false /\
  (blocksToScan ctx ->
   Js.within 0 100 (Aggressive.detectCompressionArtifacts ctx rng) /\
   Js.within 0 100 (Realistic.detectCompressionArtifacts ctx rng) /\
   Js.within 0 80 (Conservative.detectCompressionArtifacts ctx rng)).
Proof.
  intros Hrng. pose proof (Hrng 0%nat) as [Hr0 Hr1]. split.
  - destruct ctx as [img |].
    + unfold Conservative.detectCompressionArtifacts.
      pose proof (blockScan_bounds 40 img) as Hb.
      destruct (blockScan 40 img) as [b t].
      destruct (Z.le_gt_cases 1 t) as [Ht | Ht].
      * destruct (block_share b t 80 Hb Ht) as (s & -> & Hs); [lra |].
        pose proof (capped s 80 Hs) as Hc.
        destruct (Js.min 100 (Fin s)) as [x | | |]; try (exfalso; apply Hc; lra).
        simpl in Hc |- *. destruct (Qltb_spec 80 x); [exfalso; lra | reflexivity].
      * assert (t = 0%Z) by lia. assert (b = 0%Z) by lia. subst. reflexivity.
    + simpl. destruct (Qltb_spec 80 (35 + rng 0%nat * 25)); [exfalso; lra | reflexivity].
  - intros Hscan. destruct ctx as [img |]; [| simpl; lra].
    destruct Hscan as [Hw Hh]. split; [| split].
    + unfold Aggressive.detectCompressionArtifacts. cbv zeta.
      pose proof (Aggressive_blockiness_nonneg img 0 (canvasHeight img - 8)
                    0 (canvasWidth img - 8)) as Hb.
      cbv zeta in Hb.
      match type of Hb with (0 <= ?e)%Z => set (b := e) in * end.
      unfold ofZ. rewrite !(div_Fin _ (inject_Z 8)) by discriminate. cbn [Js.mul].
      assert (H0 : 0 <= inject_Z b) by (change 0 with (inject_Z 0); rewrite <- Zle_Qle; lia).
      assert (H1 : 0 < inject_Z (canvasWidth img) / inject_Z 8).
      { apply Qlt_shift_div_l; [reflexivity |]. rewrite Qmult_0_l.
        change 0 with (inject_Z 0). rewrite <- Zlt_Qlt. lia. }
      assert (H2 : 0 < inject_Z (canvasHeight img) / inject_Z 8).
      { apply Qlt_shift_div_l; [reflexivity |]. rewrite Qmult_0_l.
        change 0 with (inject_Z 0). rewrite <- Zlt_Qlt. lia. }
      set (bw := inject_Z (canvasWidth img) / inject_Z 8) in *.
      set (bh := inject_Z (canvasHeight img) / inject_Z 8) in *.
      assert (H3 : 0 < bw * bh) by nra.
      rewrite div_Fin by lra. cbn [Js.mul Js.min Js.lt].
      assert (H4 : 0 <= inject_Z b / (bw * bh)) by (apply Qle_shift_div_l; lra).
      destruct (Qltb_spec (inject_Z b / (bw * bh) * 50) 100); simpl; lra.
    + unfold Realistic.detectCompressionArtifacts.
      pose proof (blockScan_bounds 25 img) as Hb.
      pose proof (blockScan_blocks 25 img Hw Hh) as Ht.
      destruct (blockScan 25 img) as [b t]. cbn [snd] in Ht.
      destruct (block_share b t 100 Hb Ht) as (s & -> & Hs); [lra |].
      apply capped; lra.
    + unfold Conservative.detectCompressionArtifacts.
      pose proof (blockScan_bounds 40 img) as Hb.
      pose proof (blockScan_blocks 40 img Hw Hh) as Ht.
      destruct (blockScan 40 img) as [b t]. cbn [snd] in Ht.
      destruct (block_share b t 80 Hb Ht) as (s & -> & Hs); [lra |].
      apply capped; lra.
Qed.

Lemma compression_score_range_witness :
  (Conservative.detectCompressionArtifacts (Some (plainCanvas 9 9 120 120 120)) halfRng >? 80)
  = false /\
  (blocksToScan (Some (plainCanvas 9 9 120 120 120)) ->
   Js.within 0 100
     (Aggressive.detectCompressionArtifacts (Some (plainCanvas 9 9 120 120 120)) halfRng) /\
   Js.within 0 100
     (Realistic.detectCompressionArtifacts (Some (plainCanvas 9 9 120 120 120)) halfRng) /\
   Js.within 0 80
     (Conservative.detectCompressionArtifacts (Some (plainCanvas 9 9 120 120 120)) halfRng)).
Proof.
  apply (compression_score_range (Some (plainCanvas 9 9 120 120 120)) halfRng).
  intros k. unfold halfRng. split; lra.
Defined.

(** X17.  On a canvas that is at most one block (8 pixels) wide or high the
    block scan visits nothing: the realistic and the conservative score are
    0 / 0, that is NaN, on which every rule of the scorers is false; the
    aggressive score, which divides by the real-valued number of blocks, is
    0. *)
Theorem compression_score_small_canvas (img : ImageData) (rng : Rng) :
  (canvasWidth img <= 8)%Z \/ (canvasHeight img <= 8)%Z ->
  Realistic.detectCompressionArtifacts (Some img) rng = NaN /\
  Conservative.detectCompressionArtifacts (Some img) rng = NaN /\
  ((0 < canvasWidth img)%Z -> (0 < canvasHeight img)%Z ->
   Js.eqn (Aggressive.detectCompressionArtifacts (Some img) rng) (Fin 0)).
Proof.
  intros Hsmall. split; [| split].
  - unfold Realistic.detectCompressionArtifacts. now rewrite blockScan_small.
  - unfold Conservative.detectCompressionArtifacts. now rewrite blockScan_small.
  - intros Hw Hh. unfold Aggressive.detectCompressionArtifacts. cbv zeta.
    match goal with
    | |- context [forStride 0 ?hi 8 ?body 0%Z] =>
        assert (E : forStride 0 hi 8 body 0%Z = 0%Z)
    end.
    { destruct (Z.le_gt_cases (canvasHeight img) 8) as [Hh8 | Hh8].
      - apply forStride_empty; lia.
      - destruct Hsmall as [Hw8 | ?]; [| lia].
        apply (forStride_invariant (fun b : Z => b = 0%Z)); [lia | reflexivity |].
        intros y b _ ->. apply forStride_empty; lia. }
    rewrite E. unfold ofZ. rewrite !(div_Fin _ (inject_Z 8)) by discriminate. cbn [Js.mul].
    assert (H1 : 0 < inject_Z (canvasWidth img) / inject_Z 8).
    { apply Qlt_shift_div_l; [reflexivity |]. rewrite Qmult_0_l.
      change 0 with (inject_Z 0). rewrite <- Zlt_Qlt. lia. }
    assert (H2 : 0 < inject_Z (canvasHeight img) / inject_Z 8).
    { apply Qlt_shift_div_l; [reflexivity |]. rewrite Qmult_0_l.
      change 0 with (inject_Z 0). rewrite <- Zlt_Qlt. lia. }
    set (bw := inject_Z (canvasWidth img) / inject_Z 8) in *.
    set (bh := inject_Z (canvasHeight img) / inject_Z 8) in *.
    assert (H3 : 0 < bw * bh) by nra.
    rewrite div_Fin by lra. cbn [Js.mul Js.min Js.lt].
    assert (E0 : inject_Z 0 / (bw * bh) * 50 == 0).
    { change (inject_Z 0) with 0. field. lra. }
    destruct (Qltb_spec (inject_Z 0 / (bw * bh) * 50) 100); simpl; lra.
Qed.

Lemma compression_score_small_canvas_witness :
  Realistic.detectCompressionArtifacts (Some (plainCanvas 8 20 120 120 120)) halfRng = NaN /\
  Conservative.detectCompressionArtifacts (Some (plainCanvas 8 20 120 120 120)) halfRng = NaN /\
  ((0 < canvasWidth (plainCanvas 8 20 120 120 120))%Z ->
   (0 < canvasHeight (plainCanvas 8 20 120 120 120))%Z ->
   Js.eqn (Aggressive.detectCompressionArtifacts (Some (plainCanvas 8 20 120 120 120)) halfRng)
          (Fin 0)).
Proof.
  apply (compression_score_small_canvas (plainCanvas 8 20 120 120 120) halfRng).
  left. simpl. lia.
Defined.

(* ------------------------------------------------------------------ *)
(** ** Artifact scores *)

Lemma capped_score (s : Q) : 0 <= s -> Js.within 0 100 (Js.min 100 (Fin s)).
Proof.
  intros Hs. cbn [Js.min Js.lt]. destruct (Qltb_spec s 100); simpl; lra.
Qed.

Lemma artifact_share (score : Q) (pixels : Z) (scale : Q) :
  0 <= score -> (0 < pixels)%Z -> 0 <= scale ->
  Js.within 0 100 (Js.min 100 (Fin score / ofZ pixels * Fin scale)%n).
Proof.
  intros Hs Hp Hscale. rewrite div_ofZ by exact Hp. cbn [Js.mul].
  assert (H1 : 0 < inject_Z pixels) by (change 0 with (inject_Z 0); rewrite <- Zlt_Qlt; lia).
  assert (H2 : 0 <= score / inject_Z pixels) by (apply Qle_shift_div_l; lra).
  apply capped_score. now apply Qmult_le_0_compat.
Qed.

Ltac score_grows :=
  cbv zeta; unfold Score.seq, Score.cond, Score.incr, Score.skip;
  repeat match goal with |- context [if ?c then _ else _] => destruct c end; lra.

Lemma Aggressive_artifacts_nonneg (img : ImageData) :
  forall ctx rng, ctx = Some img ->
    exists s, 0 <= s /\
      Aggressive.detectArtifacts ctx rng
      = Js.min 100 (Fin s / ofZ (canvasWidth img * canvasHeight img) * 10000)%n.
Proof.
  intros ctx rng ->. unfold Aggressive.detectArtifacts. cbv zeta.
  eexists. split; [| reflexivity].
  apply (forZ_invariant (fun s : Q => 0 <= s)); [lra |].
  intros y s _ Hs. apply (forZ_invariant (fun s : Q => 0 <= s)); [exact Hs |].
  intros x s' _ Hs'. score_grows.
Qed.

Lemma Realistic_artifacts_nonneg (img : ImageData) :
  forall ctx rng, ctx = Some img ->
    exists s, 0 <= s /\
      Realistic.detectArtifacts ctx rng
      = Js.min 100 (Fin s / ofZ (canvasWidth img * canvasHeight img) * 50000)%n.
Proof.
  intros ctx rng ->. unfold Realistic.detectArtifacts. cbv zeta.
  eexists. split; [| reflexivity].
  apply (forZ_invariant (fun s : Q => 0 <= s)); [lra |].
  intros y s _ Hs. apply (forZ_invariant (fun s : Q => 0 <= s)); [exact Hs |].
  intros x s' _ Hs'. score_grows.
Qed.

Lemma Conservative_artifacts_nonneg (img : ImageData) :
  forall ctx rng, ctx = Some img ->
    exists s, 0 <= s /\
      Conservative.detectArtifacts ctx rng
      = Js.min 100 (Fin s / ofZ (canvasWidth img * canvasHeight img) * 80000)%n.
Proof.
  intros ctx rng ->. unfold Conservative.detectArtifacts. cbv zeta.
  eexists. split; [| reflexivity].
  apply (forZ_invariant (fun s : Q => 0 <= s)); [lra |].
  intros y s _ Hs. apply (forZ_invariant (fun s : Q => 0 <= s)); [exact Hs |].
  intros x s' _ Hs'. score_grows.
Qed.

(** X18.  [detectArtifacts] returns a finite number in [[0, 100]] in every
    tuning, on every canvas with at least one pixel and also without a 2d
    context (draws in [[0, 1)]): the score only ever grows from 0, is
    divided by the positive pixel count and is capped at 100. *)
Theorem artifact_score_range (ctx : option ImageData) (rng : Rng) :
  unitDraws rng ->
  hasPixels ctx ->
  Js.within 0 100 (Aggressive.detectArtifacts ctx rng) /\
  Js.within 0 100 (Realistic.detectArtifacts ctx rng) /\
  Js.within 0 100 (Conservative.detectArtifacts ctx rng).
Proof.
  intros Hrng Hpix. pose proof (Hrng 0%nat) as [Hr0 Hr1].
  destruct ctx as [img |]; [| simpl; lra]. simpl in Hpix.
  destruct (Aggressive_artifacts_nonneg img (Some img) rng eq_refl) as (sa & Ha & ->).
  destruct (Realistic_artifacts_nonneg img (Some img) rng eq_refl) as (sr & Hr & ->).
  destruct (Conservative_artifacts_nonneg img (Some img) rng eq_refl) as (sc & Hc & ->).
  repeat split; apply artifact_share; try assumption; lra.
Qed.

Lemma artifact_score_range_witness :
  Js.within 0 100 (Aggressive.detectArtifacts (Some (plainCanvas 3 3 255 0 0)) halfRng) /\
  Js.within 0 100 (Realistic.detectArtifacts (Some (plainCanvas 3 3 255 0 0)) halfRng) /\
  Js.within 0 100 (Conservative.detectArtifacts (Some (plainCanvas 3 3 255 0 0)) halfRng).
Proof.
  apply (artifact_score_range (Some (plainCanvas 3 3 255 0 0)) halfRng).
  - intros k. unfold halfRng. split; lra.
  - simpl. lia.
Defined.

(* ------------------------------------------------------------------ *)
(** ** Artifact scores of a flat canvas *)

Lemma fold_left_push {A B : Type} (g : B -> A) (l : list B) :
  forall acc : list A,
    fold_left (fun st p => (st ++ [g p])%list) l acc = (acc ++ map g l)%list.
Proof.
  induction l as [| p l IH]; intros acc; cbn [fold_left map].
  - now rewrite app_nil_r.
  - rewrite IH, <- app_assoc. reflexivity.
Qed.

Lemma rgbWindow_map (d : list Z) (w radius x y : Z) :
  rgbWindow d w radius x y
  = map (fun p : Z * Z =>
           let nIdx := (((y + fst p) * w + (x + snd p)) * 4)%Z in
           (sample d nIdx, sample d (nIdx + 1), sample d (nIdx + 2)))
        (list_prod (zrange (- radius) (radius + 1)) (zrange (- radius) (radius + 1))).
Proof.
  unfold rgbWindow.
  rewrite (forZ_nested (- radius) (radius + 1) (- radius) (radius + 1)
             (fun dy dx (neighbors : list (num * num * num)) =>
                let nIdx := (((y + dy) * w + (x + dx)) * 4)%Z in
                (neighbors ++ [(sample d nIdx, sample d (nIdx + 1), sample d (nIdx + 2))])%list)).
  cbv zeta.
  exact (fold_left_push
           (fun p : Z * Z =>
              (sample d (((y + fst p) * w + (x + snd p)) * 4),
               sample d (((y + fst p) * w + (x + snd p)) * 4 + 1),
               sample d (((y + fst p) * w + (x + snd p)) * 4 + 2)))
           _ []).
Qed.

(** The window around a pixel that is [radius] away from every border of a
    flat canvas holds the canvas colour only. *)
Lemma rgbWindow_uniform (img : ImageData) (r g b radius x y : Z) :
  uniformColour img r g b = true ->
  (0 <= radius)%Z ->
  (radius <= y < canvasHeight img - radius)%Z ->
  (radius <= x < canvasWidth img - radius)%Z ->
  Forall (fun n => n = (Fin (inject_Z r), Fin (inject_Z g), Fin (inject_Z b)))
         (rgbWindow (data img) (canvasWidth img) radius x y) /\
  List.length (rgbWindow (data img) (canvasWidth img) radius x y)
  = (Z.to_nat (2 * radius + 1) * Z.to_nat (2 * radius + 1))%nat.
Proof.
  intros Hu Hr Hy Hx. rewrite rgbWindow_map. split.
  - apply Forall_forall. intros n Hn. apply in_map_iff in Hn.
    destruct Hn as ([dy dx] & <- & Hp). apply in_prod_iff in Hp.
    destruct Hp as [Hdy Hdx]. apply in_zrange in Hdy. apply in_zrange in Hdx.
    cbn [fst snd]. cbv zeta.
    assert (Hp : (0 <= (y + dy) * canvasWidth img + (x + dx)
                  < canvasWidth img * canvasHeight img)%Z) by nia.
    destruct (uniform_sample img r g b _ Hu Hp) as (-> & -> & ->). reflexivity.
  - rewrite length_map, length_prod. unfold zrange. rewrite !length_map, !length_seq.
    f_equal; lia.
Qed.

Lemma sum_of_constant (channel : num * num * num -> num) (v : Q)
      (ns : list (num * num * num)) :
  Forall (fun n => channel n = Fin v) ns ->
  forall a, exists s,
    fold_left (fun sum n => (sum + channel n)%n) ns (Fin a) = Fin s /\
    s == a + inject_Z (Z.of_nat (List.length ns)) * v.
Proof.
  induction 1 as [| n ns Hn _ IH]; intros a; cbn [fold_left List.length].
  - exists a. split; [reflexivity |]. change (inject_Z (Z.of_nat 0)) with 0. ring.
  - rewrite Hn. cbn [Js.add]. destruct (IH (a + v)) as (s & -> & Hs).
    exists s. split; [reflexivity |]. rewrite Hs, succ_inject. ring.
Qed.

Lemma windowMean_constant (channel : num * num * num -> num) (v : Q)
      (ns : list (num * num * num)) :
  Forall (fun n => channel n = Fin v) ns ->
  (0 < List.length ns)%nat ->
  exists q, windowMean channel ns = Fin q /\ q == v.
Proof.
  intros Hall Hlen. unfold windowMean.
  destruct (sum_of_constant channel v ns Hall 0) as (s & -> & Hs).
  rewrite div_of_nat by exact Hlen. eexists. split; [reflexivity |].
  rewrite Hs. field.
  intros E. unfold Qeq in E. simpl in E. lia.
Qed.

Lemma square_of_nothing (v q : Q) : q == v -> exists z, square (Fin v - Fin q)%n = Fin z /\ z == 0.
Proof.
  intros E. unfold square. cbn [Js.sub Js.add Js.neg Js.mul]. eexists.
  split; [reflexivity |]. rewrite E. ring.
Qed.

Lemma windowVariance_constant (r g b qr qg qb : Q) (ns : list (num * num * num)) :
  Forall (fun n => n = (Fin r, Fin g, Fin b)) ns ->
  (0 < List.length ns)%nat ->
  qr == r -> qg == g -> qb == b ->
  exists v, windowVariance ns (Fin qr) (Fin qg) (Fin qb) = Fin v /\ v == 0.
Proof.
  intros Hall Hlen Er Eg Eb. unfold windowVariance.
  set (f := fun (sum : num) (n : num * num * num) =>
              (sum + square (redOf n - Fin qr) + square (greenOf n - Fin qg)
               + square (blueOf n - Fin qb))%n).
  assert (Hf : forall a, exists z, f (Fin a) (Fin r, Fin g, Fin b) = Fin z /\ z == a).
  { intros a. unfold f, redOf, greenOf, blueOf. cbn [fst snd].
    destruct (square_of_nothing r qr Er) as (zr & -> & Hzr).
    destruct (square_of_nothing g qg Eg) as (zg & -> & Hzg).
    destruct (square_of_nothing b qb Eb) as (zb & -> & Hzb).
    cbn [Js.add]. eexists. split; [reflexivity |]. rewrite Hzr, Hzg, Hzb. ring. }
  assert (Hsum : forall a, exists s, fold_left f ns (Fin a) = Fin s /\ s == a).
  { clear Hlen. induction Hall as [| n ns Hn _ IH]; intros a; cbn [fold_left].
    - exists a. split; reflexivity.
    - subst n. destruct (Hf a) as (z & -> & Hz). destruct (IH z) as (s & -> & Hs).
      exists s. split; [reflexivity |]. now rewrite Hs. }
  destruct (Hsum 0) as (s & -> & Hs).
  rewrite div_of_nat by exact Hlen. eexists. split; [reflexivity |].
  rewrite Hs. field.
  intros E. unfold Qeq in E. simpl in E. lia.
Qed.

Lemma no_distance (v q k : Q) : q == v -> 0 <= k -> (Js.abs (Fin v - Fin q)%n >? Fin k) = false.
Proof.
  intros E Hk. cbn [Js.sub Js.add Js.neg Js.abs Js.gt Js.lt].
  assert (E0 : Qabs (v + - q) == 0).
  { setoid_replace (v + - q) with 0 by (rewrite E; ring). reflexivity. }
  destruct (Qltb_spec k (Qabs (v + - q))); [exfalso; lra | reflexivity].
Qed.

Lemma not_above (v k : Q) : v == 0 -> 0 <= k -> (Fin v >? Fin k) = false.
Proof.
  intros E Hk. cbn [Js.gt Js.lt]. destruct (Qltb_spec k v); [exfalso; lra | reflexivity].
Qed.

(** What the realistic and conservative rules see at an interior pixel of a
    flat canvas: means equal to the colour and no variance. *)
Lemma flat_window_stats (img : ImageData) (r g b radius x y : Z) :
  uniformColour img r g b = true ->
  (0 <= radius)%Z ->
  (radius <= y < canvasHeight img - radius)%Z ->
  (radius <= x < canvasWidth img - radius)%Z ->
  let neighbors := rgbWindow (data img) (canvasWidth img) radius x y in
  exists qr qg qb v,
    windowMean redOf neighbors = Fin qr /\ qr == inject_Z r /\
    windowMean greenOf neighbors = Fin qg /\ qg == inject_Z g /\
    windowMean blueOf neighbors = Fin qb /\ qb == inject_Z b /\
    windowVariance neighbors (Fin qr) (Fin qg) (Fin qb) = Fin v /\ v == 0.
Proof.
  intros Hu Hr Hy Hx neighbors.
  destruct (rgbWindow_uniform img r g b radius x y Hu Hr Hy Hx) as [Hall Hlen].
  fold neighbors in Hall, Hlen.
  assert (Hpos : (0 < List.length neighbors)%nat) by (rewrite Hlen; nia).
  destruct (windowMean_constant redOf (inject_Z r) neighbors) as (qr & Er & Hqr);
    [eapply Forall_impl; [| exact Hall]; intros n ->; reflexivity | exact Hpos |].
  destruct (windowMean_constant greenOf (inject_Z g) neighbors) as (qg & Eg & Hqg);
    [eapply Forall_impl; [| exact Hall]; intros n ->; reflexivity | exact Hpos |].
  destruct (windowMean_constant blueOf (inject_Z b) neighbors) as (qb & Eb & Hqb);
    [eapply Forall_impl; [| exact Hall]; intros n ->; reflexivity | exact Hpos |].
  destruct (windowVariance_constant _ _ _ qr qg qb neighbors Hall Hpos Hqr Hqg Hqb)
    as (v & Ev & Hv).
  exists qr, qg, qb, v. repeat split; assumption.
Qed.

Lemma zero_share (s : Q) (pixels : Z) (scale : Q) :
  s == 0 -> (0 < pixels)%Z ->
  Js.eqn (Js.min 100 (Fin s / ofZ pixels * Fin scale)%n) (Fin 0).
Proof.
  intros Hs Hp. rewrite div_ofZ by exact Hp. cbn [Js.mul Js.min Js.lt].
  assert (H1 : 0 < inject_Z pixels) by (change 0 with (inject_Z 0); rewrite <- Zlt_Qlt; lia).
  assert (E : s / inject_Z pixels * scale == 0) by (rewrite Hs; field; lra).
  destruct (Qltb_spec (s / inject_Z pixels * scale) 100); simpl; lra.
Qed.

Lemma Realistic_flat_artifacts (img : ImageData) (r g b : Z) (rng : Rng) :
  uniformColour img r g b = true ->
  (0 < canvasWidth img * canvasHeight img)%Z ->
  Js.eqn (Realistic.detectArtifacts (Some img) rng) (Fin 0).
Proof.
  intros Hu Hpix. unfold Realistic.detectArtifacts. cbv zeta.
  match goal with
  | |- context [forZ 2 ?hi ?body 0] => assert (E : forZ 2 hi body 0 == 0)
  end.
  { apply (forZ_invariant (fun s : Q => s == 0)); [reflexivity |].
    intros y s Hy Hs. apply (forZ_invariant (fun s : Q => s == 0)); [exact Hs |].
    intros x s' Hx Hs'.
    assert (Hp : (0 <= y * canvasWidth img + x < canvasWidth img * canvasHeight img)%Z) by nia.
    destruct (uniform_sample img r g b _ Hu Hp) as (-> & -> & ->).
    destruct (flat_window_stats img r g b 2 x y Hu) as
      (qr & qg & qb & v & -> & Hqr & -> & Hqg & -> & Hqb & -> & Hv); try lia.
    rewrite (not_above v 2000 Hv) by lra.
    rewrite !(no_distance _ _ 80) by (assumption || lra).
    unfold Score.seq, Score.cond, Score.skip, Score.incr. cbn [orb].
    destruct (_ || _)%bool; [| exact Hs'].
    cbn [Js.sub Js.add Js.neg Js.abs Js.gt Js.lt].
    assert (Er : Qabs (inject_Z r + - qr) == 0)
      by (setoid_replace (inject_Z r + - qr) with 0 by (rewrite Hqr; ring); reflexivity).
    assert (Eg : Qabs (inject_Z g + - qg) == 0)
      by (setoid_replace (inject_Z g + - qg) with 0 by (rewrite Hqg; ring); reflexivity).
    assert (Eb : Qabs (inject_Z b + - qb) == 0)
      by (setoid_replace (inject_Z b + - qb) with 0 by (rewrite Hqb; ring); reflexivity).
    match goal with |- context [Js.Qltb ?a ?c] => destruct (Qltb_spec a c) end;
      [exfalso; lra | exact Hs']. }
  match goal with
  | |- context [forZ 2 ?hi ?body 0] => set (score := forZ 2 hi body 0) in *
  end.
  now apply zero_share.
Qed.

Lemma Conservative_flat_artifacts (img : ImageData) (r g b : Z) (rng : Rng) :
  uniformColour img r g b = true ->
  (0 < canvasWidth img * canvasHeight img)%Z ->
  Js.eqn (Conservative.detectArtifacts (Some img) rng) (Fin 0).
Proof.
  intros Hu Hpix. unfold Conservative.detectArtifacts. cbv zeta.
  match goal with
  | |- context [forZ 2 ?hi ?body 0] => assert (E : forZ 2 hi body 0 == 0)
  end.
  { apply (forZ_invariant (fun s : Q => s == 0)); [reflexivity |].
    intros y s Hy Hs. apply (forZ_invariant (fun s : Q => s == 0)); [exact Hs |].
    intros x s' Hx Hs'.
    assert (Hp : (0 <= y * canvasWidth img + x < canvasWidth img * canvasHeight img)%Z) by nia.
    destruct (uniform_sample img r g b _ Hu Hp) as (-> & -> & ->).
    destruct (flat_window_stats img r g b 1 x y Hu) as
      (qr & qg & qb & v & -> & Hqr & -> & Hqg & -> & Hqb & -> & Hv); try lia.
    rewrite (not_above v 4000 Hv) by lra.
    rewrite !(no_distance _ _ 120) by (assumption || lra).
    unfold Score.seq, Score.cond, Score.skip. cbn [orb]. exact Hs'. }
  match goal with
  | |- context [forZ 2 ?hi ?body 0] => set (score := forZ 2 hi body 0) in *
  end.
  now apply zero_share.
Qed.

Lemma forZ_count {A : Type} (Inv : nat -> A -> Prop) (lo hi : Z)
      (body : Z -> A -> A) (acc : A) :
  Inv 0%nat acc ->
  (forall k a, (lo + Z.of_nat k < hi)%Z -> Inv k a ->
               Inv (S k) (body (lo + Z.of_nat k)%Z a)) ->
  Inv (Z.to_nat (hi - lo)) (forZ lo hi body acc).
Proof.
  intros H0 Hstep. unfold forZ, zrange. rewrite fold_left_over_map.
  remember (Z.to_nat (hi - lo)) as n eqn:En.
  apply (fold_seq_count Inv (fun k a => body (lo + Z.of_nat k)%Z a) n 0%nat acc H0).
  intros k a Hk. apply Hstep. lia.
Qed.

Lemma gap_test (a b : Z) :
  (Js.abs (Fin (inject_Z a) - Fin (inject_Z b))%n >? 100) = (100 <? Z.abs (a - b))%Z.
Proof.
  cbn [Js.sub Js.add Js.neg Js.abs Js.gt Js.lt].
  assert (E : Qabs (inject_Z a + - inject_Z b) == inject_Z (Z.abs (a - b))).
  { rewrite <- inject_Z_opp, <- inject_Z_plus. reflexivity. }
  destruct (Qltb_spec 100 (Qabs (inject_Z a + - inject_Z b))) as [H | H],
           (Z.ltb_spec 100 (Z.abs (a - b))) as [H' | H']; try reflexivity; exfalso.
  - rewrite E in H. change 100 with (inject_Z 100) in H. rewrite <- Zlt_Qlt in H. lia.
  - apply H. rewrite E. change 100 with (inject_Z 100). rewrite <- Zlt_Qlt. exact H'.
Qed.

(** What the aggressive rules add at an interior pixel of a flat canvas. *)
Lemma Aggressive_flat_step (img : ImageData) (r g b x y : Z) (score : Q) :
  uniformColour img r g b = true ->
  (1 <= y < canvasHeight img - 1)%Z ->
  (1 <= x < canvasWidth img - 1)%Z ->
  let w := canvasWidth img in
  let d := data img in
  let idx := ((y * w + x) * 4)%Z in
  let neighbors :=
    [ sample d (((y - 1) * w + x) * 4);
      sample d (((y + 1) * w + x) * 4);
      sample d ((y * w + (x - 1)) * 4);
      sample d ((y * w + (x + 1)) * 4) ] in
  let avgNeighbor :=
    (fold_left (fun sum val => sum + val) neighbors (Fin 0)
     / Js.of_nat (List.length neighbors))%n in
  let variance :=
    (fold_left (fun sum val => sum + square (val - avgNeighbor)) neighbors (Fin 0)
     / Js.of_nat (List.length neighbors))%n in
  ( (When variance >? 1000 Do += 0.1) ;;
    (When (Js.abs (sample d idx - sample d (idx + 1))%n >? 100) ||
          (Js.abs (sample d (idx + 1) - sample d (idx + 2))%n >? 100) ||
          (Js.abs (sample d idx - sample d (idx + 2))%n >? 100)
     Do += 0.05)
  )%score score
  == score + (if channelGap r g b then 0.05 else 0).
Proof.
  intros Hu Hy Hx. cbv zeta.
  assert (Hin : forall p, (0 <= p < canvasWidth img * canvasHeight img)%Z ->
                sample (data img) (p * 4) = Fin (inject_Z r) /\
                sample (data img) (p * 4 + 1) = Fin (inject_Z g) /\
                sample (data img) (p * 4 + 2) = Fin (inject_Z b))
    by (intros p Hp; now apply uniform_sample).
  destruct (Hin (y * canvasWidth img + x)%Z) as (-> & -> & ->); [nia |].
  destruct (Hin ((y - 1) * canvasWidth img + x)%Z) as (-> & _); [nia |].
  destruct (Hin ((y + 1) * canvasWidth img + x)%Z) as (-> & _); [nia |].
  destruct (Hin (y * canvasWidth img + (x - 1))%Z) as (-> & _); [nia |].
  destruct (Hin (y * canvasWidth img + (x + 1))%Z) as (-> & _); [nia |].
  cbn [fold_left List.length Js.add]. rewrite div_of_nat by lia.
  set (avg := (0 + inject_Z r + inject_Z r + inject_Z r + inject_Z r)
              / inject_Z (Z.of_nat 4)).
  assert (Eavg : avg == inject_Z r) by (unfold avg; field).
  destruct (square_of_nothing (inject_Z r) avg Eavg) as (z & -> & Hz).
  cbn [Js.add]. rewrite div_of_nat by lia.
  rewrite not_above; [| rewrite Hz; field | lra].
  rewrite !gap_test. fold (channelGap r g b).
  unfold Score.seq, Score.cond, Score.skip, Score.incr.
  destruct (channelGap r g b); ring.
Qed.

Lemma Aggressive_flat_score (img : ImageData) (r g b : Z) :
  uniformColour img r g b = true ->
  exists s,
    (forall rng, Aggressive.detectArtifacts (Some img) rng
                 = Js.min 100 (Fin s / ofZ (canvasWidth img * canvasHeight img) * 10000)%n) /\
    s == inject_Z (Z.of_nat (Z.to_nat (canvasHeight img - 1 - 1)))
         * (inject_Z (Z.of_nat (Z.to_nat (canvasWidth img - 1 - 1)))
            * (if channelGap r g b then 0.05 else 0)).
Proof.
  intros Hu. unfold Aggressive.detectArtifacts. cbv zeta.
  eexists. split; [intros rng; reflexivity |].
  set (c := if channelGap r g b then 0.05 else 0).
  set (nx := Z.to_nat (canvasWidth img - 1 - 1)).
  apply (forZ_count (fun (k : nat) (s : Q) =>
                       s == inject_Z (Z.of_nat k) * (inject_Z (Z.of_nat nx) * c))).
  - change (inject_Z (Z.of_nat 0)) with 0. ring.
  - intros k s Hk Hs. cbv beta.
    match goal with
    | |- forZ 1 ?hi ?body s == _ =>
        assert (Hinner : forall base : Q,
                   forZ 1 hi body base == base + inject_Z (Z.of_nat nx) * c)
    end.
    2:{ rewrite Hinner, Hs, succ_inject. ring. }
    intros base.
    apply (forZ_count (fun (j : nat) (s : Q) => s == base + inject_Z (Z.of_nat j) * c)).
    + change (inject_Z (Z.of_nat 0)) with 0. ring.
    + intros j s' Hj Hs'.
      pose proof (Aggressive_flat_step img r g b (1 + Z.of_nat j) (1 + Z.of_nat k) s' Hu) as E.
      cbv zeta in E. rewrite E by lia. fold c. rewrite Hs', succ_inject. ring.
Qed.

(** X19.  A flat canvas (every pixel of one colour) with at least one pixel
    has artifact score 0 in the realistic and the conservative tuning, and
    in the aggressive tuning as long as no two channels of the colour are
    more than 100 apart. *)
Theorem flat_canvas_no_artifacts (img : ImageData) (r g b : Z) (rng : Rng) :
  uniformColour img r g b = true ->
  (0 < canvasWidth img * canvasHeight img)%Z ->
  Js.eqn (Realistic.detectArtifacts (Some img) rng) (Fin 0) /\
  Js.eqn (Conservative.detectArtifacts (Some img) rng) (Fin 0) /\
  (channelGap r g b = false -> Js.eqn (Aggressive.detectArtifacts (Some img) rng) (Fin 0)).
Proof.
  intros Hu Hpix.
  split; [now apply (Realistic_flat_artifacts img r g b) |].
  split; [now apply (Conservative_flat_artifacts img r g b) |].
  intros Hgap. destruct (Aggressive_flat_score img r g b Hu) as (s & -> & Hs).
  rewrite Hgap in Hs. apply zero_share; [| exact Hpix]. rewrite Hs. ring.
Qed.

Lemma flat_canvas_no_artifacts_witness :
  Js.eqn (Realistic.detectArtifacts (Some (plainCanvas 6 6 120 130 90)) halfRng) (Fin 0) /\
  Js.eqn (Conservative.detectArtifacts (Some (plainCanvas 6 6 120 130 90)) halfRng) (Fin 0) /\
  (channelGap 120 130 90 = false ->
   Js.eqn (Aggressive.detectArtifacts (Some (plainCanvas 6 6 120 130 90)) halfRng) (Fin 0)).
Proof.
  apply (flat_canvas_no_artifacts (plainCanvas 6 6 120 130 90) 120 130 90 halfRng).
  - vm_compute. reflexivity.
  - simpl. lia.
Defined.

(** X20.  In the aggressive tuning a flat canvas of a saturated colour (two
    channels more than 100 apart, pure red for instance) that is at least
    4 pixels wide and high gets the highest artifact score, 100: every
    interior pixel adds 0.05, and the sum is scaled by 10000 over the pixel
    count. *)
Theorem aggressive_flat_saturated_artifacts (img : ImageData) (r g b : Z) (rng : Rng) :
  uniformColour img r g b = true ->
  channelGap r g b = true ->
  (4 <= canvasWidth img)%Z -> (4 <= canvasHeight img)%Z ->
  Aggressive.detectArtifacts (Some img) rng = Fin 100.
Proof.
  intros Hu Hgap Hw Hh. destruct (Aggressive_flat_score img r g b Hu) as (s & -> & Hs).
  rewrite Hgap in Hs. rewrite !Z2Nat.id in Hs by lia.
  rewrite div_ofZ by nia. cbn [Js.mul Js.min Js.lt].
  set (w := canvasWidth img) in *. set (h := canvasHeight img) in *.
  assert (Hz : (w * h <= 5 * ((h - 1 - 1) * (w - 1 - 1)))%Z) by nia.
  rewrite Zle_Qle in Hz. rewrite !inject_Z_mult in Hz. change (inject_Z 5) with 5 in Hz.
  assert (Hpos : 0 < inject_Z w * inject_Z h).
  { rewrite <- inject_Z_mult. change 0 with (inject_Z 0). rewrite <- Zlt_Qlt. nia. }
  assert (Hw0 : 0 < inject_Z w) by (change 0 with (inject_Z 0); rewrite <- Zlt_Qlt; lia).
  assert (Hh0 : 0 < inject_Z h) by (change 0 with (inject_Z 0); rewrite <- Zlt_Qlt; lia).
  assert (Hq : 100 <= s / inject_Z (w * h) * 10000).
  { rewrite inject_Z_mult, Hs.
    setoid_replace (inject_Z (h - 1 - 1) * (inject_Z (w - 1 - 1) * 0.05)
                    / (inject_Z w * inject_Z h) * 10000)
      with (500 * (inject_Z (h - 1 - 1) * inject_Z (w - 1 - 1)) / (inject_Z w * inject_Z h))
      by (field; split; lra).
    apply Qle_shift_div_l; [exact Hpos |]. lra. }
  destruct (Qltb_spec (s / inject_Z (w * h) * 10000) 100); [exfalso; lra | reflexivity].
Qed.

Lemma aggressive_flat_saturated_artifacts_witness :
  Aggressive.detectArtifacts (Some (plainCanvas 4 4 255 0 0)) halfRng = Fin 100.
Proof.
  apply (aggressive_flat_saturated_artifacts (plainCanvas 4 4 255 0 0) 255 0 0 halfRng).
  - vm_compute. reflexivity.
  - reflexivity.
  - simpl. lia.
  - simpl. lia.
Defined.

(* ------------------------------------------------------------------ *)
(** ** The aggressive face score *)

Lemma fold_left_tally {B : Type} (P : B -> bool) (l : list B) :
  forall acc : Z,
    fold_left (fun a i => if P i then (a + 1)%Z else a) l acc
    = (acc + Z.of_nat (List.length (filter P l)))%Z.
Proof.
  induction l as [| i l IH]; intros acc; cbn [fold_left filter].
  - cbn [List.length]. lia.
  - rewrite IH. destruct (P i); cbn [List.length]; lia.
Qed.

Lemma Aggressive_face_formula (img : ImageData) (n : Z) (rng : Rng) :
  holdsPixels img n -> (0 < n)%Z ->
  (skinCount img <= Z.to_nat n)%nat /\
  exists q,
    Aggressive.performFaceAnalysis (Some img) rng = Js.min 100 (Fin q) /\
    q == inject_Z (Z.of_nat (skinCount img)) / inject_Z n * 500.
Proof.
  intros Hlen Hn. unfold holdsPixels in Hlen. split.
  - unfold skinCount. eapply Nat.le_trans; [apply filter_length_le |].
    unfold strideRange. rewrite length_map, length_seq, Hlen.
    rewrite whole_pixels_trips by lia. lia.
  - unfold Aggressive.performFaceAnalysis. cbv zeta.
    unfold forStride.
    rewrite (fold_left_tally
               (fun i => rgbSkin (sample (data img) i) (sample (data img) (i + 1))
                                 (sample (data img) (i + 2)))).
    fold (skinCount img). rewrite Z.add_0_l, Hlen. unfold ofZ.
    assert (Hpos : 0 < inject_Z n) by (change 0 with (inject_Z 0); rewrite <- Zlt_Qlt; lia).
    assert (Em : inject_Z (4 * n) / 4 == inject_Z n) by (rewrite inject_Z_mult; field).
    rewrite (div_Fin (inject_Z (4 * n)) 4) by discriminate.
    rewrite div_Fin by lra. cbn [Js.mul].
    eexists. split; [reflexivity |]. rewrite Em. reflexivity.
Qed.

(** X21.  On a canvas of [n >= 1] whole pixels the aggressive face score is
    a finite number in [[0, 100]]; it is 0 when no pixel passes the RGB skin
    test and it is already 100 when a fifth of the pixels do.  (The
    aggressive scorer adds 30 for a face score below 20 or above 80.) *)
Theorem aggressive_face_score (img : ImageData) (n : Z) (rng : Rng) :
  holdsPixels img n -> (0 < n)%Z ->
  Js.within 0 100 (Aggressive.performFaceAnalysis (Some img) rng) /\
  (skinCount img = 0%nat ->
   Js.eqn (Aggressive.performFaceAnalysis (Some img) rng) (Fin 0)) /\
  ((n <= 5 * Z.of_nat (skinCount img))%Z ->
   Aggressive.performFaceAnalysis (Some img) rng = Fin 100).
Proof.
  intros Hlen Hn.
  destruct (Aggressive_face_formula img n rng Hlen Hn) as (Hle & q & -> & Hq).
  assert (Hpos : 0 < inject_Z n) by (change 0 with (inject_Z 0); rewrite <- Zlt_Qlt; lia).
  pose proof (of_nat_nonneg (skinCount img)) as Hs0.
  assert (Hr : 0 <= inject_Z (Z.of_nat (skinCount img)) / inject_Z n)
    by (apply Qle_shift_div_l; lra).
  split; [| split].
  - apply capped_score. rewrite Hq. nra.
  - intros H0. rewrite H0 in Hq. cbn [Js.min Js.lt].
    assert (E : q == 0) by (rewrite Hq; change (inject_Z (Z.of_nat 0)) with 0; field; lra).
    destruct (Qltb_spec q 100); simpl; lra.
  - intros Hfifth. cbn [Js.min Js.lt].
    assert (H5 : 1 <= inject_Z (Z.of_nat (skinCount img)) / inject_Z n * 5).
    { rewrite Zle_Qle, inject_Z_mult in Hfifth. change (inject_Z 5) with 5 in Hfifth.
      assert (E : inject_Z (Z.of_nat (skinCount img)) / inject_Z n * 5
                  == 5 * inject_Z (Z.of_nat (skinCount img)) / inject_Z n) by (field; lra).
      rewrite E. apply Qle_shift_div_l; lra. }
    destruct (Qltb_spec q 100); [exfalso; lra | reflexivity].
Qed.

Lemma aggressive_face_score_witness :
  Js.within 0 100 (Aggressive.performFaceAnalysis (Some (plainCanvas 2 2 200 120 90)) halfRng) /\
  (skinCount (plainCanvas 2 2 200 120 90) = 0%nat ->
   Js.eqn (Aggressive.performFaceAnalysis (Some (plainCanvas 2 2 200 120 90)) halfRng) (Fin 0)) /\
  ((4 <= 5 * Z.of_nat (skinCount (plainCanvas 2 2 200 120 90)))%Z ->
   Aggressive.performFaceAnalysis (Some (plainCanvas 2 2 200 120 90)) halfRng = Fin 100).
Proof.
  apply (aggressive_face_score (plainCanvas 2 2 200 120 90) 4 halfRng).
  - reflexivity.
  - lia.
Defined.

(* ------------------------------------------------------------------ *)
(** ** ModelLoader *)

Lemma settle_keeps_ready (outcome : ModelLoader.Outcome) (st : ModelLoader.State) :
  ModelLoader.isModelsReady st = true ->
  ModelLoader.isModelsReady (ModelLoader.settle outcome st) = true.
Proof.
  destruct st as [[d |] [f |] l], outcome; simpl; intros H; try discriminate; reflexivity.
Qed.

Lemma step_invariant (cfg : ModelLoader.State * nat) (e : ModelLoader.Event) :
  (snd cfg <= 1)%nat /\ (ModelLoader.isLoading (fst cfg) = true <-> snd cfg = 1%nat) ->
  (snd (ModelLoader.step cfg e) <= 1)%nat /\
  (ModelLoader.isLoading (fst (ModelLoader.step cfg e)) = true
   <-> snd (ModelLoader.step cfg e) = 1%nat).
Proof.
  destruct cfg as [[d f l] pending]. cbn [fst snd]. intros [Hle Hiff].
  destruct e as [| outcome]; unfold ModelLoader.step, ModelLoader.enter;
    cbn [ModelLoader.isLoading ModelLoader.deepfakeModel ModelLoader.faceDetectionModel].
  - destruct l; cbn [fst snd ModelLoader.isLoading].
    + split; [exact Hle | exact Hiff].
    + assert (pending = 0%nat).
      { destruct pending as [| [| p]]; [reflexivity | | lia].
        destruct Hiff as [_ H]. discriminate (H eq_refl). }
      subst. split; [lia | tauto].
  - destruct pending as [| pending]; cbn [fst snd].
    + split; [exact Hle | exact Hiff].
    + unfold ModelLoader.settle. cbn [ModelLoader.isLoading]. split; [lia |].
      split; [discriminate | lia].
Qed.

Lemma step_keeps_ready (cfg : ModelLoader.State * nat) (e : ModelLoader.Event) :
  ModelLoader.isModelsReady (fst cfg) = true ->
  ModelLoader.isModelsReady (fst (ModelLoader.step cfg e)) = true.
Proof.
  destruct cfg as [st pending]. cbn [fst]. intros H.
  destruct e as [| outcome]; unfold ModelLoader.step, ModelLoader.enter.
  - destruct (ModelLoader.isLoading st); cbn [fst]; [exact H |].
    destruct st as [[d |] [f |] l]; unfold ModelLoader.isModelsReady in *; cbn in *;
      first [reflexivity | discriminate].
  - destruct pending; cbn [fst]; [exact H | now apply settle_keeps_ready].
Qed.

(** X22.  Whatever calls of [initializeModels] start and settle, in any
    order, from the fresh singleton: at most one call is ever in flight,
    [isLoading] is true exactly while one is, and once both models are set
    no later call or failure can make the loader not ready again. *)
Theorem loader_single_flight (events more : list ModelLoader.Event) :
  let cfg := ModelLoader.run events (ModelLoader.fresh, 0%nat) in
  (snd cfg <= 1)%nat /\
  (ModelLoader.isLoading (fst cfg) = true <-> snd cfg = 1%nat) /\
  (ModelLoader.isModelsReady (fst cfg) = true ->
   ModelLoader.isModelsReady (fst (ModelLoader.run more cfg)) = true).
Proof.
  cbv zeta. split; [| split].
  - apply (fold_left_invariant
             (fun cfg => (snd cfg <= 1)%nat /\
                         (ModelLoader.isLoading (fst cfg) = true <-> snd cfg = 1%nat))).
    + simpl. split; [lia |]. split; [discriminate | lia].
    + intros cfg e _ H. now apply step_invariant.
  - apply (fold_left_invariant
             (fun cfg => (snd cfg <= 1)%nat /\
                         (ModelLoader.isLoading (fst cfg) = true <-> snd cfg = 1%nat))).
    + simpl. split; [lia |]. split; [discriminate | lia].
    + intros cfg e _ H. now apply step_invariant.
  - intros Hready. unfold ModelLoader.run at 1.
    apply (fold_left_invariant
             (fun cfg => ModelLoader.isModelsReady (fst cfg) = true)); [exact Hready |].
    intros cfg e _ H. now apply step_keeps_ready.
Qed.

Lemma initializeAll_ready (outcomes : list ModelLoader.Outcome) :
  forall st,
    ModelLoader.isLoading st = false ->
    (ModelLoader.faceDetectionModel st <> None -> ModelLoader.deepfakeModel st <> None) ->
    ModelLoader.isLoading (initializeAll outcomes st) = false /\
    (ModelLoader.isModelsReady (initializeAll outcomes st) = true
     <-> ModelLoader.isModelsReady st = true \/ In ModelLoader.Succeeds outcomes).
Proof.
  induction outcomes as [| outcome outcomes IH]; intros st Hl Hf.
  - simpl. split; [exact Hl | tauto].
  - unfold initializeAll in *. cbn [fold_left].
    destruct st as [d f l]. cbn [ModelLoader.isLoading] in Hl. subst l.
    specialize (IH (ModelLoader.initializeModels outcome (ModelLoader.mkState d f false))).
    destruct IH as [IHl IHr].
    + destruct outcome; reflexivity.
    + destruct outcome, d, f; simpl in *; first [exact Hf | congruence].
    + split; [exact IHl |]. rewrite IHr. cbn [In].
      destruct outcome, d as [d |], f as [f |]; simpl in *; split; intros [H | H];
        try tauto; try discriminate; try (left; reflexivity); try (right; left; reflexivity);
        try (right; right; assumption);
        try (destruct H as [H | H]; [discriminate | tauto]);
        try (exfalso; apply Hf; congruence).
Qed.

(** X23.  After any sequence of completed calls of [initializeModels] on the
    fresh singleton, the loader is ready exactly when one of the calls got
    through both builders; a failure is swallowed and leaves [isLoading]
    false.  Until then [detectDeepfake] rejects every file, supported or
    not, with "Models not initialized". *)
Theorem loader_ready_iff_success (outcomes : list ModelLoader.Outcome) :
  let loader := initializeAll outcomes ModelLoader.fresh in
  ModelLoader.isLoading loader = false /\
  (ModelLoader.isModelsReady loader = true <-> In ModelLoader.Succeeds outcomes) /\
  (~ In ModelLoader.Succeeds outcomes ->
   forall D file rng,
     detectDeepfake D (ModelLoader.isModelsReady loader) file rng = inl ModelsNotInitialized).
Proof.
  cbv zeta.
  destruct (initializeAll_ready outcomes ModelLoader.fresh) as [Hl Hr];
    [reflexivity | simpl; congruence |].
  split; [exact Hl |]. split.
  - rewrite Hr. simpl. split; [intros [H | H]; [discriminate | exact H] | tauto].
  - intros Hno D file rng.
    assert (E : ModelLoader.isModelsReady (initializeAll outcomes ModelLoader.fresh) = false).
    { apply not_true_is_false. intros E. apply Hr in E.
      destruct E as [E | E]; [discriminate | now apply Hno]. }
    rewrite E. reflexivity.
Qed.

(* ------------------------------------------------------------------ *)
(** ** The upload handler *)

Lemma detect_settles (D : Detector) (ready : bool) (file : File) (rng : Rng) :
  In D detectors -> detectDeepfake D ready file rng <> inl Unsettled.
Proof.
  intros HD. unfold detectDeepfake. destruct ready; cbn [negb]; [| discriminate].
  destruct (Js.startsWith (type file) "image/").
  - destruct (analyzeImage D file rng) as [e | [c a]] eqn:E; [| discriminate].
    rewrite (analysis_errors D file rng e HD (or_introl E)). discriminate.
  - destruct (Js.startsWith (type file) "video/"); [| discriminate].
    destruct (analyzeVideo D file rng) as [e | [c a]] eqn:E; [| discriminate].
    rewrite (analysis_errors D file rng e HD (or_intror E)). discriminate.
Qed.

Lemma resultRow_filename (file : File) (mlResult : DeepfakeDetectionResult) :
  App.filename (App.resultRow file mlResult) = name file.
Proof. destruct file, mlResult as [? ? ? []]. reflexivity. Qed.

Lemma fallbackResult_filename (file : File) :
  App.filename (App.fallbackResult file) = name file.
Proof. destruct file. reflexivity. Qed.

Lemma resultRow_sound (D : Detector) (ready : bool) (file : File) (rng : Rng)
      (mlResult : DeepfakeDetectionResult) :
  In D detectors ->
  detectDeepfake D ready file rng = inr mlResult ->
  soundRow (App.resultRow file mlResult).
Proof.
  intros HD H. apply detect_inr in H. destruct H as [_ (c & a & Hpath & ->)].
  assert (Hc : exists q, c = clamp (Fin q)).
  { apply (analysis_paths_clamped D file rng c a HD). tauto. }
  destruct Hc as [q ->]. destruct file, a. unfold soundRow. cbn. split.
  - apply clamp_within.
  - now apply flag_above_low.
Qed.

Lemma fallbackResult_sound (file : File) : soundRow (App.fallbackResult file).
Proof.
  destruct file. unfold soundRow. cbn. split; [lra | discriminate].
Qed.

Lemma processFiles_rows (D : Detector) (ready : bool) (rngs : nat -> Rng) (files : list File) :
  In D detectors ->
  forall k results,
    App.isProcessing (App.processFiles D ready rngs files k results) = false /\
    map App.filename (App.detectionResults (App.processFiles D ready rngs files k results))
    = (rev (map name files) ++ map App.filename results)%list /\
    (Forall soundRow results ->
     Forall soundRow (App.detectionResults (App.processFiles D ready rngs files k results))).
Proof.
  intros HD. induction files as [| file files IH]; intros k results.
  - simpl. repeat split. tauto.
  - cbn [App.processFiles].
    pose proof (detect_settles D ready file (rngs k) HD) as Hset.
    destruct (detectDeepfake D ready file (rngs k)) as [e | r] eqn:E.
    + assert (Hrow : App.processFiles D ready rngs (file :: files) k results
                     = App.processFiles D ready rngs files (S k)
                         (App.fallbackResult file :: results)).
      { cbn [App.processFiles]. rewrite E. destruct e; try reflexivity. congruence. }
      destruct (IH (S k) (App.fallbackResult file :: results)) as (Hp & Hn & Hs).
      destruct e; try congruence;
        (split; [exact Hp |]; split;
         [ rewrite Hn; cbn [map rev]; rewrite fallbackResult_filename, <- app_assoc;
           reflexivity
         | intros Hall; apply Hs; constructor; [apply fallbackResult_sound | exact Hall] ]).
    + destruct (IH (S k) (App.resultRow file r :: results)) as (Hp & Hn & Hs).
      split; [exact Hp |]. split.
      * rewrite Hn. cbn [map rev]. rewrite resultRow_filename, <- app_assoc. reflexivity.
      * intros Hall. apply Hs. constructor; [| exact Hall].
        now apply (resultRow_sound D ready file (rngs k)).
Qed.



(** X25.  Uploads keep the rows sound: if every row shown has a finite
    confidence in [[0, 100]] and none is flagged while rated low, the same
    holds after an upload of any files through any of the three tunings,
    the rows of failed detections included. *)
Theorem upload_keeps_rows_sound (D : Detector) (modelsReady areDetectorModelsReady : bool)
        (rngs : nat -> Rng) (files : list File) (view : App.View) :
  In D detectors ->
  Forall soundRow (App.detectionResults view) ->
  Forall soundRow
    (App.detectionResults
       (App.handleFileUpload D modelsReady areDetectorModelsReady rngs files view)).
Proof.
  intros HD Hall. unfold App.handleFileUpload.
  destruct areDetectorModelsReady; cbn [negb]; [| exact Hall].
  destruct (processFiles_rows D modelsReady rngs files HD 0%nat (App.detectionResults view))
    as (_ & _ & Hs).
  now apply Hs.
Qed.

Lemma upload_keeps_rows_sound_witness :
  Forall soundRow
    (App.detectionResults
       (App.handleFileUpload Aggressive.detector true true (fun _ => halfRng)
          [noisyShot; notesFile; holidayClip] (App.mkView [] false))).
Proof.
  apply (upload_keeps_rows_sound Aggressive.detector true true (fun _ => halfRng)
           [noisyShot; notesFile; holidayClip] (App.mkView [] false)).
  - left; reflexivity.
  - apply Forall_nil.
Defined.

Lemma processFiles_without_models (D : Detector) (rngs : nat -> Rng) (files : list File) :
  forall k results,
    App.processFiles D false rngs files k results
    = App.mkView (rev (map App.fallbackResult files) ++ results)%list false.
Proof.
  induction files as [| file files IH]; intros k results; [reflexivity |].
  cbn [App.processFiles detectDeepfake negb]. rewrite IH.
  cbn [map rev]. now rewrite <- app_assoc.
Qed.

(** X26.  An initialization that fails is not noticed by the component: the
    flag is set all the same, and from then on every uploaded file, with any
    detector behind the handler, gets the row of the [catch] block, which
    reports confidence 0, not a deepfake, threat level low. *)
Theorem upload_after_failed_initialization (D : Detector) (outcome : ModelLoader.Outcome)
        (rngs : nat -> Rng) (files : list File) (view : App.View) :
  outcome <> ModelLoader.Succeeds ->
  let '(loader, areDetectorModelsReady) :=
    App.initializeDetector outcome ModelLoader.fresh in
  areDetectorModelsReady = true /\
  ModelLoader.isModelsReady loader = false /\
  App.handleFileUpload D (ModelLoader.isModelsReady loader) areDetectorModelsReady
                       rngs files view
  = App.mkView (rev (map App.fallbackResult files) ++ App.detectionResults view)%list false /\
  (forall file,
     App.confidence (App.fallbackResult file) = Fin 0 /\
     App.isDeepfake (App.fallbackResult file) = false /\
     App.threatLevel (App.fallbackResult file) = low).
Proof.
  intros Hfail. unfold App.initializeDetector.
  assert (E : ModelLoader.isModelsReady
                (ModelLoader.initializeModels outcome ModelLoader.fresh) = false)
    by (destruct outcome; [reflexivity .. | congruence]).
  split; [reflexivity |]. split; [exact E |]. split.
  - rewrite E. unfold App.handleFileUpload. cbn [negb].
    apply processFiles_without_models.
  - intros []. repeat split.
Qed.

Lemma upload_after_failed_initialization_witness :
  let '(loader, areDetectorModelsReady) :=
    App.initializeDetector ModelLoader.BackendFails ModelLoader.fresh in
  areDetectorModelsReady = true /\
  ModelLoader.isModelsReady loader = false /\
  App.handleFileUpload Conservative.detector (ModelLoader.isModelsReady loader)
                       areDetectorModelsReady (fun _ => halfRng) [noisyDeepfake]
                       (App.mkView [] false)
  = App.mkView (rev (map App.fallbackResult [noisyDeepfake]) ++ [])%list false /\
  (forall file,
     App.confidence (App.fallbackResult file) = Fin 0 /\
     App.isDeepfake (App.fallbackResult file) = false /\
     App.threatLevel (App.fallbackResult file) = low).
Proof.
  apply (upload_after_failed_initialization Conservative.detector ModelLoader.BackendFails
           (fun _ => halfRng) [noisyDeepfake] (App.mkView [] false)).
  discriminate.
Defined.

(* ------------------------------------------------------------------ *)
(** ** Which files reach the detector *)

(** X27.  Every file that a drop hands to the upload handler has a declared
    type the detector dispatches on: no dropped file is ever rejected as an
    unsupported type by a ready detector, and a drop without such a file
    does not call the handler.  The file picker filters nothing. *)
Theorem dropped_files_supported (files valid : list File) :
  UploadZone.handleDrop files = Some valid ->
  valid <> [] /\
  (forall file, In file valid <-> In file files /\ supportedType file = true) /\
  (forall D file rng, In D detectors -> In file valid ->
     detectDeepfake D true file rng <> inl UnsupportedFileType) /\
  (files <> [] -> UploadZone.handleFileInput files = Some files).
Proof.
  unfold UploadZone.handleDrop. cbv zeta.
  change (filter (fun file => Js.startsWith (type file) "image/" ||
                               Js.startsWith (type file) "video/") files)
    with (filter supportedType files).
  destruct (Nat.ltb_spec 0 (List.length (filter supportedType files))) as [Hpos | _];
    [| discriminate].
  intros H. injection H as <-.
  split; [intros E; rewrite E in Hpos; simpl in Hpos; lia |].
  split; [intros file; apply filter_In |].
  split.
  - intros D file rng HD Hin. apply filter_In in Hin. destruct Hin as [_ Hs].
    unfold supportedType in Hs. unfold detectDeepfake. cbn [negb].
    destruct (Js.startsWith (type file) "image/").
    + destruct (analyzeImage D file rng) as [e | [c a]] eqn:E; [| discriminate].
      rewrite (analysis_errors D file rng e HD (or_introl E)). discriminate.
    + cbn [orb] in Hs. rewrite Hs.
      destruct (analyzeVideo D file rng) as [e | [c a]] eqn:E; [| discriminate].
      rewrite (analysis_errors D file rng e HD (or_intror E)). discriminate.
  - intros Hne. unfold UploadZone.handleFileInput.
    destruct files; [congruence | reflexivity].
Qed.

Lemma dropped_files_supported_witness :
  [holidayPhoto; holidayClip] <> [] /\
  (forall file, In file [holidayPhoto; holidayClip]
                <-> In file [holidayPhoto; notesFile; holidayClip] /\
                    supportedType file = true) /\
  (forall D file rng, In D detectors -> In file [holidayPhoto; holidayClip] ->
     detectDeepfake D true file rng <> inl UnsupportedFileType) /\
  ([holidayPhoto; notesFile; holidayClip] <> [] ->
   UploadZone.handleFileInput [holidayPhoto; notesFile; holidayClip]
   = Some [holidayPhoto; notesFile; holidayClip]).
Proof.
  apply (dropped_files_supported [holidayPhoto; notesFile; holidayClip]
           [holidayPhoto; holidayClip]).
  reflexivity.
Defined.

(* ------------------------------------------------------------------ *)
(** ** Dashboard statistics *)

Lemma countWhere_cons (p : App.DetectionResult -> bool) (r : App.DetectionResult)
      (results : list App.DetectionResult) :
  Dashboard.countWhere p (r :: results)
  = (Nat.b2n (p r) + Dashboard.countWhere p results)%nat.
Proof. unfold Dashboard.countWhere. cbn [filter]. destruct (p r); reflexivity. Qed.

Lemma one_level (r : App.DetectionResult) :
  (Nat.b2n (Dashboard.hasLevel low r) + Nat.b2n (Dashboard.hasLevel medium r)
   + Nat.b2n (Dashboard.hasLevel high r) + Nat.b2n (Dashboard.hasLevel critical r)
   = 1)%nat.
Proof. unfold Dashboard.hasLevel. destruct (App.threatLevel r); reflexivity. Qed.

Lemma levels_partition (results : list App.DetectionResult) :
  (Dashboard.countWhere (Dashboard.hasLevel low) results
   + Dashboard.countWhere (Dashboard.hasLevel medium) results
   + Dashboard.countWhere (Dashboard.hasLevel high) results
   + Dashboard.countWhere (Dashboard.hasLevel critical) results
   = List.length results)%nat.
Proof.
  induction results as [| r results IH]; [reflexivity |].
  rewrite !countWhere_cons. pose proof (one_level r). cbn [List.length]. lia.
Qed.

(** X28.  The four counts of the threat distribution add up to the number of
    rows, the number of critical threats is its last entry, the number of
    deepfakes is at most the number of rows (so the authentic count is not
    negative), and the recent activity shows at most five rows. *)
Theorem dashboard_counts (results : list App.DetectionResult) :
  let '(lows, mediums, highs, criticals) := Dashboard.threatDistribution results in
  (lows + mediums + highs + criticals = Dashboard.totalFiles results)%nat /\
  Dashboard.criticalThreats results = criticals /\
  (Dashboard.deepfakeCount results <= Dashboard.totalFiles results)%nat /\
  (0 <= Dashboard.authenticCount results)%Z /\
  List.length (Dashboard.recentActivity results)
  = Nat.min 5 (Dashboard.totalFiles results).
Proof.
  unfold Dashboard.threatDistribution.
  assert (Hd : (Dashboard.deepfakeCount results <= Dashboard.totalFiles results)%nat)
    by apply filter_length_le.
  split; [apply levels_partition |]. split; [reflexivity |]. split; [exact Hd |].
  split; [unfold Dashboard.authenticCount; lia |].
  unfold Dashboard.recentActivity. apply length_firstn.
Qed.

Lemma confidence_sum (results : list App.DetectionResult) :
  Forall soundRow results ->
  forall a, exists s,
    fold_left (fun acc r => (acc + App.confidence r)%n) results (Fin a) = Fin s /\
    a <= s /\ s <= a + 100 * inject_Z (Z.of_nat (List.length results)).
Proof.
  induction 1 as [| r results [Hr _] _ IH]; intros a; cbn [fold_left List.length].
  - exists a. split; [reflexivity |]. change (inject_Z (Z.of_nat 0)) with 0. lra.
  - destruct (App.confidence r) as [c | | |]; try contradiction. simpl in Hr.
    cbn [Js.add]. destruct (IH (a + c)) as (s & -> & Hlo & Hhi).
    exists s. split; [reflexivity |]. rewrite succ_inject. lra.
Qed.

(** X29.  The average confidence shown by the dashboard is a finite number
    in [[0, 100]] on sound rows, and is 0 without rows; so it is after any
    upload through one of the three tunings onto sound rows. *)
Theorem dashboard_average_in_range (D : Detector) (modelsReady areDetectorModelsReady : bool)
        (rngs : nat -> Rng) (files : list File) (view : App.View) :
  In D detectors ->
  Forall soundRow (App.detectionResults view) ->
  Js.within 0 100 (Dashboard.averageConfidence (App.detectionResults view)) /\
  Js.within 0 100
    (Dashboard.averageConfidence
       (App.detectionResults
          (App.handleFileUpload D modelsReady areDetectorModelsReady rngs files view))) /\
  Dashboard.averageConfidence [] = Fin 0.
Proof.
  intros HD Hall.
  assert (Havg : forall results, Forall soundRow results ->
                                 Js.within 0 100 (Dashboard.averageConfidence results)).
  { intros results Hs. unfold Dashboard.averageConfidence, Dashboard.totalFiles.
    destruct (Nat.ltb_spec 0 (List.length results)) as [Hpos | _]; [| simpl; lra].
    destruct (confidence_sum results Hs 0) as (s & -> & Hlo & Hhi).
    rewrite div_of_nat by exact Hpos. simpl.
    assert (Hn : 0 < inject_Z (Z.of_nat (List.length results)))
      by (change 0 with (inject_Z 0); rewrite <- Zlt_Qlt; lia).
    split; [apply Qle_shift_div_l | apply Qle_shift_div_r]; lra. }
  split; [now apply Havg |]. split; [| reflexivity].
  apply Havg. unfold App.handleFileUpload.
  destruct areDetectorModelsReady; cbn [negb]; [| exact Hall].
  destruct (processFiles_rows D modelsReady rngs files HD 0%nat (App.detectionResults view))
    as (_ & _ & Hs).
  now apply Hs.
Qed.

Lemma dashboard_average_in_range_witness :
  Js.within 0 100 (Dashboard.averageConfidence []) /\
  Js.within 0 100
    (Dashboard.averageConfidence
       (App.detectionResults
          (App.handleFileUpload Aggressive.detector true true (fun _ => halfRng)
             [noisyShot; notesFile] (App.mkView [] false)))) /\
  Dashboard.averageConfidence [] = Fin 0.
Proof.
  apply (dashboard_average_in_range Aggressive.detector true true (fun _ => halfRng)
           [noisyShot; notesFile] (App.mkView [] false)).
  - left; reflexivity.
  - apply Forall_nil.
Defined.

(* ------------------------------------------------------------------ *)
(** ** Image quality of a flat canvas *)



